(** * Bizay variant-matrix scraper: a shallow embedding of
      [src/bizay_scraper/scraper.py] and the properties of its option
      discovery, selection enumeration, requoting and pricing extraction.

    The product metadata of the same scraper and the category scraper of
    [src/ashley_scraper/scraper.py] (page load, product count, page plan,
    link normalisation and filing, result) follow, with their properties.

    Numbers that Python and JavaScript hold as IEEE-754 doubles are modelled
    with the axiom-free binary64 specification of the standard library
    ([SpecFloat]), and the numbers of a script result that reach Python as
    [int] are integers; Python [set]s are [gset]s; Python [dict]s, whose
    insertion order is observable (it decides the order of the query string),
    are association lists with unique keys. *)

From stdpp Require Import base decidable countable gmap strings.
From Stdlib Require Import ZArith List String Ascii Bool Lia Permutation Sorted.
From Stdlib.Floats Require Import SpecFloat.
From Stdlib Require DecimalString.
Import ListNotations.

Local Open Scope Z_scope.
Local Open Scope string_scope.
Local Open Scope list_scope.

(* ===================================================================== *)
(** ** Binary64 arithmetic, as Python [float] and JavaScript [Number] *)
(* ===================================================================== *)

Module Float64.

Definition prec : Z := 53.
Definition emax : Z := 1024.

Definition float := spec_float.

Definition zero : float := S754_zero false.

(** [float(n)] for a Python [int], and a JavaScript integer literal. *)
Definition of_Z (n : Z) : float := binary_normalize prec emax n 0 false.

(** The double nearest to the decimal [n / 10^k] (ties to even): what a
    correctly rounded string-to-double conversion returns for a decimal
    literal with digits [n] and [k] digits after the point. *)
Definition of_decimal (s : bool) (n : N) (k : nat) : float :=
  match n with
  | N0 => S754_zero s
  | Npos p =>
      SFdiv prec emax (S754_finite s p 0)
            (S754_finite false (Z.to_pos (10 ^ Z.of_nat k)) 0)
  end.

Definition div : float -> float -> float := SFdiv prec emax.
Definition ltb : float -> float -> bool := SFltb.

(** JavaScript [x > 0]. *)
Definition positive (x : float) : bool := ltb zero x.

(** [n / d] for integers, rounded half to even. *)
Definition div_half_even (n d : Z) : Z :=
  let q := n / d in
  let r := n mod d in
  match 2 * r ?= d with
  | Lt => q
  | Gt => q + 1
  | Eq => if Z.even q then q else q + 1
  end.

(** Python [round(x, ndigits)] for a float [x] and [ndigits >= 0]
    (CPython [float.__round__]: the exact binary value of [x] is rounded
    half-even to [ndigits] decimals, and that decimal is converted back to
    the nearest double; infinities and NaN are returned unchanged). *)
Definition py_round (x : float) (ndigits : nat) : float :=
  match x with
  | S754_finite s m e =>
      let scale := 10 ^ Z.of_nat ndigits in
      let n := match e with
               | Zneg p => div_half_even (Zpos m * scale) (2 ^ Zpos p)
               | _ => Zpos m * scale * 2 ^ e
               end in
      of_decimal s (Z.to_N n) ndigits
  | _ => x
  end.

End Float64.

(* ===================================================================== *)
(** ** Python numbers, and the numbers [page.evaluate] hands to Python *)
(* ===================================================================== *)

Module PyNum.
Import Float64.

(** A Python number: an [int] or a [float]. *)
Inductive number :=
| Int (n : Z)
| Float (x : float).

(** The integer that [Number::toString] writes for the integral double of
    value [v], [1 <= v < 10^21]: of the decimals with the fewest
    significant digits that round to [v], the one nearest to [v], the even
    one of two; [e] counts the exponents of ten still to try, highest
    first. *)
Fixpoint shortest_digits (e : nat) (v : Z) : Z :=
  match e with
  | O => v
  | S e' =>
      let p := 10 ^ Z.of_nat e in
      let lo := v / p * p in
      let hi := lo + p in
      let ok_lo := Z.leb p v && SFeqb (of_Z lo) (of_Z v) in
      let ok_hi := Z.leb p v && SFeqb (of_Z hi) (of_Z v) in
      if ok_lo && ok_hi then
        match v - lo ?= hi - v with
        | Lt => lo
        | Gt => hi
        | Eq => if Z.even (v / p) then lo else hi
        end
      else if ok_lo then lo
      else if ok_hi then hi
      else shortest_digits e' v
  end.

(** The value of a finite double [m * 2^e] when it is an integer. *)
Definition integral (m : BinNums.positive) (e : Z) : option Z :=
  match e with
  | Zneg p => if Z.eqb (Zpos m mod 2 ^ Zpos p) 0 then Some (Zpos m / 2 ^ Zpos p) else None
  | _ => Some (Zpos m * 2 ^ e)
  end.

(** What Python receives for the JavaScript number [x] of a result of
    [page.evaluate]: the number travels as JSON text, which [json.loads]
    reads as an [int] when it has neither fraction nor exponent, that is
    for an integral [x] below [10^21] in magnitude, and as the [float] [x]
    otherwise; [-0], infinities and [NaN] travel by name and arrive as
    floats. *)
Definition of_js (x : float) : number :=
  match x with
  | S754_zero false => Int 0
  | S754_finite s m e =>
      match integral m e with
      | Some v => if Z.ltb v (10 ^ 21)
                  then Int (if s then - shortest_digits 20 v else shortest_digits 20 v)
                  else Float x
      | None => Float x
      end
  | _ => Float x
  end.

(** An integer as the exact operand of a division. *)
Definition exact (n : Z) : float :=
  match n with
  | Z0 => S754_zero false
  | Zpos p => S754_finite false p 0
  | Zneg p => S754_finite true p 0
  end.

(** [n / d] for two ints, [d <> 0]: the double nearest to the quotient. *)
Definition quotient (n d : Z) : float := SFdiv prec emax (exact n) (exact d).

(** Python [t / q] for a number [t] and an int [q <> 0]: the quotient of
    two ints is correctly rounded, a float is divided by [float(q)]. *)
Definition truediv (t : number) (q : Z) : float :=
  match t with
  | Int n => quotient n q
  | Float x => div x (of_Z q)
  end.

(** Python [t > 0]. *)
Definition positive (t : number) : bool :=
  match t with
  | Int n => Z.ltb 0 n
  | Float x => Float64.positive x
  end.

End PyNum.

(* ===================================================================== *)
(** ** JavaScript string helpers and the regular expressions of the
       in-page scripts

    Page text is modelled as a [string] of 8-bit characters (the code units
    below 256).  Each regular
    expression of the source is embedded as the matcher computing the first
    capture group of its leftmost match ([String.prototype.match] without
    the [g] flag). *)
(* ===================================================================== *)

Module JS.

Definition is_digit (c : ascii) : bool :=
  let n := nat_of_ascii c in (48 <=? n)%nat && (n <=? 57)%nat.

Definition is_comma (c : ascii) : bool := Ascii.eqb c ",".

(** The character class [[\d,.]]. *)
Definition is_price_char (c : ascii) : bool :=
  is_digit c || is_comma c || Ascii.eqb c ".".

Definition is_empty (s : string) : bool :=
  match s with EmptyString => true | _ => false end.

Fixpoint take_while (p : ascii -> bool) (s : string) : string :=
  match s with
  | String c r => if p c then String c (take_while p r) else EmptyString
  | EmptyString => EmptyString
  end.

Fixpoint drop_while (p : ascii -> bool) (s : string) : string :=
  match s with
  | String c r => if p c then drop_while p r else s
  | EmptyString => EmptyString
  end.

Fixpoint all_chars (p : ascii -> bool) (s : string) : bool :=
  match s with
  | String c r => p c && all_chars p r
  | EmptyString => true
  end.

(** [s.replace(/,/g, '')] *)
Fixpoint remove_commas (s : string) : string :=
  match s with
  | String c r => if is_comma c then remove_commas r else String c (remove_commas r)
  | EmptyString => EmptyString
  end.

Definition digit_value (c : ascii) : Z := Z.of_nat (nat_of_ascii c) - 48.

Fixpoint digits_value (acc : Z) (s : string) : Z :=
  match s with
  | String c r => digits_value (10 * acc + digit_value c) r
  | EmptyString => acc
  end.

(** [parseInt(s)] on a string that starts with its digits (every argument
    the scripts pass is a run of digits): [None] is [NaN].  The result is
    an exact integer; a JavaScript number rounds it to a double, which
    changes no comparison with 50 or 100000 and no accepted value. *)
Definition parseInt (s : string) : option Z :=
  let d := take_while is_digit s in
  if is_empty d then None else Some (digits_value 0 d).

(** [parseFloat(s)] on a string over [[0-9.]]: the longest prefix that is
    a decimal literal, correctly rounded; [NaN] when it has no digit. *)
Definition parseFloat (s : string) : Float64.float :=
  let ip := take_while is_digit s in
  let fp := match drop_while is_digit s with
            | String "." r => take_while is_digit r
            | _ => EmptyString
            end in
  if is_empty ip && is_empty fp then S754_nan
  else Float64.of_decimal false (Z.to_N (digits_value 0 (ip ++ fp))) (String.length fp).

(** [/\$([\d,.]+)/] *)
Fixpoint match_price (s : string) : option string :=
  match s with
  | String c r =>
      if Ascii.eqb c "$" && negb (is_empty (take_while is_price_char r))
      then Some (take_while is_price_char r)
      else match_price r
  | EmptyString => None
  end.

(** [/(\d+)/] *)
Fixpoint match_digits (s : string) : option string :=
  match s with
  | String c r => if is_digit c then Some (take_while is_digit s) else match_digits r
  | EmptyString => None
  end.

(** [/(\d{2,}|\d+,\d+)\s*(?:units?|pcs?|cards?)?/i].  At the leftmost digit
    of a run the first alternative takes the whole run when it has two
    digits or more (the optional tail always matches); a single digit
    matches only through the second alternative, when a comma and a digit
    follow it. *)
Fixpoint match_quantity (s : string) : option string :=
  match s with
  | String c r =>
      if is_digit c then
        match r with
        | String c' r' =>
            if is_digit c' then Some (take_while is_digit s)
            else if is_comma c' && negb (is_empty (take_while is_digit r'))
                 then Some (String c (String c' (take_while is_digit r')))
                 else match_quantity r
        | EmptyString => None
        end
      else match_quantity r
  | EmptyString => None
  end.

End JS.

(* ===================================================================== *)
(** ** Insertion-ordered dictionaries and a stable sort *)
(* ===================================================================== *)

Module PyDict.
Section Dict.
Context {V : Type}.

Definition dict := list (string * V).

Fixpoint get (d : dict) (k : string) : option V :=
  match d with
  | [] => None
  | (k', v) :: r => if String.eqb k' k then Some v else get r k
  end.

(** [d[k] = v]: replaces the value in place, or appends a new entry. *)
Fixpoint set (d : dict) (k : string) (v : V) : dict :=
  match d with
  | [] => [(k, v)]
  | (k', v') :: r => if String.eqb k' k then (k', v) :: r else (k', v') :: set r k v
  end.

Definition keys (d : dict) : list string := map fst d.
Definition values (d : dict) : list V := map snd d.

(** [{key(x): x for x in l}] *)
Definition comprehension (key : V -> string) (l : list V) : dict :=
  fold_left (fun d x => set d (key x) x) l [].
End Dict.
Arguments dict V : clear implicits.
End PyDict.

Module PySort.
Section Sort.
Context {A : Type} (key : A -> Z).

Fixpoint insert (x : A) (l : list A) : list A :=
  match l with
  | [] => [x]
  | y :: r => if Z.leb (key x) (key y) then x :: l else y :: insert x r
  end.

Definition key_le (a b : A) : Prop := (key a <= key b)%Z.

(** [l.sort(key=key)]: ascending and stable. *)
Fixpoint sort (l : list A) : list A :=
  match l with
  | [] => []
  | x :: r => insert x (sort r)
  end.
End Sort.
End PySort.

(* ===================================================================== *)
(** ** The rendered page, as the scripts observe it *)
(* ===================================================================== *)

(** The identifier-bearing attributes of one DOM node: [getAttribute]
    returns [null] ([None]) for an absent attribute, [.id] is the empty
    string when the node has no id. *)
Record node := {
  data_id : option string;
  data_value : option string;
  node_id : string
}.

(** One element of [document.querySelectorAll('*')]: the number of its child
    elements, its [innerText] (empty when absent), its own node and its
    [parentElement] chain, nearest ancestor first. *)
Record element := {
  children_length : nat;
  innerText : string;
  self_node : node;
  ancestors : list node
}.

(** What the scripts of the scraper read from the current document:
    - [elements]: all elements, in document order;
    - [rows]: the [innerText] of every element selected by
      ['tr, .pricing-row, .quantity-row, [class*="price-row"]'];
    - [tables]: for every [table], the [innerText] of its [td] cells;
    - [main_price]: the [innerText] of the first element selected by
      ['.current-price, .product-price, [class*="price"]'], if any;
    - [evaluate_ok]: whether [page.evaluate] returns (a closed or crashed
      page makes it raise). *)
Record page := {
  elements : list element;
  rows : list string;
  tables : list (list string);
  main_price : option string;
  evaluate_ok : bool
}.

(** [about:blank], the page of a fresh browser context. *)
Definition blank_page : page :=
  {| elements := []; rows := []; tables := []; main_price := None; evaluate_ok := true |}.

(* ===================================================================== *)
(** ** Pricing extraction ([_extract_pricing]) *)
(* ===================================================================== *)

Module Pricing.
Import Float64.

(** An entry [{quantity, total_price}] pushed by the in-page script;
    [quantity] is [null] for the "current price" entry. *)
Record raw_price := {
  raw_quantity : option Z;
  raw_total : float
}.

(** [qty >= 50 && price > 0 && qty < 100000]; a [NaN] quantity ([None])
    fails every comparison. *)
Definition in_bounds (qty : option Z) (price : float) : bool :=
  match qty with
  | Some q => (50 <=? q)%Z && positive price && (q <? 100000)%Z
  | None => false
  end.

Definition push_if_in_bounds (qty : option Z) (price : float) : list raw_price :=
  if in_bounds qty price
  then [{| raw_quantity := qty; raw_total := price |}]
  else [].

(** First pass, one row: lines 239-253. *)
Definition scan_row (text : string) : list raw_price :=
  match JS.match_quantity text, JS.match_price text with
  | Some q, Some p =>
      push_if_in_bounds (JS.parseInt (JS.remove_commas q))
                        (JS.parseFloat (JS.remove_commas p))
  | _, _ => []
  end.

(** Second pass, the cells [i] and [i + 1]: lines 260-278. *)
Definition scan_cell_pair (qtyText priceText : string) : list raw_price :=
  if JS.is_empty qtyText || JS.is_empty priceText then []
  else
    match JS.match_digits qtyText, JS.match_price priceText with
    | Some q, Some p =>
        push_if_in_bounds (JS.parseInt q) (JS.parseFloat (JS.remove_commas p))
    | _, _ => []
    end.

(** [for (let i = 0; i < cells.length - 1; i++)] *)
Fixpoint scan_cells (cells : list string) : list raw_price :=
  match cells with
  | c :: ((c' :: _) as rest) => scan_cell_pair c c' ++ scan_cells rest
  | _ => []
  end.

(** The "current price" entry: lines 282-291. *)
Definition scan_main_price (mp : option string) : list raw_price :=
  match mp with
  | Some text =>
      match JS.match_price text with
      | Some p => [{| raw_quantity := None;
                      raw_total := JS.parseFloat (JS.remove_commas p) |}]
      | None => []
      end
  | None => []
  end.

(** The whole in-page script of [_extract_pricing]. *)
Definition pricing_script (pg : page) : list raw_price :=
  flat_map scan_row (rows pg)
  ++ flat_map scan_cells (tables pg)
  ++ scan_main_price (main_price pg).

Record money (A : Type) := {
  amount : A;
  currency : string
}.
Arguments amount {A} _.
Arguments currency {A} _.

Record price_tier := {
  quantity : option Z;
  unit_price : money (option float);
  total_price : money PyNum.number
}.

(** Python truthiness of [p['quantity']]: neither [None] nor [0]. *)
Definition truthy (q : option Z) : option Z :=
  match q with
  | Some 0%Z => None
  | _ => q
  end.

(** The dictionary appended at lines 301-312; [p['total_price']] is the
    Python number received for the total of the entry, an [int] when the
    total is a whole number. *)
Definition make_tier (p : raw_price) : price_tier :=
  let total := PyNum.of_js (raw_total p) in
  {| quantity := raw_quantity p;
     unit_price :=
       {| amount := match truthy (raw_quantity p) with
                    | Some q => Some (py_round (PyNum.truediv total q) 4)
                    | None => None
                    end;
          currency := "USD" |};
     total_price := {| amount := total; currency := "USD" |} |}.

(** The loop of lines 297-312, with its [seen] set and the list built so
    far. *)
Fixpoint dedupe (seen : gset Z) (pricing_data : list raw_price)
         (pricing : list price_tier) : list price_tier :=
  match pricing_data with
  | [] => pricing
  | p :: rest =>
      match truthy (raw_quantity p) with
      | Some q =>
          if decide (q ∈ seen) then dedupe seen rest pricing
          else dedupe ({[q]} ∪ seen) rest (pricing ++ [make_tier p])
      | None => dedupe seen rest pricing
      end
  end.

(** [x['quantity'] or 0] *)
Definition sort_key (t : price_tier) : Z :=
  match truthy (quantity t) with
  | Some q => q
  | None => 0
  end.

(** The Python part on the list the script returned. *)
Definition tiers_of (pricing_data : list raw_price) : list price_tier :=
  PySort.sort sort_key (dedupe ∅ pricing_data []).

(** Whether the entry [p] carries the (truthy) quantity [q]. *)
Definition has_quantity (q : Z) (p : raw_price) : bool :=
  match truthy (raw_quantity p) with
  | Some q' => (q' =? q)%Z
  | None => false
  end.

(** The first entry of the script's list with quantity [q]. *)
Definition first_seen (q : Z) (pricing_data : list raw_price) : option raw_price :=
  find (has_quantity q) pricing_data.

(** [page.evaluate]: [None] when it raises. *)
Definition evaluate_pricing (pg : page) : option (list raw_price) :=
  if evaluate_ok pg then Some (pricing_script pg) else None.

(** [_extract_pricing(page)]: an exception of [page.evaluate] is caught
    and the list, still empty, is returned. *)
Definition _extract_pricing (pg : page) : list price_tier :=
  match evaluate_pricing pg with
  | Some pricing_data => tiers_of pricing_data
  | None => []
  end.

End Pricing.

(* ===================================================================== *)
(** ** Option discovery ([_discover_options], [_get_predefined_options]) *)
(* ===================================================================== *)

Module Discovery.

(** [{'value': text, 'id': id}] *)
Record option_value := {
  value_text : string;
  value_id : string
}.

(** [{'name', 'key', 'spf_param', 'values'}] *)
Record option_group := {
  group_name : string;
  group_key : string;
  spf_param : string;
  group_values : list option_value
}.

(** *** The in-page script (lines 128-170) *)

Definition is_space (c : ascii) : bool :=
  let n := nat_of_ascii c in
  ((9 <=? n) && (n <=? 13) || (n =? 32) || (n =? 160))%nat.

Definition rev_string (s : string) : string :=
  string_of_list_ascii (rev (list_ascii_of_string s)).

(** [s.trim()] *)
Definition trim (s : string) : string :=
  rev_string (JS.drop_while is_space (rev_string (JS.drop_while is_space s))).

Definition lower_char (c : ascii) : ascii :=
  let n := nat_of_ascii c in
  if ((65 <=? n) && (n <=? 90)
      || (192 <=? n) && (n <=? 222) && negb (n =? 215))%nat
  then ascii_of_nat (n + 32) else c.

(** [s.toLowerCase()] *)
Fixpoint toLowerCase (s : string) : string :=
  match s with
  | String c r => String (lower_char c) (toLowerCase r)
  | EmptyString => EmptyString
  end.

(** [s.includes(sub)] *)
Fixpoint includes (s sub : string) : bool :=
  String.prefix sub s
  || match s with
     | String _ r => includes r sub
     | EmptyString => false
     end.

Definition double_quote : string := String (ascii_of_nat 34) EmptyString.
Definition single_quote : string := String (ascii_of_nat 39) EmptyString.

(** [keywords[spf_param] || []] *)
Definition keywords (param : string) : list string :=
  if String.eqb param "spf0" then ["Standard"; "Die Cut"; "Folded"; "Business Cards"]
  else if String.eqb param "spf1" then ["Rectangle"; "Square"; "Rounded"; "Corners"]
  else if String.eqb param "spf2" then ["x"; "in"; "inch"; double_quote; single_quote]
  else if String.eqb param "spf3" then ["pt"; "lb"; "Paper"; "Cardstock"; "Gloss"; "Matte"]
  else [].

Definition hasKeyword (param text : string) : bool :=
  existsb (fun kw => includes (toLowerCase text) (toLowerCase kw)) (keywords param).

Definition or_else (a : option string) (b : string) : string :=
  match a with
  | Some s => if JS.is_empty s then b else s
  | None => b
  end.

(** [getAttribute('data-id') || getAttribute('data-value') || id] *)
Definition identifier (n : node) : string :=
  or_else (data_id n) (or_else (data_value n) (node_id n)).

(** [/^\d+$/.test(s)] *)
Definition is_numeric (s : string) : bool :=
  negb (JS.is_empty s) && JS.all_chars JS.is_digit s.

(** A string matched by [^[0-9]+$], stated on its characters. *)
Definition digits_only (s : string) : Prop :=
  s <> EmptyString
  /\ Forall (fun c => (48 <= nat_of_ascii c <= 57)%nat) (list_ascii_of_string s).

Definition no_underscore (s : string) : Prop :=
  Forall (fun c => c <> "_"%char) (list_ascii_of_string s).

(** The loop [for (let i = 0; i < 3; i++)] over the element and its
    ancestors, with [steps] iterations left: the first numeric identifier
    met, if any. *)
Fixpoint walk (steps : nat) (chain : list node) : option string :=
  match steps, chain with
  | S steps', current :: parents =>
      if is_numeric (identifier current) then Some (identifier current)
      else walk steps' parents
  | _, _ => None
  end.

(** The body of [forEach] for one element. *)
Definition scan_element (param : string) (el : element) : list option_value :=
  if (children_length el =? 0)%nat && negb (JS.is_empty (innerText el)) then
    let text := trim (innerText el) in
    if (2 <? String.length text)%nat && (String.length text <? 100)%nat
       && hasKeyword param text
    then match walk 3 (self_node el :: ancestors el) with
         | Some i => [{| value_text := text; value_id := i |}]
         | None => []
         end
    else []
  else [].

(** The first of the element, its parent and its grandparent whose
    identifier is numeric. *)
Definition anchor (el : element) : option node :=
  find (fun n => is_numeric (identifier n)) (firstn 3 (self_node el :: ancestors el)).

Definition discover_script (param : string) (pg : page) : list option_value :=
  flat_map (scan_element param) (elements pg).

(** [page.evaluate]: [None] when it raises. *)
Definition evaluate_options (param : string) (pg : page) : option (list option_value) :=
  if evaluate_ok pg then Some (discover_script param pg) else None.

(** *** The Python part *)

Definition spf_names : list (string * (string * string)) :=
  [ ("spf0", ("Product Type", "product_type"));
    ("spf1", ("Shape", "shape"));
    ("spf2", ("Size", "size"));
    ("spf3", ("Material", "paper_stock")) ].

(** [f"{val['value']}_{val['id']}"] *)
Definition dedupe_key (v : option_value) : string :=
  value_text v ++ "_" ++ value_id v.

(** The loop of lines 173-178, with its [seen] set and the values
    appended so far. *)
Fixpoint dedupe_values (seen : gset string) (option_values : list option_value)
         (acc : list option_value) : list option_value :=
  match option_values with
  | [] => acc
  | val :: rest =>
      if decide (dedupe_key val ∈ seen) then dedupe_values seen rest acc
      else dedupe_values ({[dedupe_key val]} ∪ seen) rest (acc ++ [val])
  end.

(** One iteration of [for spf_param, info in spf_names.items()], up to the
    test of line 183; a raised [page.evaluate] leaves the values empty. *)
Definition discover_group (pg : page) (entry : string * (string * string)) : option_group :=
  let '(param, (name, key)) := entry in
  {| group_name := name;
     group_key := key;
     spf_param := param;
     group_values := match evaluate_options param pg with
                     | Some option_values => dedupe_values ∅ option_values []
                     | None => []
                     end |}.

Definition has_values (g : option_group) : bool :=
  match group_values g with [] => false | _ => true end.

(** [options] at line 185: the groups with at least one value. *)
Definition discovered (pg : page) : list option_group :=
  filter has_values (map (discover_group pg) spf_names).

(** [sum(len(o['values']) for o in options)] *)
Definition total_values (options : list option_group) : nat :=
  list_sum (map (fun o => List.length (group_values o)) options).

Definition _get_predefined_options : list option_group :=
  [ {| group_name := "Shape"; group_key := "shape"; spf_param := "spf1";
       group_values :=
         [ {| value_text := "Rectangle"; value_id := "1390" |};
           {| value_text := "Rectangle | Rounded Corners"; value_id := "1399" |} ] |};
    {| group_name := "Size"; group_key := "size"; spf_param := "spf2";
       group_values :=
         [ {| value_text := "2 x 3.5 in"; value_id := "1391" |};
           {| value_text := "2 x 2 in"; value_id := "1406" |} ] |};
    {| group_name := "Paper stock"; group_key := "paper_stock"; spf_param := "spf3";
       group_values :=
         [ {| value_text := "14pt Cardstock Gloss"; value_id := "1419" |};
           {| value_text := "14pt Cardstock Matte"; value_id := "1420" |};
           {| value_text := "14pt Cardstock High Gloss (UV)"; value_id := "1421" |} ] |} ].

(** The invariant of an axis: numeric identifiers, no value twice. *)
Definition well_formed_group (g : option_group) : Prop :=
  Forall (fun v => digits_only (value_id v)) (group_values g)
  /\ NoDup (group_values g).

(** The test of line 186. *)
Definition insufficient (options : list option_group) : bool :=
  (List.length options <? 2)%nat || (total_values options <? 4)%nat.

(** [_discover_options(page, base_url, current_params)]; the body reads
    neither [base_url] nor [current_params]. *)
Definition _discover_options (pg : page) : list option_group :=
  let options := discovered pg in
  if insufficient options then _get_predefined_options else options.

End Discovery.

(* ===================================================================== *)
(** ** Selection enumeration (lines 396-415 of [scrape]) *)
(* ===================================================================== *)

Module Enumerator.
Import Discovery.

(** An entry of [values_with_meta]: the value with its axis' key and
    query parameter. *)
Record item := {
  item_key : string;
  item_value : string;
  item_id : string;
  item_spf_param : string
}.

Definition values_with_meta (opt : option_group) : list item :=
  map (fun val => {| item_key := group_key opt;
                     item_value := value_text val;
                     item_id := value_id val;
                     item_spf_param := spf_param opt |})
      (group_values opt).

Definition non_empty {A : Type} (l : list A) : bool :=
  match l with [] => false | _ => true end.

(** [option_value_lists]: an axis without values is left out. *)
Definition option_value_lists (options : list option_group) : list (list item) :=
  filter non_empty (map values_with_meta options).

(** [itertools.product] applied to the lists: the rightmost list advances
    fastest; no list at all gives the single empty tuple. *)
Fixpoint product {A : Type} (lists : list (list A)) : list (list A) :=
  match lists with
  | [] => [[]]
  | l :: rest => flat_map (fun x => map (cons x) (product rest)) l
  end.

(** [all_combinations], line 409: the product when [option_value_lists]
    is not empty, else the empty list. *)
Definition all_combinations (options : list option_group) : list (list item) :=
  match option_value_lists options with
  | [] => []
  | lists => product lists
  end.

(** [{item['key']: item for item in combo}] *)
Definition selection_of (combo : list item) : PyDict.dict item :=
  PyDict.comprehension item_key combo.

(** The selections in the order the loop of line 414 visits them. *)
Definition selections (options : list option_group) : list (PyDict.dict item) :=
  map selection_of (all_combinations options).

(** The number of values of each axis that has any. *)
Definition axis_sizes (options : list option_group) : list nat :=
  filter (fun n => negb (n =? 0)%nat)
         (map (fun o => List.length (group_values o)) options).

Definition list_prod (l : list nat) : nat := fold_right Nat.mul 1%nat l.

End Enumerator.

(* ===================================================================== *)
(** ** Query strings and URLs ([urllib.parse]) *)
(* ===================================================================== *)

Module Url.
Local Open Scope string_scope.

Definition hex_digit (n : nat) : ascii :=
  if (n <? 10)%nat then ascii_of_nat (48 + n) else ascii_of_nat (55 + n).

(** ["%XX"], upper-case hexadecimal, for one byte. *)
Definition percent (byte : nat) : string :=
  String "%" (String (hex_digit (byte / 16)) (String (hex_digit (byte mod 16)) EmptyString)).

(** The characters [quote] never escapes: letters, digits and [_.-~]. *)
Definition always_safe (c : ascii) : bool :=
  let n := nat_of_ascii c in
  ((48 <=? n) && (n <=? 57) || (65 <=? n) && (n <=? 90) || (97 <=? n) && (n <=? 122)
   || (n =? 95) || (n =? 46) || (n =? 45) || (n =? 126))%nat.

(** One character of [quote_plus]: a space becomes [+], an unsafe
    character the escapes of its UTF-8 bytes. *)
Definition quote_char (c : ascii) : string :=
  let n := nat_of_ascii c in
  if always_safe c then String c EmptyString
  else if (n =? 32)%nat then "+"
  else if (n <? 128)%nat then percent n
  else percent (192 + n / 64) ++ percent (128 + n mod 64).

(** [quote_plus(s)] *)
Fixpoint quote_plus (s : string) : string :=
  match s with
  | String c r => quote_char c ++ quote_plus r
  | EmptyString => EmptyString
  end.

Definition encode_pair (kv : string * string) : string :=
  quote_plus (fst kv) ++ "=" ++ quote_plus (snd kv).

(** ['&'.join(l)] *)
Fixpoint join_amp (l : list string) : string :=
  match l with
  | [] => EmptyString
  | [x] => x
  | x :: r => x ++ "&" ++ join_amp r
  end.

(** [urlencode(params)] for a dictionary of strings. *)
Definition urlencode (params : PyDict.dict string) : string :=
  join_amp (map encode_pair params).

(** The six components of [urlparse]. *)
Record ParseResult := {
  scheme : string;
  netloc : string;
  path : string;
  params : string;
  query : string;
  fragment : string
}.

Definition uses_netloc : list string :=
  [ ""; "ftp"; "http"; "gopher"; "nntp"; "telnet"; "imap"; "wais"; "file"; "mms";
    "https"; "shttp"; "snews"; "prospero"; "rtsp"; "rtspu"; "rsync"; "svn";
    "svn+ssh"; "sftp"; "nfs"; "git"; "git+ssh"; "ws"; "wss" ].

Definition starts_with (p s : string) : bool := String.prefix p s.

(** [urlunparse((scheme, netloc, path, params, query, fragment))], as
    [urlunsplit] assembles it. *)
Definition urlunparse (r : ParseResult) : string :=
  let url := if JS.is_empty (params r) then path r else path r ++ ";" ++ params r in
  let url :=
    if negb (JS.is_empty (netloc r))
       || (negb (JS.is_empty (scheme r))
           && existsb (String.eqb (scheme r)) uses_netloc
           && negb (starts_with "//" url))
    then "//" ++ netloc r
         ++ (if negb (JS.is_empty url) && negb (starts_with "/" url)
             then "/" ++ url else url)
    else url in
  let url := if JS.is_empty (scheme r) then url else scheme r ++ ":" ++ url in
  let url := if JS.is_empty (query r) then url else url ++ "?" ++ query r in
  if JS.is_empty (fragment r) then url else url ++ "#" ++ fragment r.

(** [url.split('?')[0]] *)
Fixpoint before_question (url : string) : string :=
  match url with
  | String c r => if Ascii.eqb c "?" then EmptyString else String c (before_question r)
  | EmptyString => EmptyString
  end.

(** *** Reading a query string back

    The scraper never parses the URLs it builds; the reader below, which
    splits at [&] and at the first [=] of each field and undoes
    [quote_plus], states what a query string holds. *)

Definition hex_value (c : ascii) : nat :=
  let n := nat_of_ascii c in if (n <? 58)%nat then (n - 48)%nat else (n - 55)%nat.

Fixpoint unquote_plus (s : string) : string :=
  match s with
  | EmptyString => EmptyString
  | String c r =>
      if Ascii.eqb c "+" then String " " (unquote_plus r)
      else if Ascii.eqb c "%" then
        match r with
        | String h (String l r1) =>
            let b := (16 * hex_value h + hex_value l)%nat in
            if (b <? 128)%nat then String (ascii_of_nat b) (unquote_plus r1)
            else match r1 with
                 | String _ (String h2 (String l2 r2)) =>
                     let b2 := (16 * hex_value h2 + hex_value l2)%nat in
                     String (ascii_of_nat ((b - 192) * 64 + (b2 - 128)))
                            (unquote_plus r2)
                 | _ => String c (unquote_plus r)
                 end
        | _ => String c (unquote_plus r)
        end
      else String c (unquote_plus r)
  end.

Fixpoint split_on (sep : ascii) (s : string) : list string :=
  match s with
  | EmptyString => [EmptyString]
  | String c r =>
      if Ascii.eqb c sep then EmptyString :: split_on sep r
      else match split_on sep r with
           | f :: fs => String c f :: fs
           | [] => [String c EmptyString]
           end
  end.

Fixpoint before_char (sep : ascii) (s : string) : string :=
  match s with
  | String c r => if Ascii.eqb c sep then EmptyString else String c (before_char sep r)
  | EmptyString => EmptyString
  end.

Fixpoint after_char (sep : ascii) (s : string) : string :=
  match s with
  | String c r => if Ascii.eqb c sep then r else after_char sep r
  | EmptyString => EmptyString
  end.

Definition read_field (f : string) : string * string :=
  (unquote_plus (before_char "=" f), unquote_plus (after_char "=" f)).

Definition read_query (q : string) : PyDict.dict string :=
  if JS.is_empty q then [] else map read_field (split_on "&" q).

(** The string [s] does not hold the character [sep]. *)
Definition plain (sep : ascii) (s : string) : Prop :=
  JS.all_chars (fun x => negb (Ascii.eqb x sep)) s = true.

(** The parsing side of [urllib.parse], which the scraper only applies to
    the product URL: [urlparse], and [parse_qs] as the insertion-ordered
    dictionary it returns.  Both are parameters of the model. *)
Section Parsing.
Variable urlparse : string -> ParseResult.
Variable parse_qs : string -> PyDict.dict (list string).

(** [{k: v[0] if v else '' for k, v in params.items()}] *)
Definition _parse_url_params (url : string) : PyDict.dict string :=
  map (fun kv => (fst kv, match snd kv with v0 :: _ => v0 | [] => EmptyString end))
      (parse_qs (query (urlparse url))).

Definition _build_url_with_params (base_url : string) (ps : PyDict.dict string) : string :=
  let parsed := urlparse base_url in
  urlunparse {| scheme := scheme parsed; netloc := netloc parsed; path := path parsed;
                params := EmptyString; query := urlencode ps; fragment := EmptyString |}.
End Parsing.

End Url.

(* ===================================================================== *)
(** ** The browser session and the scrape ([_scrape_variant], [scrape]) *)
(* ===================================================================== *)

Module Scraper.
Import Discovery Enumerator Pricing.

Definition DEFAULT_PRODUCT_URL : string :=
  "https://us.bizay.com/en-us/business-cards-2?id=443495438&spf0=1411&spf1=1390&spf2=1391&spf3=1419&productGroupId=1386&indexManagementId=3".

(** What a run does to the outside: navigations and [time.sleep] pauses
    (in milliseconds), oldest first. *)
Inductive event :=
| Goto (url : string)
| Sleep (ms : Z).

(** The answer of the site to one [page.goto]: whether the call returns
    ([nav_ok]) or raises, and the document the page shows afterwards. *)
Record nav_result := {
  nav_ok : bool;
  nav_page : page
}.

(** The site: the answer to the [n]-th navigation of the run (counted from
    0) when it asks for [url]. *)
Definition site := nat -> string -> nav_result.

(** The browser session: what the run did so far, how many navigations it
    made, and the document now loaded.  [page.wait_for_timeout] and
    [_dismiss_notifications], which catches its own exceptions, are taken to
    return and to leave what the scripts read as the navigation left it;
    [browser.close()] and the printing are left out. *)
Record browser := {
  log : list event;
  navigations : nat;
  current : page
}.

Definition new_page : browser :=
  {| log := []; navigations := 0; current := blank_page |}.

Definition goto (web : site) (url : string) (b : browser) : bool * browser :=
  let r := web (navigations b) url in
  (nav_ok r,
   {| log := log b ++ [Goto url];
      navigations := S (navigations b);
      current := nav_page r |}).

Definition sleep (ms : Z) (b : browser) : browser :=
  {| log := log b ++ [Sleep ms];
     navigations := navigations b;
     current := current b |}.

(** A variant of the result. *)
Record variant := {
  sku : option string;
  available : bool;
  selection : PyDict.dict option_value;
  pricing : list price_tier
}.

(** An entry of ["options"] in the result: the group without its query
    parameter. *)
Record formatted_option := {
  name : string;
  key : string;
  values : list option_value
}.

(** The result of [scrape], without its timestamp and its product
    metadata, which depend on nothing modelled here. *)
Record matrix_record := {
  source_url : string;
  options : list formatted_option;
  variants : list variant
}.

Inductive outcome (A : Type) :=
| Returned (a : A)
| Raised.
Arguments Returned {A} a.
Arguments Raised {A}.

Definition is_nil {A : Type} (l : list A) : bool :=
  match l with [] => true | _ => false end.

Section Run.
Variable urlparse : string -> Url.ParseResult.
Variable parse_qs : string -> PyDict.dict (list string).
Variable web : site.

(** Lines 324-327: the base parameters overlaid with the identifiers of
    the selection (every item carries the key ['spf_param']). *)
Definition requote_params (base_params : PyDict.dict string)
           (sel : PyDict.dict item) : PyDict.dict string :=
  fold_left (fun ps kv => PyDict.set ps (item_spf_param (snd kv)) (item_id (snd kv)))
            sel base_params.

(** [variant_url], line 329. *)
Definition variant_url (base_url : string) (base_params : PyDict.dict string)
           (sel : PyDict.dict item) : string :=
  Url._build_url_with_params urlparse base_url (requote_params base_params sel).

(** [_scrape_variant]: [None] when the navigation raises. *)
Definition _scrape_variant (base_url : string) (base_params : PyDict.dict string)
           (sel : PyDict.dict item) (b : browser) : option variant * browser :=
  let (ok, b') := goto web (variant_url base_url base_params sel) b in
  if ok then
    let tiers := _extract_pricing (current b') in
    (Some {| sku := None;
             available := negb (is_nil tiers);
             selection := map (fun kv => (fst kv,
                                 {| value_text := item_value (snd kv);
                                    value_id := item_id (snd kv) |})) sel;
             pricing := tiers |},
     b')
  else (None, b').

(** The loop of lines 414-424 over the remaining combinations, from the
    variants gathered so far. *)
Fixpoint scrape_loop (base_url : string) (url_params : PyDict.dict string)
         (combos : list (list item)) (acc : list variant) (b : browser)
  : list variant * browser :=
  match combos with
  | [] => (acc, b)
  | combo :: rest =>
      let (v, b1) := _scrape_variant base_url url_params (selection_of combo) b in
      let acc' := match v with Some x => acc ++ [x] | None => acc end in
      scrape_loop base_url url_params rest acc' (sleep 500 b1)
  end.

(** The variant of lines 430-435. *)
Definition base_variant (tiers : list price_tier) : variant :=
  {| sku := None; available := true; selection := []; pricing := tiers |}.

(** [product_url or DEFAULT_PRODUCT_URL] *)
Definition effective_url (product_url : option string) : string :=
  match product_url with
  | Some u => if JS.is_empty u then DEFAULT_PRODUCT_URL else u
  | None => DEFAULT_PRODUCT_URL
  end.

(** Lines 426-435: the base configuration, when no variant was
    gathered. *)
Definition base_fallback (vs : list variant) (b : browser) : list variant :=
  if is_nil vs then
    let tiers := _extract_pricing (current b) in
    if is_nil tiers then vs
    else vs ++ [base_variant tiers]
  else vs.

Definition format_option (opt : option_group) : formatted_option :=
  {| name := group_name opt; key := group_key opt; values := group_values opt |}.

(** [scrape(product_url)], with the browser as it leaves it.  A raising
    [page.goto] of the product page is not caught. *)
Definition scrape (product_url : option string) : outcome matrix_record * browser :=
  let url := effective_url product_url in
  let url_params := Url._parse_url_params urlparse parse_qs url in
  let base_url := Url.before_question url in
  let (ok, b0) := goto web url new_page in
  if ok then
    let opts := _discover_options (current b0) in
    let (vs, b1) := scrape_loop base_url url_params (all_combinations opts) [] b0 in
    (Returned {| source_url := url;
                 options := map format_option opts;
                 variants := base_fallback vs b1 |},
     b1)
  else (Raised, b0).

(** The page load of the sibling [AshleyFurnitureScraper.scrape] (lines
    201-212 of [src/ashley_scraper/scraper.py]): up to [max_retries]
    attempts, two seconds apart; [remaining] attempts are left. *)
Fixpoint goto_with_retries (url : string) (remaining : nat) (b : browser)
  : bool * browser :=
  match remaining with
  | O => (true, b)
  | S r =>
      let (ok, b') := goto web url b in
      if ok then (true, b')
      else match r with
           | O => (false, b')
           | S _ => goto_with_retries url r (sleep 2000 b')
           end
  end.

Definition max_retries : nat := 3.

(** *** Vocabulary of the statements about a run *)

(** The query parameters the axes of a selection control. *)
Definition axis_params (sel : PyDict.dict item) : list string :=
  map (fun kv => item_spf_param (snd kv)) sel.

Definition is_axis_param (sel : PyDict.dict item) (k : string) : bool :=
  existsb (String.eqb k) (axis_params sel).

(** The variant a selection yields when its navigation is the [n]-th of the
    run: none when that navigation raises. *)
Definition variant_at (n : nat) (base_url : string) (base_params : PyDict.dict string)
           (sel : PyDict.dict item) : option variant :=
  fst (_scrape_variant base_url base_params sel
         {| log := []; navigations := n; current := blank_page |}).

(** What [_scrape_variant] returns for each combination, the first one
    being navigated as the [n]-th navigation of the run. *)
Fixpoint outcomes (n : nat) (base_url : string) (base_params : PyDict.dict string)
         (combos : list (list item)) : list (option variant) :=
  match combos with
  | [] => []
  | combo :: rest =>
      variant_at n base_url base_params (selection_of combo)
      :: outcomes (S n) base_url base_params rest
  end.

Fixpoint somes {A : Type} (l : list (option A)) : list A :=
  match l with
  | [] => []
  | Some x :: r => x :: somes r
  | None :: r => somes r
  end.

(** The variants of the combinations whose navigation returns. *)
Definition gathered (n : nat) (base_url : string) (base_params : PyDict.dict string)
           (combos : list (list item)) : list variant :=
  somes (outcomes n base_url base_params combos).

Definition is_none {A : Type} (o : option A) : bool :=
  match o with None => true | Some _ => false end.

(** Every combination's [_scrape_variant] returns [None]. *)
Definition all_fail (n : nat) (base_url : string) (base_params : PyDict.dict string)
           (combos : list (list item)) : bool :=
  forallb is_none (outcomes n base_url base_params combos).

(** What the loop adds to the log: one navigation and one pause for each
    combination. *)
Definition visits (base_url : string) (base_params : PyDict.dict string)
           (combos : list (list item)) : list event :=
  flat_map (fun combo => [Goto (variant_url base_url base_params (selection_of combo));
                          Sleep 500]) combos.
End Run.

End Scraper.

(* ===================================================================== *)
(** ** Concrete pages and inputs used by the examples below *)
(* ===================================================================== *)

Module Examples.
Import Float64 Pricing Discovery.

Definition priced (q : Z) (total : float) : raw_price :=
  {| raw_quantity := Some q; raw_total := total |}.

(** The tier of quantity [q], unit amount [unit] and total [total]. *)
Definition tier (q : Z) (unit : float) (total : PyNum.number) : price_tier :=
  {| quantity := Some q;
     unit_price := {| amount := Some unit; currency := "USD" |};
     total_price := {| amount := total; currency := "USD" |} |}.

Definition page_of_rows (texts : list string) : page :=
  {| elements := []; rows := texts; tables := []; main_price := None;
     evaluate_ok := true |}.

(** [(100, $50), (100, $999), (250, $110)] *)
Definition duplicate_rows : list raw_price :=
  [ priced 100 (of_Z 50); priced 100 (of_Z 999); priced 250 (of_Z 110) ].

Definition duplicate_rows_page : page :=
  page_of_rows [ "100 cards $50"; "100 cards $999"; "250 cards $110.0" ].

(** Quantities 10 and 150000, and a zero amount, in both layouts. *)
Definition out_of_range_page : page :=
  {| elements := [];
     rows := [ "10 cards $5.00"; "150000 cards $77.00"; "500 cards $0.00";
               "250 cards $110.0" ];
     tables := [ [ "10"; "$5.00"; "150000"; "$77.00"; "500"; "$0.00" ] ];
     main_price := None;
     evaluate_ok := true |}.

Definition plain_node (i : string) : node :=
  {| data_id := None; data_value := None; node_id := i |}.

Definition leaf (text : string) (self : node) (parents : list node) : element :=
  {| children_length := 0; innerText := text; self_node := self; ancestors := parents |}.

Definition page_of_elements (els : list element) : page :=
  {| elements := els; rows := []; tables := []; main_price := None;
     evaluate_ok := true |}.

(** Three axes with four values: a shape anchored at its grandparent, two
    sizes, one material; a second shape is anchored too far up, a third
    has a non-numeric identifier, and the first shape occurs twice. *)
Definition rich_page : page :=
  page_of_elements
    [ leaf "  Rectangle " (plain_node "")
           [ {| data_id := Some "abc"; data_value := None; node_id := "77" |};
             {| data_id := None; data_value := Some "1390"; node_id := "" |} ];
      leaf "Square" (plain_node "")
           [ plain_node ""; plain_node ""; plain_node "5" ];
      leaf "Rounded" (plain_node "r-12") [];
      leaf "Rectangle"
           {| data_id := Some ""; data_value := Some "1390"; node_id := "zz" |} [];
      leaf "2 x 3.5 in" (plain_node "1391") [];
      leaf "2 x 2 in" (plain_node "1392") [];
      leaf "14PT Cardstock" (plain_node "1400") [] ].

(** One axis only, with five values. *)
Definition one_axis_page : page :=
  page_of_elements
    [ leaf "Paper A" (plain_node "1") []; leaf "Paper B" (plain_node "2") [];
      leaf "Paper C" (plain_node "3") []; leaf "Paper D" (plain_node "4") [];
      leaf "Paper E" (plain_node "5") [] ].

(** Two axes with three values in all. *)
Definition three_values_page : page :=
  page_of_elements
    [ leaf "Square" (plain_node "1") []; leaf "Paper A" (plain_node "2") [];
      leaf "Paper B" (plain_node "3") [] ].

(** An axis that discovery would have left without values. *)
Definition empty_axis : option_group :=
  {| group_name := "Finish"; group_key := "finish"; spf_param := "spf4";
     group_values := [] |}.

(** Axes of sizes 2, 0 and 3. *)
Definition with_empty_axis : list option_group :=
  [ {| group_name := "Shape"; group_key := "shape"; spf_param := "spf1";
       group_values := [ {| value_text := "Rectangle"; value_id := "1390" |};
                         {| value_text := "Square"; value_id := "1399" |} ] |};
    empty_axis;
    {| group_name := "Paper stock"; group_key := "paper_stock"; spf_param := "spf3";
       group_values := [ {| value_text := "Gloss"; value_id := "1419" |};
                         {| value_text := "Matte"; value_id := "1420" |};
                         {| value_text := "UV"; value_id := "1421" |} ] |} ].

(** The components and the parameters of the default product URL. *)
Definition bizay_urlparse (url : string) : Url.ParseResult :=
  {| Url.scheme := "https"; Url.netloc := "us.bizay.com";
     Url.path := "/en-us/business-cards-2"; Url.params := "";
     Url.query := "id=443495438&spf0=1411&spf1=1390&spf2=1391&spf3=1419&productGroupId=1386&indexManagementId=3";
     Url.fragment := "" |}.

Definition bizay_parse_qs (q : string) : PyDict.dict (list string) :=
  [ ("id", ["443495438"]); ("spf0", ["1411"]); ("spf1", ["1390"]); ("spf2", ["1391"]);
    ("spf3", ["1419"]); ("productGroupId", ["1386"]); ("indexManagementId", ["3"]) ].

Definition default_params : PyDict.dict string :=
  Url._parse_url_params bizay_urlparse bizay_parse_qs Scraper.DEFAULT_PRODUCT_URL.

(** The last combination of the predefined table: rounded corners,
    2 x 2 in, high gloss. *)
Definition last_combination : list Enumerator.item :=
  [ {| Enumerator.item_key := "shape"; Enumerator.item_value := "Rectangle | Rounded Corners";
       Enumerator.item_id := "1399"; Enumerator.item_spf_param := "spf1" |};
    {| Enumerator.item_key := "size"; Enumerator.item_value := "2 x 2 in";
       Enumerator.item_id := "1406"; Enumerator.item_spf_param := "spf2" |};
    {| Enumerator.item_key := "paper_stock"; Enumerator.item_value := "14pt Cardstock High Gloss (UV)";
       Enumerator.item_id := "1421"; Enumerator.item_spf_param := "spf3" |} ].

Definition last_selection : PyDict.dict Enumerator.item :=
  Enumerator.selection_of last_combination.

(** A page that shows a price table and nothing to discover options
    from. *)
Definition priced_page : page :=
  page_of_rows [ "100 cards $50"; "250 cards $110.0" ].

Definition ok (pg : page) : Scraper.nav_result :=
  {| Scraper.nav_ok := true; Scraper.nav_page := pg |}.

Definition failed (pg : page) : Scraper.nav_result :=
  {| Scraper.nav_ok := false; Scraper.nav_page := pg |}.

(** The first navigation of the run times out; every later one returns. *)
Definition flaky_site : Scraper.site :=
  fun n _ => match n with O => failed blank_page | _ => ok priced_page end.

(** The product page loads and every variant navigation raises, leaving a
    page with prices. *)
Definition variants_down_site : Scraper.site :=
  fun n _ => match n with O => ok priced_page | _ => failed priced_page end.

(** The product page loads; the third variant navigation raises, the other
    variant pages load with their prices. *)
Definition one_variant_down_site : Scraper.site :=
  fun n _ => match n with 3%nat => failed blank_page | _ => ok priced_page end.

(** The product page loads; the first variant page loads without a price
    table; every later navigation raises on a page that shows prices. *)
Definition unpriced_variant_site : Scraper.site :=
  fun n _ => match n with
             | O => ok blank_page
             | 1%nat => ok blank_page
             | _ => failed priced_page
             end.

(** A page whose only price is its "current price" element. *)
Definition current_price_page : page :=
  {| elements := []; rows := []; tables := [];
     main_price := Some "Total: $25.00";
     evaluate_ok := true |}.

End Examples.

(* ===================================================================== *)
(** ** Shapes of strings *)
(* ===================================================================== *)

Module Shape.
Import JS.

(** A string of digits only. *)
Definition digits (s : string) : Prop := all_chars is_digit s = true.

(** A string that does not begin with a character of the class [p]. *)
Definition stops (p : ascii -> bool) (s : string) : Prop :=
  match s with
  | String c _ => p c = false
  | EmptyString => True
  end.

End Shape.

(* ===================================================================== *)
(** ** Lists of names *)
(* ===================================================================== *)

Module Occurrence.

(** The elements of [l], each once, in the order of their first
    occurrence. *)
Fixpoint distinct (l : list string) : list string :=
  match l with
  | [] => []
  | x :: r => x :: filter (fun y => negb (String.eqb y x)) (distinct r)
  end.

(** The name [k] is not among [present]. *)
Definition lacks (present : list string) (k : string) : bool :=
  negb (existsb (String.eqb k) present).

End Occurrence.

(* ===================================================================== *)
(** ** Python strings and JavaScript sets *)
(* ===================================================================== *)

Module PyStr.

(** [c.isspace()], which is also the class [\s] of [re] on [str]. *)
Definition isspace (c : ascii) : bool :=
  let n := nat_of_ascii c in
  ((9 <=? n) && (n <=? 13) || (28 <=? n) && (n <=? 32) || (n =? 133) || (n =? 160))%nat.

(** [s.strip()] *)
Definition strip (s : string) : string :=
  Discovery.rev_string
    (JS.drop_while isspace (Discovery.rev_string (JS.drop_while isspace s))).

(** [str(n)] for an integer. *)
Definition str (n : Z) : string :=
  DecimalString.NilZero.string_of_int (Z.to_int n).

(** [sys.int_info.default_max_str_digits] *)
Definition max_str_digits : nat := 4300.

(** [int(s)] for a string of digits: [None] where it raises [ValueError],
    that is for more digits than [max_str_digits]. *)
Definition int (s : string) : option Z :=
  if (String.length s <=? max_str_digits)%nat then Some (JS.digits_value 0 s) else None.

(** [sub in s] *)
Definition contains (sub s : string) : bool := Discovery.includes s sub.

(** The remainder of [s] after its prefix [p], if it starts with [p]. *)
Fixpoint after_prefix (p s : string) : option string :=
  match p, s with
  | EmptyString, _ => Some s
  | String a p', String b s' => if Ascii.eqb a b then after_prefix p' s' else None
  | String _ _, EmptyString => None
  end.

(** The pattern that [here] stands for matches at no position of [pre] in
    the string [pre ++ rest]. *)
Fixpoint unmatched (here : string -> option string) (pre rest : string) : bool :=
  match pre with
  | EmptyString => true
  | String _ r =>
      match here (pre ++ rest)%string with
      | Some _ => false
      | None => unmatched here r rest
      end
  end.

(** [re.search]: the result of the leftmost match, [here] telling what the
    pattern matches at the start of a string. *)
Fixpoint search (here : string -> option string) (s : string) : option string :=
  match here s with
  | Some m => Some m
  | None => match s with
            | String _ r => search here r
            | EmptyString => None
            end
  end.

Fixpoint insert (x : string) (l : list string) : list string :=
  match l with
  | [] => [x]
  | y :: r => if String.leb x y then x :: l else y :: insert x r
  end.

(** [sorted(l)] for strings, which compare by code points. *)
Fixpoint sorted (l : list string) : list string :=
  match l with
  | [] => []
  | x :: r => insert x (sorted r)
  end.

End PyStr.

Module JSSet.

(** [[...new Set(l)]] and [Array.from(new Set(l))]: the elements in the
    order of their first occurrence; [seen] holds those already met. *)
Fixpoint set_order (seen : gset string) (l : list string) : list string :=
  match l with
  | [] => []
  | x :: r => if decide (x ∈ seen) then set_order seen r
              else x :: set_order ({[x]} ∪ seen) r
  end.

End JSSet.

(* ===================================================================== *)
(** ** Product metadata ([_extract_product_metadata]) *)
(* ===================================================================== *)

Module Metadata.
Import Discovery.

(** An [img] element selected by
    ['.product-image img, .gallery img, [class*="product"] img']: its
    resolved [src] (empty when it has none) and its [naturalWidth]. *)
Record img := {
  src : string;
  naturalWidth : Z
}.

(** What [_extract_product_metadata] reads from the page, in the order it
    reads it; [None] stands for a call that raises:
    - [title_visible]: [is_visible] of the first element selected by
      ['h1, .product-title, .page-title'];
    - [title_inner_text]: its [inner_text()];
    - [gallery]: the selected [img] elements, in document order;
    - [body_inner_text]: [document.body.innerText]. *)
Record view := {
  title_visible : option bool;
  title_inner_text : option string;
  gallery : option (list img);
  body_inner_text : option string
}.

(** *** The images script (lines 80-88) *)

(** [img.src && !img.src.includes('data:') && img.naturalWidth > 50] *)
Definition keep_img (i : img) : bool :=
  negb (JS.is_empty (src i)) && negb (includes (src i) "data:")
  && (50 <? naturalWidth i)%Z.

Definition images_script (imgs : list img) : list string :=
  firstn 5 (JSSet.set_order ∅ (map src (filter keep_img imgs))).

(** *** The unit-of-measure script (lines 93-97) *)

(** One alternative [w s?] of the pattern, matched without regard to letter
    case at the start of [s]: the text matched. *)
Definition try_word (w s : string) : option string :=
  if String.prefix w (toLowerCase s) then
    let n := String.length w in
    match String.get n s with
    | Some c => if Ascii.eqb (lower_char c) "s"
                then Some (String.substring 0 (S n) s)
                else Some (String.substring 0 n s)
    | None => Some (String.substring 0 n s)
    end
  else None.

(** [(cards?|units?|pieces?)] at the start of [s]. *)
Definition word_at (s : string) : option string :=
  match try_word "card" s with
  | Some m => Some m
  | None => match try_word "unit" s with
            | Some m => Some m
            | None => try_word "piece" s
            end
  end.

(** The second group of the leftmost match of
    [/(\d+)\s*(cards?|units?|pieces?)/i]: after a run of digits and any
    white space, one of the words. *)
Fixpoint match_uom (s : string) : option string :=
  match s with
  | String c r =>
      if JS.is_digit c then
        match word_at (JS.drop_while is_space (JS.drop_while JS.is_digit s)) with
        | Some m => Some m
        | None => match_uom r
        end
      else match_uom r
  | EmptyString => None
  end.

(** [s.replace(/s$/, '')] *)
Fixpoint strip_final_s (s : string) : string :=
  match s with
  | EmptyString => EmptyString
  | String c EmptyString => if Ascii.eqb c "s" then EmptyString else s
  | String c r => String c (strip_final_s r)
  end.

(** [match ? match[2].toLowerCase().replace(/s$/, '') : null] *)
Definition uom_script (body : string) : option string :=
  match match_uom body with
  | Some m => Some (strip_final_s (toLowerCase m))
  | None => None
  end.

(** The units the script can return. *)
Definition unit_words : list string := ["card"; "unit"; "piece"].

(** *** The Python part *)

(** The dictionary the function returns; [product_id] is its key ["id"]. *)
Record metadata := {
  product_id : option string;
  product_group_id : option string;
  title : option string;
  subtitle : option string;
  description : option string;
  currency : string;
  image_urls : list string;
  base_uom : option string
}.

(** The dictionary of lines 63-72. *)
Definition initial (url_params : PyDict.dict string) : metadata :=
  {| product_id := PyDict.get url_params "id";
     product_group_id := PyDict.get url_params "productGroupId";
     title := None; subtitle := None; description := None;
     currency := "USD"; image_urls := []; base_uom := None |}.

Definition with_title (m : metadata) (t : string) : metadata :=
  {| product_id := product_id m; product_group_id := product_group_id m;
     title := Some t; subtitle := subtitle m; description := description m;
     currency := currency m; image_urls := image_urls m; base_uom := base_uom m |}.

Definition with_images (m : metadata) (l : list string) : metadata :=
  {| product_id := product_id m; product_group_id := product_group_id m;
     title := title m; subtitle := subtitle m; description := description m;
     currency := currency m; image_urls := l; base_uom := base_uom m |}.

Definition with_uom (m : metadata) (u : string) : metadata :=
  {| product_id := product_id m; product_group_id := product_group_id m;
     title := title m; subtitle := subtitle m; description := description m;
     currency := currency m; image_urls := image_urls m; base_uom := Some u |}.

(** The title step (lines 75-77): [None] when a call raises. *)
Definition read_title (v : view) (m : metadata) : option metadata :=
  match title_visible v with
  | Some true => match title_inner_text v with
                 | Some t => Some (with_title m (PyStr.strip t))
                 | None => None
                 end
  | Some false => Some m
  | None => None
  end.

(** [_extract_product_metadata(page, url_params)]: the first call that
    raises ends the [try] block, and the dictionary filled so far is
    returned; the unit is [uom_match or 'unit']. *)
Definition _extract_product_metadata (v : view) (url_params : PyDict.dict string)
  : metadata :=
  let m0 := initial url_params in
  match read_title v m0 with
  | None => m0
  | Some m1 =>
      match gallery v with
      | None => m1
      | Some imgs =>
          let m2 := with_images m1 (images_script imgs) in
          match body_inner_text v with
          | None => m2
          | Some body =>
              with_uom m2 (Discovery.or_else (uom_script body) "unit")
          end
      end
  end.

End Metadata.

(* ===================================================================== *)
(** ** The category scraper ([src/ashley_scraper/scraper.py]) *)
(* ===================================================================== *)

Module Ashley.
Import Url.
Local Open Scope string_scope.

Definition BASE_URL : string := "https://www.ashleyfurniture.com".
Definition DEFAULT_CATEGORY_URL : string :=
  "https://www.ashleyfurniture.com/c/furniture/bedroom/beds/".
Definition PAGE_SIZE : Z := 30.

(** An element selected by ['[data-url], [data-href], [data-swatch-url]']:
    the three attributes, [None] where [getAttribute] returns [null]. *)
Record swatch := {
  data_url : option string;
  data_href : option string;
  data_swatch_url : option string
}.

(** A category page, as the scraper observes it:
    - [pagination]: the [innerText] of the first ['.pagination'] element;
    - [content]: [page.content()], [None] when the call raises;
    - [anchors]: the [href] property of the ['a[href*="/p/"]'] elements, in
      document order;
    - [swatches]: the elements that carry a swatch attribute, in document
      order;
    - [count_ok], [links_ok], [swatches_ok]: whether the [page.evaluate]
      call of the pagination script, of the product-link script and of the
      swatch script returns. *)
Record listing := {
  pagination : option string;
  content : option string;
  anchors : list string;
  swatches : list swatch;
  count_ok : bool;
  links_ok : bool;
  swatches_ok : bool
}.

Definition blank_listing : listing :=
  {| pagination := None; content := Some EmptyString; anchors := []; swatches := [];
     count_ok := true; links_ok := true; swatches_ok := true |}.

(** *** [_extract_product_count] (lines 92-118) *)

(** [of\s+(\d+)] at the start of [s]: group 1. *)
Definition of_here (s : string) : option string :=
  match PyStr.after_prefix "of" s with
  | Some after =>
      let d := JS.take_while JS.is_digit (JS.drop_while PyStr.isspace after) in
      if negb (JS.is_empty (JS.take_while PyStr.isspace after)) && negb (JS.is_empty d)
      then Some d else None
  | None => None
  end.

(** ["totalResults"\s*:\s*(\d+)] at the start of [s]: group 1. *)
Definition total_results_here (s : string) : option string :=
  match PyStr.after_prefix
          (Discovery.double_quote ++ "totalResults" ++ Discovery.double_quote) s with
  | Some after =>
      match PyStr.after_prefix ":" (JS.drop_while PyStr.isspace after) with
      | Some after_colon =>
          let d := JS.take_while JS.is_digit (JS.drop_while PyStr.isspace after_colon) in
          if JS.is_empty d then None else Some d
      | None => None
      end
  | None => None
  end.

(** [Results|Products|Items] at the start of [s], in any letter case. *)
Definition label_here (s : string) : bool :=
  let l := Discovery.toLowerCase s in
  String.prefix "results" l || String.prefix "products" l || String.prefix "items" l.

(** [(\d+)\s*(?:Results|Products|Items)] with [re.IGNORECASE] at the start
    of [s]: group 1. *)
Definition results_here (s : string) : option string :=
  let d := JS.take_while JS.is_digit s in
  if negb (JS.is_empty d)
     && label_here (JS.drop_while PyStr.isspace (JS.drop_while JS.is_digit s))
  then Some d else None.

(** The pagination script: [pag ? pag.innerText : '']. *)
Definition pagination_text (pg : listing) : string :=
  match pagination pg with
  | Some t => t
  | None => EmptyString
  end.

Definition pagination_count (pg : listing) : option string :=
  if JS.is_empty (pagination_text pg) then None
  else PyStr.search of_here (JS.remove_commas (pagination_text pg)).

(** [return int(match.group(1))] inside the [try] block: 0 when [int]
    raises. *)
Definition int_or_zero (d : string) : Z :=
  match PyStr.int d with
  | Some n => n
  | None => 0
  end.

(** [_extract_product_count(page)]: an exception in the [try] block gives
    0. *)
Definition _extract_product_count (pg : listing) : Z :=
  if count_ok pg then
    match pagination_count pg with
    | Some d => int_or_zero d
    | None =>
        match content pg with
        | Some c =>
            match PyStr.search total_results_here c with
            | Some d => int_or_zero d
            | None =>
                match PyStr.search results_here c with
                | Some d => int_or_zero d
                | None => 0
                end
            end
        | None => 0
        end
    end
  else 0.

(** *** The two link scripts (lines 129-139 and 149-159) *)

(** [a.href && !a.href.includes('javascript:')], then the set as an
    array. *)
Definition product_links (pg : listing) : list string :=
  JSSet.set_order ∅
    (filter (fun h => negb (JS.is_empty h) && negb (Discovery.includes h "javascript:"))
            (anchors pg)).

Definition truthy (a : option string) : bool :=
  match a with
  | Some s => negb (JS.is_empty s)
  | None => false
  end.

(** [getAttribute('data-url') || getAttribute('data-href') ||
    getAttribute('data-swatch-url')] *)
Definition swatch_url (w : swatch) : option string :=
  if truthy (data_url w) then data_url w
  else if truthy (data_href w) then data_href w
  else data_swatch_url w.

(** [url && url.includes('/p/')] *)
Definition swatch_links (pg : listing) : list string :=
  flat_map (fun w => match swatch_url w with
                     | Some u => if negb (JS.is_empty u) && Discovery.includes u "/p/"
                                 then [u] else []
                     | None => []
                     end)
           (swatches pg).

(** *** The scraper object *)

(** [self.product_urls] and [self.variant_urls]. *)
Record scraper := {
  product_urls : gset string;
  variant_urls : gset string
}.

(** The sets of [__init__]. *)
Definition __init__ : scraper := {| product_urls := ∅; variant_urls := ∅ |}.

Definition add_product (u : string) (s : scraper) : scraper :=
  {| product_urls := {[u]} ∪ product_urls s; variant_urls := variant_urls s |}.

Definition add_variant (u : string) (s : scraper) : scraper :=
  {| product_urls := product_urls s; variant_urls := {[u]} ∪ variant_urls s |}.

(** The result of [scrape]; ["collected_at"] is left out. *)
Module Result.
Record stats := {
  total_urls : nat;
  base_products : nat;
  variant_urls : nat
}.
Record t := {
  source : string;
  product_urls : list string;
  statistics : stats
}.
End Result.

(** The answer of the site to one [page.goto]: whether the call returns,
    and the page shown afterwards. *)
Record nav_result := {
  nav_ok : bool;
  nav_page : listing
}.

(** The site: the answer to the [n]-th navigation of the run (counted from
    0) when it asks for [url]. *)
Definition site := nat -> string -> nav_result.

(** The browser session, as for the product scraper:
    [page.wait_for_timeout], [page.wait_for_selector], whose exception is
    caught, and [_dismiss_modals], which catches its own, are taken to
    return and to leave what the scripts read as the navigation left it. *)
Record session := {
  log : list Scraper.event;
  navigations : nat;
  current : listing
}.

Definition new_page : session :=
  {| log := []; navigations := 0; current := blank_listing |}.

Definition goto (web : site) (url : string) (b : session) : bool * session :=
  let r := web (navigations b) url in
  (nav_ok r,
   {| log := log b ++ [Scraper.Goto url];
      navigations := S (navigations b);
      current := nav_page r |}).

Definition sleep (ms : Z) (b : session) : session :=
  {| log := log b ++ [Scraper.Sleep ms];
     navigations := navigations b;
     current := current b |}.

(** [urlencode(params, doseq=True)] for a dictionary of lists of strings. *)
Definition urlencode_doseq (ps : PyDict.dict (list string)) : string :=
  join_amp (flat_map (fun kv => map (fun v => encode_pair (fst kv, v)) (snd kv)) ps).

(** [if url.startswith('/'): url = f"{self.BASE_URL}{url}"] *)
Definition absolute (url : string) : string :=
  if String.prefix "/" url then BASE_URL ++ url else url.

Section Run.
(** The parsing side of [urllib.parse], applied to the links of the pages:
    [urlparse], [None] where it raises [ValueError], and [parse_qs] as the
    insertion-ordered dictionary it returns. *)
Variable urlparse : string -> option ParseResult.
Variable parse_qs : string -> PyDict.dict (list string).
Variable web : site.

(** [{k: v for k, v in params.items() if k.startswith('dwvar_')}] *)
Definition variant_params (q : string) : PyDict.dict (list string) :=
  filter (fun kv => String.prefix "dwvar_" (fst kv)) (parse_qs q).

(** [_normalize_url(url)]; [None] when [urlparse] raises. *)
Definition _normalize_url (url : string) : option string :=
  match urlparse url with
  | Some parsed =>
      if PyStr.contains "dwvar_" url then
        let vp := variant_params (query parsed) in
        if Scraper.is_nil vp then Some (BASE_URL ++ path parsed)
        else Some (BASE_URL ++ path parsed ++ "?" ++ urlencode_doseq vp)
      else Some (BASE_URL ++ path parsed)
  | None => None
  end.

(** The loop of lines 141-146; the flag tells whether it ran to its end,
    the sets are as the loop left them. *)
Fixpoint file_product_links (links : list string) (s : scraper) : bool * scraper :=
  match links with
  | [] => (true, s)
  | url :: r =>
      match _normalize_url url with
      | Some normalized =>
          file_product_links r
            (if PyStr.contains "dwvar_" normalized then add_variant normalized s
             else add_product normalized s)
      | None => (false, s)
      end
  end.

(** The loop of lines 161-165. *)
Fixpoint file_swatch_links (links : list string) (s : scraper) : bool * scraper :=
  match links with
  | [] => (true, s)
  | url :: r =>
      match _normalize_url (absolute url) with
      | Some normalized => file_swatch_links r (add_variant normalized s)
      | None => (false, s)
      end
  end.

(** [_extract_urls_from_page(page)]: the first call that raises ends the
    [try] block. *)
Definition _extract_urls_from_page (pg : listing) (s : scraper) : scraper :=
  if links_ok pg then
    let (ok, s1) := file_product_links (product_links pg) s in
    if ok && swatches_ok pg then snd (file_swatch_links (swatch_links pg) s1)
    else s1
  else s.

(** The page load of lines 201-212: up to [max_retries] attempts, two
    seconds apart; [remaining] attempts are left. *)
Fixpoint goto_with_retries (url : string) (remaining : nat) (b : session)
  : bool * session :=
  match remaining with
  | O => (true, b)
  | S r =>
      let (ok, b') := goto web url b in
      if ok then (true, b')
      else match r with
           | O => (false, b')
           | S _ => goto_with_retries url r (sleep 2000 b')
           end
  end.

Definition max_retries : nat := 3.

(** [(total_products + self.PAGE_SIZE - 1) // self.PAGE_SIZE], after the
    default of lines 219-220. *)
Definition total_pages (total_products : Z) : Z :=
  let total_products := if (total_products =? 0)%Z then 500%Z else total_products in
  ((total_products + PAGE_SIZE - 1) / PAGE_SIZE)%Z.

(** [range(1, total_pages)] *)
Definition page_numbers (pages : Z) : list Z :=
  map Z.of_nat (seq 1 (Z.to_nat pages - 1)).

(** [f"{url}?start={start}&sz={self.PAGE_SIZE}"] *)
Definition paginated_url (url : string) (page_num : Z) : string :=
  url ++ "?start=" ++ PyStr.str (page_num * PAGE_SIZE) ++ "&sz=" ++ PyStr.str PAGE_SIZE.

(** One round of the loop of lines 228-246. *)
Definition scrape_page (url : string) (st : scraper * session) (page_num : Z)
  : scraper * session :=
  let (ok, b) := goto web (paginated_url url page_num) (snd st) in
  if ok then (_extract_urls_from_page (current b) (fst st), sleep 1500 b)
  else (fst st, sleep 2000 b).

(** [category_url or self.DEFAULT_CATEGORY_URL] *)
Definition effective_url (category_url : option string) : string :=
  Discovery.or_else category_url DEFAULT_CATEGORY_URL.

(** The result of lines 253-264. *)
Definition result_of (url : string) (s : scraper) : Result.t :=
  let all_urls := PyStr.sorted (base.elements (product_urls s ∪ variant_urls s)) in
  {| Result.source := url;
     Result.product_urls := all_urls;
     Result.statistics :=
       {| Result.total_urls := List.length all_urls;
          Result.base_products := size (product_urls s);
          Result.variant_urls := size (variant_urls s) |} |}.

(** [scrape(category_url)] on a scraper object [s]: the outcome, the object
    and the session as the call leaves them. *)
Definition scrape (s : scraper) (category_url : option string)
  : Scraper.outcome Result.t * scraper * session :=
  let url := effective_url category_url in
  let (ok, b0) := goto_with_retries url max_retries new_page in
  if ok then
    let pages := total_pages (_extract_product_count (current b0)) in
    let s1 := _extract_urls_from_page (current b0) s in
    let (s2, b1) := fold_left (scrape_page url) (page_numbers pages) (s1, b0) in
    (Scraper.Returned (result_of url s2), s2, b1)
  else (Scraper.Raised, s, b0).

End Run.

(** *** Vocabulary of the statements about a run *)

(** The addresses a log asks for, oldest first. *)
Definition requested (l : list Scraper.event) : list string :=
  flat_map (fun e => match e with
                     | Scraper.Goto u => [u]
                     | Scraper.Sleep _ => []
                     end) l.

(** The number of products the page plan is made for. *)
Definition planned_products (found : Z) : Z :=
  if (found =? 0)%Z then 500%Z else found.

(** The sets of [s'] hold those of [s]; what they hold beside begins with
    [BASE_URL], and among the product URLs has no ["dwvar_"]. *)
Definition extends (s s' : scraper) : Prop :=
  product_urls s ⊆ product_urls s'
  /\ variant_urls s ⊆ variant_urls s'
  /\ (forall u, u ∈ product_urls s' ->
                 u ∈ product_urls s
                 \/ (String.prefix BASE_URL u = true /\ PyStr.contains "dwvar_" u = false))
  /\ (forall u, u ∈ variant_urls s' ->
                 u ∈ variant_urls s \/ String.prefix BASE_URL u = true).

(** A product link of a page: the address of one of its anchors, not empty
    and without ["javascript:"]. *)
Definition is_product_link (pg : listing) (href : string) : Prop :=
  In href (anchors pg) /\ href <> EmptyString
  /\ Discovery.includes href "javascript:" = false.

(** A swatch link of a page: the first non-empty swatch attribute of one of
    its elements, when it holds ["/p/"]. *)
Definition is_swatch_link (pg : listing) (link : string) : Prop :=
  exists w, In w (swatches pg) /\ swatch_url w = Some link
            /\ link <> EmptyString /\ Discovery.includes link "/p/" = true.

(** The pairs of a dictionary of lists, as [urlencode] with [doseq]
    writes them. *)
Definition pairs (ps : PyDict.dict (list string)) : PyDict.dict string :=
  flat_map (fun kv => map (fun v => (fst kv, v)) (snd kv)) ps.

End Ashley.

Module AshleyExamples.
Import Ashley.

Definition variant_link : string :=
  "https://www.ashleyfurniture.com/p/bed/B100.html?dwvar_B100_color=Brown&cgid=beds#top".

(** The components and the parameters of [variant_link]. *)
Definition link_urlparse (url : string) : option Url.ParseResult :=
  Some {| Url.scheme := "https"; Url.netloc := "www.ashleyfurniture.com";
          Url.path := "/p/bed/B100.html"; Url.params := "";
          Url.query := "dwvar_B100_color=Brown&cgid=beds"; Url.fragment := "top" |}.

Definition link_parse_qs (q : string) : PyDict.dict (list string) :=
  [ ("dwvar_B100_color", ["Brown"]); ("cgid", ["beds"]) ].

(** A category page that announces 1,234 products and links one variant,
    as a product link and as a swatch link. *)
Definition counted_listing : listing :=
  {| pagination := Some "Showing 1 - 30 of 1,234 Results";
     content := Some "<html></html>";
     anchors := [variant_link];
     swatches := [ {| data_url := None; data_href := Some "/p/bed/B100.html";
                      data_swatch_url := None |} ];
     count_ok := true; links_ok := true; swatches_ok := true |}.

(** A category page without pagination whose content announces 1,234
    results. *)
Definition uncounted_listing : listing :=
  {| pagination := None;
     content := Some "<h1>Beds 2024</h1><p>Showing 1,234 Results</p>";
     anchors := []; swatches := [];
     count_ok := true; links_ok := true; swatches_ok := true |}.

(** A page with a repeated product link, a script link and two swatches,
    one of which leads to no product. *)
Definition linked_listing : listing :=
  {| pagination := None; content := Some EmptyString;
     anchors := [variant_link; "javascript:void(0)"; variant_link];
     swatches := [ {| data_url := Some EmptyString; data_href := Some "/p/bed/B100.html";
                      data_swatch_url := None |};
                   {| data_url := Some "/c/beds/"; data_href := None;
                      data_swatch_url := None |} ];
     count_ok := true; links_ok := true; swatches_ok := true |}.

End AshleyExamples.


(* ===================================================================== *)
(** * Properties *)
(* ===================================================================== *)

(** Membership in the [seen] sets, which are built from singletons and
    unions only. *)
Ltac seen_solver :=
  rewrite ?elem_of_union, ?elem_of_singleton in *;
  intuition (subst; try congruence; eauto).

Module StringFacts.
Local Open Scope string_scope.

Lemma append_nil_l (s : string) : "" ++ s = s.
Proof. reflexivity. Qed.

Lemma append_cons c (s t : string) : String c s ++ t = String c (s ++ t).
Proof. reflexivity. Qed.

Lemma append_nil_r (s : string) : s ++ "" = s.
Proof.
  induction s as [|x s IH]; [reflexivity|]. rewrite append_cons. now rewrite IH.
Qed.

Lemma append_assoc (a b c : string) : (a ++ b) ++ c = a ++ (b ++ c).
Proof.
  induction a as [|x a IH]; [reflexivity|]. rewrite !append_cons. now rewrite IH.
Qed.

End StringFacts.

Module ListFacts.

Lemma Forall_flat_map {A B} (P : B -> Prop) (f : A -> list B) l :
  (forall x, Forall P (f x)) -> Forall P (flat_map f l).
Proof.
  intros H. induction l; simpl; [constructor|]. apply Forall_app. auto.
Qed.

Lemma StronglySorted_lt_NoDup l : StronglySorted Z.lt l -> NoDup l.
Proof.
  induction 1 as [|x l Hs IH Hall]; constructor; [|exact IH].
  intros Hin. rewrite List.Forall_forall in Hall. specialize (Hall x Hin). lia.
Qed.

Lemma NoDup_map_Some {A} (l : list A) : NoDup l -> NoDup (map Some l).
Proof.
  induction 1 as [|x l Hx Hnd IH]; simpl; constructor; [|exact IH].
  intros Hin. apply in_map_iff in Hin as (y & Hy & Hin). congruence.
Qed.

Lemma NoDup_map_inv' {A B} (f : A -> B) l : NoDup (map f l) -> NoDup l.
Proof.
  induction l as [|x l IH]; simpl; intros H; [constructor|].
  inversion H; subst. constructor; [|auto].
  intros Hin. apply H2. now apply in_map.
Qed.

Lemma NoDup_map_injective_on {A B} (f : A -> B) (l : list A) :
  (forall x y, In x l -> In y l -> f x = f y -> x = y) ->
  NoDup l -> NoDup (map f l).
Proof.
  intros Hinj Hnd. induction Hnd as [|x l Hx Hnd IH]; simpl; constructor.
  - intros Hin. apply in_map_iff in Hin as (y & Hy & Hin).
    assert (y = x) by (apply Hinj; simpl; auto). now subst.
  - apply IH. intros; apply Hinj; simpl; auto.
Qed.

Lemma NoDup_map_filter {A B} (f : A -> B) (keep : A -> bool) (l : list A) :
  NoDup (map f l) -> NoDup (map f (filter keep l)).
Proof.
  induction l as [|x r IH]; simpl; intros H; [constructor|].
  inversion H as [|? ? Hn Hnd]; subst.
  destruct (keep x); simpl; [|auto].
  constructor; [|auto]. intros Hin. apply Hn.
  apply in_map_iff in Hin as (y & Hy & Hin). apply filter_In in Hin as [Hin _].
  apply in_map_iff. eauto.
Qed.
End ListFacts.
Module PySortFacts.
Import PySort.
Section Facts.
Context {A : Type} (key : A -> Z).

Lemma insert_perm x l : Permutation (insert key x l) (x :: l).
Proof.
  induction l as [|y r IH]; simpl; [reflexivity|].
  destruct (Z.leb (key x) (key y)); [reflexivity|].
  rewrite IH. apply perm_swap.
Qed.

Lemma sort_perm l : Permutation (sort key l) l.
Proof.
  induction l as [|x r IH]; simpl; [constructor|].
  rewrite insert_perm. now constructor.
Qed.

Lemma insert_sorted x l :
  StronglySorted (key_le key) l -> StronglySorted (key_le key) (insert key x l).
Proof.
  induction 1 as [|y r Hs IH Hall]; simpl.
  - repeat constructor.
  - destruct (Z.leb (key x) (key y)) eqn:E.
    + apply Z.leb_le in E. constructor; [now constructor|].
      constructor; [exact E|].
      eapply List.Forall_impl; [|exact Hall].
      unfold key_le; intros; lia.
    + apply Z.leb_gt in E. constructor; [exact IH|].
      eapply Permutation_Forall; [symmetry; apply insert_perm|].
      constructor; [unfold key_le; lia|exact Hall].
Qed.

Lemma sort_sorted l : StronglySorted (key_le key) (sort key l).
Proof.
  induction l; simpl; [constructor|now apply insert_sorted].
Qed.

Lemma sort_In x l : In x (sort key l) <-> In x l.
Proof.
  split; apply Permutation_in; [|symmetry]; apply sort_perm.
Qed.

Lemma sort_Forall (P : A -> Prop) l : Forall P l -> Forall P (sort key l).
Proof.
  intros H. eapply Permutation_Forall; [symmetry; apply sort_perm|exact H].
Qed.

(** With pairwise distinct keys the order is strict. *)
Lemma sort_strict l :
  NoDup (map key l) -> StronglySorted Z.lt (map key (sort key l)).
Proof.
  intros Hnd.
  assert (Hnd' : NoDup (map key (sort key l))).
  { eapply Permutation_NoDup; [|exact Hnd].
    apply Permutation_map. symmetry. apply sort_perm. }
  pose proof (sort_sorted l) as Hs.
  induction Hs as [|y r Hs IH Hall]; simpl; [constructor|].
  inversion Hnd' as [|? ? Hnotin Hnd'']; subst.
  constructor; [now apply IH|].
  rewrite List.Forall_map. rewrite List.Forall_forall in Hall |- *.
  intros z Hz. specialize (Hall z Hz). unfold key_le in Hall.
  assert (key y <> key z) by (intros E; apply Hnotin; rewrite E; now apply in_map).
  lia.
Qed.
End Facts.
End PySortFacts.

Module PyNumFacts.
Import Float64 PyNum.

Lemma shortest_digits_pos (e : nat) (v : Z) : 0 < v -> 0 < shortest_digits e v.
Proof.
  intros Hv. induction e as [|e IH]; [exact Hv|].
  cbn [shortest_digits].
  set (p := 10 ^ Z.of_nat (S e)).
  assert (Hp : 0 < p) by (apply Z.pow_pos_nonneg; lia).
  assert (Hlo : p <= v -> 0 < v / p * p).
  { intros H. assert (1 <= v / p) by (apply Z.div_le_lower_bound; lia). nia. }
  destruct (Z.leb_spec p v) as [Hle|Hgt]; cbn [andb]; [|exact IH].
  specialize (Hlo Hle).
  destruct (SFeqb (of_Z (v / p * p)) (of_Z v));
    destruct (SFeqb (of_Z (v / p * p + p)) (of_Z v)); cbn [andb].
  - destruct (Z.compare _ _); [destruct (Z.even (v / p))| |]; lia.
  - exact Hlo.
  - lia.
  - exact IH.
Qed.

Lemma integral_pos (m : BinNums.positive) (e v : Z) : integral m e = Some v -> 0 < v.
Proof.
  unfold integral. destruct e as [|p|p].
  - intros [= <-]. lia.
  - intros [= <-]. pose proof (Z.pow_pos_nonneg 2 (Zpos p)). lia.
  - destruct (Z.eqb_spec (Zpos m mod 2 ^ Zpos p) 0) as [H0|]; [|discriminate].
    intros [= <-]. assert (Hp : 0 < 2 ^ Zpos p) by (apply Z.pow_pos_nonneg; lia).
    pose proof (Z.div_mod (Zpos m) (2 ^ Zpos p) ltac:(lia)) as Hd.
    rewrite H0 in Hd. nia.
Qed.

(** A positive JavaScript number arrives as a positive Python number. *)
Lemma of_js_positive (x : float) :
  Float64.positive x = true -> PyNum.positive (of_js x) = true.
Proof.
  destruct x as [[|]|[|]| |[|] m e]; try discriminate; try (intros _; reflexivity).
  intros _. unfold of_js. destruct (integral m e) as [v|] eqn:E; [|reflexivity].
  destruct (Z.ltb v (10 ^ 21)); [|reflexivity].
  cbn [PyNum.positive]. apply Z.ltb_lt. apply shortest_digits_pos.
  now apply integral_pos in E.
Qed.

End PyNumFacts.

Module PricingFacts.
Import Float64 Pricing ListFacts.

Lemma truthy_Some q z : truthy q = Some z -> q = Some z /\ z <> 0.
Proof.
  destruct q as [[| |]|]; simpl; intros H; inversion H; subst; split; congruence.
Qed.

(** The tier built from an entry with a truthy quantity. *)
Lemma make_tier_truthy p q :
  truthy (raw_quantity p) = Some q ->
  quantity (make_tier p) = Some q
  /\ sort_key (make_tier p) = q
  /\ amount (unit_price (make_tier p))
     = Some (py_round (PyNum.truediv (PyNum.of_js (raw_total p)) q) 4)
  /\ amount (total_price (make_tier p)) = PyNum.of_js (raw_total p).
Proof.
  intros H. unfold sort_key, make_tier; simpl. rewrite H.
  apply truthy_Some in H as [-> _]. auto.
Qed.

Lemma dedupe_acc data : forall seen acc,
  dedupe seen data acc = acc ++ dedupe seen data [].
Proof.
  induction data as [|p rest IH]; intros seen acc; simpl.
  - now rewrite app_nil_r.
  - destruct (truthy (raw_quantity p)) as [q|]; [|apply IH].
    destruct (decide (q ∈ seen)); [apply IH|].
    rewrite (IH _ (acc ++ [make_tier p])), (IH _ ([] ++ [make_tier p])).
    now rewrite <- app_assoc.
Qed.

(** One step of the loop, on the list it produces. *)
Lemma dedupe_cons seen p rest :
  dedupe seen (p :: rest) [] =
    match truthy (raw_quantity p) with
    | Some q => if decide (q ∈ seen) then dedupe seen rest []
                else make_tier p :: dedupe ({[q]} ∪ seen) rest []
    | None => dedupe seen rest []
    end.
Proof.
  simpl. destruct (truthy (raw_quantity p)) as [q|]; [|reflexivity].
  destruct (decide (q ∈ seen)); [reflexivity|].
  now rewrite dedupe_acc.
Qed.

(** A tier of the result is the tier of the first entry carrying its
    quantity, and that quantity was not seen before. *)
Lemma dedupe_In data : forall seen t,
  In t (dedupe seen data []) <->
  exists q p, (q ∉ seen) /\ first_seen q data = Some p /\ t = make_tier p.
Proof.
  unfold first_seen.
  induction data as [|p0 rest IH]; intros seen t.
  - simpl. split; [tauto|]. intros (q & p & _ & H & _). discriminate.
  - rewrite dedupe_cons. simpl find. unfold has_quantity at 1.
    destruct (truthy (raw_quantity p0)) as [q0|] eqn:E0.
    + destruct (decide (q0 ∈ seen)) as [Hin|Hnin].
      * rewrite IH. split; intros (q & p & Hq & Hf & Ht); exists q, p.
        -- destruct (Z.eqb_spec q0 q); [subst; contradiction|auto].
        -- destruct (Z.eqb_spec q0 q); [subst; contradiction|auto].
      * simpl. rewrite IH. split.
        -- intros [<-|(q & p & Hq & Hf & Ht)].
           ++ exists q0, p0. rewrite Z.eqb_refl. auto.
           ++ exists q, p. destruct (Z.eqb_spec q0 q); [subst; seen_solver|].
              split; [seen_solver|auto].
        -- intros (q & p & Hq & Hf & Ht).
           destruct (Z.eqb_spec q0 q) as [->|Hne].
           ++ left. congruence.
           ++ right. exists q, p. split; [seen_solver|auto].
    + apply IH.
Qed.

Lemma first_seen_truthy q data p :
  first_seen q data = Some p -> In p data /\ truthy (raw_quantity p) = Some q.
Proof.
  unfold first_seen. intros H. apply find_some in H as [Hin Hq]. split; [exact Hin|].
  unfold has_quantity in Hq. destruct (truthy (raw_quantity p)); [|discriminate].
  apply Z.eqb_eq in Hq. now subst.
Qed.

(** The sort keys of the result are pairwise distinct and new. *)
Lemma dedupe_keys data : forall seen,
  NoDup (map sort_key (dedupe seen data []))
  /\ Forall (fun t => sort_key t ∉ seen) (dedupe seen data []).
Proof.
  induction data as [|p0 rest IH]; intros seen.
  - simpl. split; constructor.
  - rewrite dedupe_cons.
    destruct (truthy (raw_quantity p0)) as [q0|] eqn:E0; [|apply IH].
    destruct (decide (q0 ∈ seen)) as [Hin|Hnin]; [apply IH|].
    destruct (IH ({[q0]} ∪ seen)) as [Hnd Hall].
    destruct (make_tier_truthy _ _ E0) as (_ & Hk & _).
    split.
    + simpl. constructor; [|exact Hnd].
      rewrite Hk. intros Hq. apply in_map_iff in Hq as (t & Ht & Hint).
      rewrite List.Forall_forall in Hall. specialize (Hall t Hint). seen_solver.
    + constructor; [now rewrite Hk|].
      eapply List.Forall_impl; [|exact Hall]. simpl. intros t Ht. seen_solver.
Qed.

(** Every tier of [tiers_of] comes from the first entry with its
    quantity. *)
Lemma tiers_of_In data t :
  In t (tiers_of data) <->
  exists q p, first_seen q data = Some p /\ t = make_tier p.
Proof.
  unfold tiers_of. rewrite PySortFacts.sort_In, dedupe_In.
  split; intros (q & p & H); exists q, p; [tauto|].
  split; [apply not_elem_of_empty|tauto].
Qed.

Lemma tiers_of_shape data :
  Forall (fun t => exists q p,
              first_seen q data = Some p /\ In p data /\ t = make_tier p
              /\ quantity t = Some q /\ sort_key t = q /\ q <> 0) (tiers_of data).
Proof.
  apply List.Forall_forall. intros t Ht.
  apply tiers_of_In in Ht as (q & p & Hf & ->).
  destruct (first_seen_truthy _ _ _ Hf) as [Hin Hq].
  destruct (make_tier_truthy _ _ Hq) as (H1 & H2 & _).
  exists q, p. repeat split; auto. now apply truthy_Some in Hq.
Qed.

Lemma tiers_of_sorted data :
  StronglySorted Z.lt (map sort_key (tiers_of data)).
Proof.
  unfold tiers_of. apply PySortFacts.sort_strict. apply dedupe_keys.
Qed.

Lemma quantity_sort_key data :
  map quantity (tiers_of data) = map Some (map sort_key (tiers_of data)).
Proof.
  rewrite map_map. apply map_ext_in. intros t Ht.
  pose proof (tiers_of_shape data) as H. rewrite List.Forall_forall in H.
  destruct (H t Ht) as (q & p & _ & _ & _ & Hq & Hk & _). congruence.
Qed.

(** Entries accepted by the two scanning passes are within the bounds. *)
Lemma push_if_in_bounds_ok qty price :
  Forall (fun p => in_bounds (raw_quantity p) (raw_total p) = true)
         (push_if_in_bounds qty price).
Proof.
  unfold push_if_in_bounds. destruct (in_bounds qty price) eqn:E; repeat constructor.
  exact E.
Qed.

Lemma scan_row_ok text :
  Forall (fun p => in_bounds (raw_quantity p) (raw_total p) = true) (scan_row text).
Proof.
  unfold scan_row.
  destruct (JS.match_quantity text); [|constructor].
  destruct (JS.match_price text); [|constructor].
  apply push_if_in_bounds_ok.
Qed.

Lemma scan_cells_ok cells :
  Forall (fun p => in_bounds (raw_quantity p) (raw_total p) = true) (scan_cells cells).
Proof.
  induction cells as [|c rest IH]; [constructor|].
  destruct rest as [|c' rest']; [constructor|].
  change (scan_cells (c :: c' :: rest'))
    with (scan_cell_pair c c' ++ scan_cells (c' :: rest')).
  apply Forall_app. split; [|exact IH].
  unfold scan_cell_pair.
  destruct (JS.is_empty c || JS.is_empty c'); [constructor|].
  destruct (JS.match_digits c); [|constructor].
  destruct (JS.match_price c'); [|constructor].
  apply push_if_in_bounds_ok.
Qed.

Lemma passes_ok pg :
  Forall (fun p => in_bounds (raw_quantity p) (raw_total p) = true)
         (flat_map scan_row (rows pg) ++ flat_map scan_cells (tables pg)).
Proof.
  apply Forall_app. split; apply Forall_flat_map; [apply scan_row_ok|apply scan_cells_ok].
Qed.

(** Every entry of the script is within the bounds or has no quantity. *)
Lemma pricing_script_ok pg :
  Forall (fun p => in_bounds (raw_quantity p) (raw_total p) = true
                   \/ raw_quantity p = None) (pricing_script pg).
Proof.
  unfold pricing_script. rewrite app_assoc. apply Forall_app. split.
  - eapply List.Forall_impl; [|apply passes_ok]. simpl. auto.
  - unfold scan_main_price. destruct (main_price pg); [|constructor].
    destruct (JS.match_price s); [|constructor].
    constructor; [simpl; auto|constructor].
Qed.

Lemma in_bounds_true q price :
  in_bounds (Some q) price = true -> 50 <= q < 100000 /\ positive price = true.
Proof.
  unfold in_bounds. rewrite !andb_true_iff, Z.leb_le, Z.ltb_lt. intros [[H1 H2] H3]. auto.
Qed.

(** Rounding half to even picks a nearest integer. *)
Lemma div_half_even_nearest n d :
  0 < d -> 2 * Z.abs (div_half_even n d * d - n) <= d.
Proof.
  intros Hd. unfold div_half_even.
  pose proof (Z.div_mod n d ltac:(lia)) as Hdm.
  pose proof (Z.mod_pos_bound n d Hd) as Hb.
  destruct (Z.compare_spec (2 * (n mod d)) d); [destruct (Z.even (n / d))| |]; nia.
Qed.

(** On a tie, rounding half to even picks the even integer. *)
Lemma div_half_even_tie n d :
  0 < d -> 2 * Z.abs (div_half_even n d * d - n) = d ->
  Z.even (div_half_even n d) = true.
Proof.
  intros Hd. unfold div_half_even.
  pose proof (Z.div_mod n d ltac:(lia)) as Hdm.
  pose proof (Z.mod_pos_bound n d Hd) as Hb.
  destruct (Z.compare_spec (2 * (n mod d)) d) as [E|E|E].
  - intros _. destruct (Z.even (n / d)) eqn:Ev; [exact Ev|].
    rewrite Z.even_add, Ev. reflexivity.
  - intros H. exfalso. nia.
  - intros H. exfalso. nia.
Qed.

(** [round(x, ndigits)] of a finite [x = m * 2^-p] is the double nearest to
    [n / 10^ndigits], [n] being an integer nearest to [x * 10^ndigits]. *)
Lemma py_round_nearest s m p ndigits :
  let scaled := Zpos m * 10 ^ Z.of_nat ndigits in
  let n := div_half_even scaled (2 ^ Zpos p) in
  py_round (S754_finite s m (Zneg p)) ndigits = of_decimal s (Z.to_N n) ndigits
  /\ 2 * Z.abs (n * 2 ^ Zpos p - scaled) <= 2 ^ Zpos p.
Proof.
  intros scaled n. split; [reflexivity|].
  apply div_half_even_nearest. apply Z.pow_pos_nonneg; lia.
Qed.

(** [round(x, ndigits)] of a finite [x = m * 2^e]: the double nearest to
    [n / 10^ndigits], where [n] is the integer nearest to
    [x * 10^ndigits], the even one of two. *)
Lemma py_round_spec s m e ndigits :
  let den := match e with Zneg p => 2 ^ Zpos p | _ => 1 end in
  let num := match e with
             | Zneg _ => Zpos m * 10 ^ Z.of_nat ndigits
             | _ => Zpos m * 10 ^ Z.of_nat ndigits * 2 ^ e
             end in
  exists n : Z,
    py_round (S754_finite s m e) ndigits = of_decimal s (Z.to_N n) ndigits
    /\ 0 <= n
    /\ 2 * Z.abs (n * den - num) <= den
    /\ (2 * Z.abs (n * den - num) = den -> Z.even n = true).
Proof.
  assert (H10 : 0 < 10 ^ Z.of_nat ndigits) by (apply Z.pow_pos_nonneg; lia).
  destruct e as [|p|p]; cbn zeta.
  - exists (Zpos m * 10 ^ Z.of_nat ndigits * 2 ^ 0). split; [reflexivity|].
    split; [nia|]. split; lia.
  - exists (Zpos m * 10 ^ Z.of_nat ndigits * 2 ^ Zpos p). split; [reflexivity|].
    assert (0 < 2 ^ Zpos p) by (apply Z.pow_pos_nonneg; lia).
    split; [nia|]. split; lia.
  - assert (Hp : 0 < 2 ^ Zpos p) by (apply Z.pow_pos_nonneg; lia).
    exists (div_half_even (Zpos m * 10 ^ Z.of_nat ndigits) (2 ^ Zpos p)).
    split; [reflexivity|]. split; [|split].
    + unfold div_half_even.
      assert (0 <= Zpos m * 10 ^ Z.of_nat ndigits / 2 ^ Zpos p)
        by (apply Z.div_pos; nia).
      destruct (Z.compare _ _); [destruct (Z.even _)| |]; lia.
    + now apply div_half_even_nearest.
    + now apply div_half_even_tie.
Qed.
End PricingFacts.

Section PricingProperties.
Import Float64 Pricing ListFacts PricingFacts.

Lemma first_seen_exists q p data :
  In p data -> truthy (raw_quantity p) = Some q ->
  exists p', first_seen q data = Some p'.
Proof.
  unfold first_seen. intros Hin Hq.
  destruct (find (has_quantity q) data) as [p'|] eqn:E; [eauto|].
  pose proof (find_none _ _ E p Hin) as Hn.
  unfold has_quantity in Hn. rewrite Hq, Z.eqb_refl in Hn. discriminate.
Qed.

(** C2. The tier list holds each quantity of the extracted pairs exactly
    once, with the total of the first pair that carries it, and is in
    strictly ascending order of quantity; the rows
    [(100,$50), (100,$999), (250,$110)] give the tiers 100 (amount 50) and
    250, in this order. *)
Theorem C2_dedup_first_seen_sorted :
  (forall data : list raw_price,
      NoDup (map quantity (tiers_of data))
      /\ (exists qs, map quantity (tiers_of data) = map Some qs
                     /\ StronglySorted Z.lt qs)
      /\ Forall (fun t => exists q p,
                     quantity t = Some q /\ first_seen q data = Some p
                     /\ amount (total_price t) = PyNum.of_js (raw_total p))
             (tiers_of data)
      /\ Forall (fun p => match truthy (raw_quantity p) with
                          | Some q => In (Some q) (map quantity (tiers_of data))
                          | None => True
                          end) data)
  /\ tiers_of Examples.duplicate_rows
     = [ Examples.tier 100 (of_decimal false 5 1) (PyNum.Int 50);
         Examples.tier 250 (of_decimal false 44 2) (PyNum.Int 110) ]
  /\ _extract_pricing Examples.duplicate_rows_page
     = tiers_of Examples.duplicate_rows.
Proof.
  split; [|split; vm_compute; reflexivity].
  intros data. repeat split.
  - rewrite quantity_sort_key. apply NoDup_map_Some.
    apply StronglySorted_lt_NoDup, tiers_of_sorted.
  - exists (map sort_key (tiers_of data)).
    split; [apply quantity_sort_key|apply tiers_of_sorted].
  - eapply List.Forall_impl; [|apply tiers_of_shape]. simpl.
    intros t (q & p & Hf & _ & -> & Hq & _). exists q, p.
    repeat split; auto.
  - apply List.Forall_forall. intros p Hin.
    destruct (truthy (raw_quantity p)) as [q|] eqn:Hq; [|exact I].
    destruct (first_seen_exists _ _ _ Hin Hq) as [p' Hp'].
    apply in_map_iff. exists (make_tier p'). split.
    + destruct (first_seen_truthy _ _ _ Hp') as [_ Hq'].
      now destruct (make_tier_truthy _ _ Hq').
    + apply tiers_of_In. eauto.
Qed.

(** C3. Both scanning passes accept a pair only with
    [50 <= quantity < 100000] and a positive price, and every tier the
    extractor returns has such a quantity and amount; rows and cells with
    quantity 10 or 150000 or with a zero amount leave no tier. *)
Theorem C3_pricing_bounds :
  (forall pg : page,
      Forall (fun p => exists q, raw_quantity p = Some q
                                 /\ 50 <= q < 100000
                                 /\ positive (raw_total p) = true)
             (flat_map scan_row (rows pg) ++ flat_map scan_cells (tables pg)))
  /\ (forall pg : page,
      Forall (fun t => exists q, quantity t = Some q
                                 /\ 50 <= q < 100000
                                 /\ PyNum.positive (amount (total_price t)) = true)
             (_extract_pricing pg))
  /\ _extract_pricing Examples.out_of_range_page
     = [ Examples.tier 250 (of_decimal false 44 2) (PyNum.Int 110) ].
Proof.
  split; [|split; [|vm_compute; reflexivity]].
  - intros pg. eapply List.Forall_impl; [|apply passes_ok]. simpl.
    intros p Hp. destruct (raw_quantity p) as [q|] eqn:E; [|discriminate].
    exists q. split; [reflexivity|]. now apply in_bounds_true.
  - intros pg. unfold _extract_pricing, evaluate_pricing.
    destruct (evaluate_ok pg); [|constructor].
    eapply List.Forall_impl; [|apply tiers_of_shape]. simpl.
    intros t (q & p & Hf & Hin & -> & Hq & _). exists q. split; [exact Hq|].
    pose proof (pricing_script_ok pg) as Hok.
    rewrite List.Forall_forall in Hok. specialize (Hok p Hin).
    destruct (first_seen_truthy _ _ _ Hf) as [_ Ht].
    apply truthy_Some in Ht as [Ht _]. rewrite Ht in Hok.
    destruct Hok as [Hok|Hok]; [|discriminate].
    apply in_bounds_true in Hok as [Hb Hp]. split; [exact Hb|].
    unfold make_tier. cbn [total_price amount].
    now apply PyNumFacts.of_js_positive.
Qed.

(** C5. The entry the script pushes for the "current price" element has
    no quantity, and the loop of the extractor skips every entry without
    a quantity: no tier of the returned list lacks its quantity, and a
    page whose only price is its current price yields the empty list. *)
Theorem C5_current_price_entry_dropped :
  (forall pg : page,
      Forall (fun t => exists q, quantity t = Some q /\ q <> 0) (_extract_pricing pg))
  /\ pricing_script Examples.current_price_page
     = [ {| raw_quantity := None; raw_total := of_Z 25 |} ]
  /\ _extract_pricing Examples.current_price_page = [].
Proof.
  split; [|split; vm_compute; reflexivity].
  intros pg. unfold _extract_pricing. destruct (evaluate_pricing pg); [|constructor].
  eapply List.Forall_impl; [|apply tiers_of_shape]. simpl.
  intros t (q & p & _ & _ & _ & Hq & _ & Hne). eauto.
Qed.

(** C6. The unit amount of every returned tier is its total divided by
    its quantity, rounded to 4 decimals ([round(total / quantity, 4)]):
    when the quotient is the finite double [m * 2^e], the unit amount is
    the double nearest to [n / 10^4], where [n] is the integer nearest to
    [10^4 * m * 2^e], the even one of two; a quotient that is not finite
    is kept.  Quantity 250 with total 110.0 gives 0.44, quantity 300 with
    total 100 gives 0.3333, and a whole total of 2^53 or more is divided as
    the integer Python receives for it. *)
Theorem C6_unit_price_rounded :
  let rounded := fun t : price_tier =>
                exists q,
                  quantity t = Some q
                  /\ amount (unit_price t)
                     = Some (py_round (PyNum.truediv (amount (total_price t)) q) 4)
                  /\ match PyNum.truediv (amount (total_price t)) q with
                     | S754_finite s m e =>
                         let den := match e with Zneg p => 2 ^ Zpos p | _ => 1 end in
                         let num := match e with
                                    | Zneg _ => Zpos m * 10 ^ 4
                                    | _ => Zpos m * 10 ^ 4 * 2 ^ e
                                    end in
                         exists n : Z,
                           amount (unit_price t) = Some (of_decimal s (Z.to_N n) 4)
                           /\ 0 <= n
                           /\ 2 * Z.abs (n * den - num) <= den
                           /\ (2 * Z.abs (n * den - num) = den -> Z.even n = true)
                     | x => amount (unit_price t) = Some x
                     end in
  (forall data : list raw_price, Forall rounded (tiers_of data))
  /\ (forall pg : page, Forall rounded (_extract_pricing pg))
  /\ _extract_pricing (Examples.page_of_rows ["250 cards $110.0"])
     = [ Examples.tier 250 (of_decimal false 44 2) (PyNum.Int 110) ]
  /\ _extract_pricing (Examples.page_of_rows ["300 cards $100"])
     = [ Examples.tier 300 (of_decimal false 3333 4) (PyNum.Int 100) ]
  /\ _extract_pricing (Examples.page_of_rows ["250 cards $110.25"])
     = [ Examples.tier 250 (of_decimal false 441 3)
                       (PyNum.Float (of_decimal false 11025 2)) ]
  /\ _extract_pricing (Examples.page_of_rows ["51143 cards $69230422767201512"])
     = [ Examples.tier 51143 (of_decimal false 13536637030913616 4)
                       (PyNum.Int 69230422767201510) ].
Proof.
  intros rounded.
  assert (H : forall data : list raw_price, Forall rounded (tiers_of data)).
  2:{ split; [exact H|]. split; [|split; [|split; [|split]]; vm_compute; reflexivity].
      intros pg. unfold _extract_pricing.
      destruct (evaluate_pricing pg); [apply H|constructor]. }
  intros data. eapply List.Forall_impl; [|apply tiers_of_shape]. cbn beta.
  intros t (q & p & Hf & _ & -> & Hq & _). exists q. split; [exact Hq|].
  destruct (first_seen_truthy _ _ _ Hf) as [_ Ht].
  destruct (make_tier_truthy _ _ Ht) as (_ & _ & Hu & Htot).
  rewrite Htot. split; [exact Hu|]. rewrite Hu.
  destruct (PyNum.truediv (PyNum.of_js (raw_total p)) q) as [sz|si| |s m e];
    try reflexivity.
  cbv zeta. destruct (py_round_spec s m e 4) as (n & Hn & H0 & Hnear & Htie).
  exists n. rewrite Hn. auto.
Qed.
End PricingProperties.

Module DiscoveryFacts.
Import Discovery ListFacts StringFacts.

Lemma is_digit_range c : JS.is_digit c = true -> (48 <= nat_of_ascii c <= 57)%nat.
Proof.
  unfold JS.is_digit. rewrite andb_true_iff, !Nat.leb_le. tauto.
Qed.

Lemma all_digits_Forall s :
  JS.all_chars JS.is_digit s = true ->
  Forall (fun c => (48 <= nat_of_ascii c <= 57)%nat) (list_ascii_of_string s).
Proof.
  induction s as [|c r IH]; simpl; [constructor|].
  rewrite andb_true_iff. intros [Hc Hr].
  constructor; [now apply is_digit_range|now apply IH].
Qed.

(** The test [/^\d+$/] accepts the non-empty strings of digits only. *)
Lemma is_numeric_digits_only s : is_numeric s = true -> digits_only s.
Proof.
  unfold is_numeric, digits_only. rewrite andb_true_iff. intros [Hne Hall].
  split; [|now apply all_digits_Forall].
  intros ->. discriminate.
Qed.

(** The ancestor walk returns the identifier of the first node, among the
    [steps] first of the chain, whose identifier is numeric. *)
Lemma walk_find steps : forall chain,
  walk steps chain =
    option_map identifier
               (find (fun n => is_numeric (identifier n)) (firstn steps chain)).
Proof.
  induction steps as [|k IH]; intros [|n chain]; simpl; try reflexivity.
  destruct (is_numeric (identifier n)); [reflexivity|apply IH].
Qed.

Lemma walk_numeric steps chain i : walk steps chain = Some i -> is_numeric i = true.
Proof.
  rewrite walk_find.
  destruct (find _ _) as [n|] eqn:E; simpl; [|discriminate].
  intros [= <-]. now apply find_some in E.
Qed.

(** A value pushed for an element carries its trimmed text and the
    identifier of its anchor, which is numeric. *)
Lemma scan_element_spec param el :
  Forall (fun v => value_text v = trim (innerText el)
                   /\ option_map identifier (anchor el) = Some (value_id v)
                   /\ is_numeric (value_id v) = true)
         (scan_element param el).
Proof.
  unfold scan_element, anchor.
  destruct (_ && _); [|constructor].
  destruct (_ && _); [|constructor].
  destruct (walk 3 _) as [i|] eqn:E; [|constructor].
  constructor; [|constructor]. cbn [value_text value_id].
  split; [reflexivity|]. split; [now rewrite <- walk_find|].
  eapply walk_numeric; eauto.
Qed.

Lemma discover_script_numeric param pg :
  Forall (fun v => is_numeric (value_id v) = true) (discover_script param pg).
Proof.
  unfold discover_script. apply Forall_flat_map. intros el.
  eapply List.Forall_impl; [|apply scan_element_spec]. simpl. tauto.
Qed.

Lemma dedupe_values_acc vs : forall seen acc,
  dedupe_values seen vs acc = acc ++ dedupe_values seen vs [].
Proof.
  induction vs as [|v rest IH]; intros seen acc; simpl.
  - now rewrite app_nil_r.
  - destruct (decide (dedupe_key v ∈ seen)); [apply IH|].
    rewrite (IH _ (acc ++ [v])), (IH _ ([] ++ [v])). now rewrite <- app_assoc.
Qed.

Lemma dedupe_values_cons seen v rest :
  dedupe_values seen (v :: rest) [] =
    if decide (dedupe_key v ∈ seen) then dedupe_values seen rest []
    else v :: dedupe_values ({[dedupe_key v]} ∪ seen) rest [].
Proof.
  simpl. destruct (decide (dedupe_key v ∈ seen)); [reflexivity|].
  now rewrite dedupe_values_acc.
Qed.

(** The kept values are values of the input, with pairwise distinct, unseen
    keys. *)
Lemma dedupe_values_sound vs : forall seen,
  Forall (fun v => In v vs /\ dedupe_key v ∉ seen) (dedupe_values seen vs [])
  /\ NoDup (map dedupe_key (dedupe_values seen vs [])).
Proof.
  induction vs as [|v rest IH]; intros seen.
  - simpl. split; constructor.
  - rewrite dedupe_values_cons.
    destruct (decide (dedupe_key v ∈ seen)) as [Hin|Hnin].
    + destruct (IH seen) as [Hall Hnd]. split; [|exact Hnd].
      eapply List.Forall_impl; [|exact Hall]. simpl. tauto.
    + destruct (IH ({[dedupe_key v]} ∪ seen)) as [Hall Hnd]. split.
      * constructor; [simpl; auto|].
        eapply List.Forall_impl; [|exact Hall]. simpl. intros w Hw. seen_solver.
      * simpl. constructor; [|exact Hnd].
        intros Hk. apply in_map_iff in Hk as (w & Hw & Hinw).
        rewrite List.Forall_forall in Hall. specialize (Hall w Hinw). seen_solver.
Qed.

(** Every unseen key of the input is the key of a kept value. *)
Lemma dedupe_values_complete vs : forall seen v,
  In v vs -> dedupe_key v ∉ seen ->
  In (dedupe_key v) (map dedupe_key (dedupe_values seen vs [])).
Proof.
  induction vs as [|v0 rest IH]; intros seen v Hin Hk; [contradiction|].
  rewrite dedupe_values_cons.
  destruct (decide (dedupe_key v0 ∈ seen)) as [Hin0|Hnin0].
  - destruct Hin as [->|Hin]; [contradiction|]. now apply IH.
  - simpl. destruct (string_dec (dedupe_key v0) (dedupe_key v)) as [E|E]; [auto|].
    right. destruct Hin as [->|Hin]; [congruence|].
    apply IH; [exact Hin|]. seen_solver.
Qed.

Lemma digits_no_underscore s : is_numeric s = true -> no_underscore s.
Proof.
  intros H. apply is_numeric_digits_only in H as [_ H].
  eapply List.Forall_impl; [|exact H]. simpl. intros c Hc ->.
  change (nat_of_ascii "_") with 95%nat in Hc. lia.
Qed.

Lemma no_underscore_app (t i : string) : ~ no_underscore (t ++ String "_" i).
Proof.
  unfold no_underscore. induction t as [|d t IH]; intros H.
  - rewrite append_nil_l in H. inversion H; congruence.
  - rewrite append_cons in H. inversion H; auto.
Qed.

(** The key [text_id] determines the pair when the identifiers hold no
    underscore. *)
Lemma key_injective t1 : forall t2 i1 i2,
  no_underscore i1 -> no_underscore i2 ->
  (t1 ++ String "_" i1 = t2 ++ String "_" i2)%string -> t1 = t2 /\ i1 = i2.
Proof.
  induction t1 as [|c t1 IH]; intros [|c' t2] i1 i2 H1 H2 E;
    rewrite ?append_nil_l, ?append_cons in E.
  - inversion E. auto.
  - inversion E as [[Hc Hi]]. subst. now apply no_underscore_app in H1.
  - inversion E as [[Hc Hi]]. subst. now apply no_underscore_app in H2.
  - inversion E as [[Hc Hi]]. destruct (IH _ _ _ H1 H2 Hi). subst. auto.
Qed.

Lemma dedupe_key_injective v w :
  is_numeric (value_id v) = true -> is_numeric (value_id w) = true ->
  dedupe_key v = dedupe_key w -> v = w.
Proof.
  intros Hv Hw E. unfold dedupe_key in E.
  change (value_text v ++ String "_" (value_id v)
          = value_text w ++ String "_" (value_id w))%string in E.
  apply key_injective in E as [E1 E2]; try now apply digits_no_underscore.
  destruct v, w; simpl in *; congruence.
Qed.

(** With numeric identifiers the loop keeps exactly the pairs of its
    input, each once. *)
Lemma dedupe_values_spec vs :
  Forall (fun v => is_numeric (value_id v) = true) vs ->
  NoDup (dedupe_values ∅ vs [])
  /\ forall v, In v (dedupe_values ∅ vs []) <-> In v vs.
Proof.
  intros Hnum. destruct (dedupe_values_sound vs ∅) as [Hall Hnd].
  rewrite List.Forall_forall in Hall, Hnum.
  split; [eapply NoDup_map_inv'; eauto|].
  intros v. split; [intros H; now apply Hall|]. intros Hin.
  pose proof (dedupe_values_complete vs ∅ v Hin (not_elem_of_empty _)) as Hk.
  apply in_map_iff in Hk as (w & Hw & Hinw).
  assert (w = v) as <-; [|exact Hinw].
  apply dedupe_key_injective; auto. apply Hnum. now apply Hall.
Qed.

(** The values of a discovered group. *)
Lemma discover_group_values pg entry :
  group_values (discover_group pg entry) =
    match evaluate_options (fst entry) pg with
    | Some vs => dedupe_values ∅ vs []
    | None => []
    end.
Proof. destruct entry as [param [name key]]. reflexivity. Qed.

Lemma discover_group_well_formed pg entry : well_formed_group (discover_group pg entry).
Proof.
  unfold well_formed_group. rewrite discover_group_values.
  unfold evaluate_options. destruct (evaluate_ok pg); [|split; constructor].
  pose proof (discover_script_numeric (fst entry) pg) as Hnum.
  destruct (dedupe_values_spec _ Hnum) as [Hnd Hin]. split; [|exact Hnd].
  apply List.Forall_forall. intros v Hv. apply is_numeric_digits_only.
  rewrite List.Forall_forall in Hnum. apply Hnum. now apply Hin.
Qed.

Lemma predefined_well_formed : Forall well_formed_group _get_predefined_options.
Proof.
  repeat constructor; simpl;
    try (intros H; discriminate);
    try (apply all_digits_Forall; reflexivity);
    try (intuition discriminate).
Qed.

Lemma discovered_well_formed pg : Forall well_formed_group (discovered pg).
Proof.
  unfold discovered. apply List.Forall_forall. intros g Hg.
  apply filter_In in Hg as [Hg _]. apply in_map_iff in Hg as (entry & <- & _).
  apply discover_group_well_formed.
Qed.

Lemma discovered_has_values pg :
  Forall (fun g => group_values g <> []) (discovered pg).
Proof.
  unfold discovered. apply List.Forall_forall. intros g Hg.
  apply filter_In in Hg as [_ Hg]. unfold has_values in Hg.
  destruct (group_values g); [discriminate|congruence].
Qed.

(** The result is the discovered list or the predefined table. *)
Lemma discover_options_cases pg :
  (insufficient (discovered pg) = true /\ _discover_options pg = _get_predefined_options)
  \/ (insufficient (discovered pg) = false /\ _discover_options pg = discovered pg).
Proof.
  unfold _discover_options. destruct (insufficient (discovered pg)); auto.
Qed.

(** Discovery never returns fewer than two axes, and each axis it returns
    has a value. *)
Lemma discover_options_sufficient pg :
  (2 <= List.length (_discover_options pg))%nat
  /\ Forall (fun g => group_values g <> []) (_discover_options pg).
Proof.
  destruct (discover_options_cases pg) as [[_ ->]|[E ->]].
  - split; [simpl; lia|repeat constructor; discriminate].
  - split; [|apply discovered_has_values].
    unfold insufficient in E. apply orb_false_iff in E as [E _].
    apply Nat.ltb_ge in E. exact E.
Qed.

(** The axes discovery returns have pairwise distinct keys and control
    pairwise distinct parameters. *)
Lemma discover_options_distinct pg :
  NoDup (map group_key (_discover_options pg))
  /\ NoDup (map spf_param (_discover_options pg)).
Proof.
  destruct (discover_options_cases pg) as [[_ ->]|[_ ->]].
  - split; repeat constructor; simpl; intuition discriminate.
  - unfold discovered.
    split; apply NoDup_map_filter;
      repeat constructor; simpl; intuition discriminate.
Qed.

(** Every axis discovery returns satisfies the invariant of an axis. *)
Lemma discover_options_well_formed pg : Forall well_formed_group (_discover_options pg).
Proof.
  destruct (discover_options_cases pg) as [[_ ->]|[_ ->]].
  - apply predefined_well_formed.
  - apply discovered_well_formed.
Qed.

Lemma insufficient_iff options :
  insufficient options = true <->
  (List.length options < 2 \/ total_values options < 4)%nat.
Proof.
  unfold insufficient. rewrite orb_true_iff, !Nat.ltb_lt. tauto.
Qed.
End DiscoveryFacts.

Section DiscoveryProperties.
Import Discovery DiscoveryFacts.

(** C1. When discovery finds fewer than two axes with a value, or fewer
    than four values over all axes, the result is the predefined table
    (Shape with 2 values, Size with 2, Paper stock with 3); otherwise it
    is the list of discovered axes, unchanged.  The discovered axes are
    the groups of the four known parameters that have a value. *)
Theorem C1_fallback_policy : forall pg : page,
  ((List.length (discovered pg) < 2 \/ total_values (discovered pg) < 4)%nat ->
   _discover_options pg = _get_predefined_options)
  /\ (~ (List.length (discovered pg) < 2 \/ total_values (discovered pg) < 4)%nat ->
      _discover_options pg = discovered pg)
  /\ Forall (fun g => In g (map (discover_group pg) spf_names) /\ group_values g <> [])
            (discovered pg)
  /\ map (fun g => (group_name g, List.length (group_values g))) _get_predefined_options
     = [ ("Shape", 2%nat); ("Size", 2%nat); ("Paper stock", 3%nat) ].
Proof.
  intros pg. split; [|split; [|split; [|reflexivity]]].
  - intros H. apply insufficient_iff in H.
    destruct (discover_options_cases pg) as [[_ E]|[E _]]; congruence.
  - intros H. rewrite <- insufficient_iff in H.
    destruct (discover_options_cases pg) as [[E _]|[_ E]]; congruence.
  - apply List.Forall_forall. intros g Hg. split.
    + unfold discovered in Hg. now apply filter_In in Hg.
    + pose proof (discovered_has_values pg) as H.
      rewrite List.Forall_forall in H. now apply H.
Qed.

Lemma C1_fallback_policy_witness :
  _discover_options blank_page = _get_predefined_options
  /\ _discover_options Examples.one_axis_page = _get_predefined_options
  /\ _discover_options Examples.three_values_page = _get_predefined_options
  /\ _discover_options Examples.rich_page = discovered Examples.rich_page.
Proof.
  split; [|split; [|split]].
  - apply (proj1 (C1_fallback_policy blank_page)). left. vm_compute. lia.
  - apply (proj1 (C1_fallback_policy Examples.one_axis_page)). left. vm_compute. lia.
  - apply (proj1 (C1_fallback_policy Examples.three_values_page)). right. vm_compute. lia.
  - apply (proj1 (proj2 (C1_fallback_policy Examples.rich_page))).
    vm_compute. intros [H|H]; lia.
Defined.

(** C7. Every value identifier of every axis that discovery returns is a
    non-empty string of digits, and no axis holds a (text, identifier)
    pair twice.  A value is pushed for an element only with the identifier
    of the first node among the element, its parent and its grandparent
    whose identifier is numeric, so an element without such a node yields
    nothing; the loop keeps exactly the pairs the script returned. *)
Theorem C7_numeric_identifiers :
  (forall pg : page, Forall well_formed_group (_discover_options pg))
  /\ (forall (param : string) (el : element),
         Forall (fun v => value_text v = trim (innerText el)
                          /\ option_map identifier (anchor el) = Some (value_id v)
                          /\ digits_only (value_id v))
                (scan_element param el))
  /\ (forall (pg : page) (entry : string * (string * string)) (v : option_value),
         In v (group_values (discover_group pg entry))
         <-> evaluate_ok pg = true /\ In v (discover_script (fst entry) pg))
  /\ map group_values (discovered Examples.rich_page)
     = [ [ {| value_text := "Rectangle"; value_id := "1390" |} ];
         [ {| value_text := "2 x 3.5 in"; value_id := "1391" |};
           {| value_text := "2 x 2 in"; value_id := "1392" |} ];
         [ {| value_text := "14PT Cardstock"; value_id := "1400" |} ] ].
Proof.
  split; [|split; [|split; [|vm_compute; reflexivity]]].
  - apply discover_options_well_formed.
  - intros param el. eapply List.Forall_impl; [|apply scan_element_spec].
    simpl. intros v (H1 & H2 & H3). auto using is_numeric_digits_only.
  - intros pg entry v. rewrite discover_group_values. unfold evaluate_options.
    destruct (evaluate_ok pg).
    + destruct (dedupe_values_spec _ (discover_script_numeric (fst entry) pg)) as [_ H].
      rewrite H. tauto.
    + simpl. split; [tauto|]. intros [H _]. discriminate.
Qed.
End DiscoveryProperties.

Module PyDictFacts.
Import PyDict.
Section Facts.
Context {V : Type}.
Implicit Types (d : dict V) (k : string) (v : V).

Lemma get_set_same d k v : get (set d k v) k = Some v.
Proof.
  induction d as [|[k' v'] r IH]; simpl.
  - now rewrite String.eqb_refl.
  - destruct (String.eqb k' k) eqn:E; simpl; rewrite E; [reflexivity|exact IH].
Qed.

Lemma get_set_other d k k' v : k <> k' -> get (set d k v) k' = get d k'.
Proof.
  intros Hne. induction d as [|[k0 v0] r IH]; simpl.
  - destruct (String.eqb_spec k k'); [contradiction|reflexivity].
  - destruct (String.eqb_spec k0 k) as [->|Hk]; simpl.
    + destruct (String.eqb_spec k k'); [contradiction|reflexivity].
    + destruct (String.eqb_spec k0 k'); [reflexivity|exact IH].
Qed.

(** Assigning to a key keeps the keys already present, in their order. *)
Lemma keys_set d k v :
  keys (set d k v) = if existsb (String.eqb k) (keys d) then keys d else keys d ++ [k].
Proof.
  unfold keys. induction d as [|[k0 v0] r IH]; simpl; [reflexivity|].
  rewrite (String.eqb_sym k k0).
  destruct (String.eqb_spec k0 k) as [->|Hk]; simpl; [reflexivity|].
  rewrite IH. now destruct (existsb _ _).
Qed.

(** Assigning to a new key appends the entry. *)
Lemma set_fresh d k v : ~ In k (keys d) -> set d k v = d ++ [(k, v)].
Proof.
  unfold keys. induction d as [|[k0 v0] r IH]; simpl; intros H; [reflexivity|].
  destruct (String.eqb_spec k0 k) as [->|Hk]; [tauto|].
  rewrite IH; [reflexivity|tauto].
Qed.

Lemma get_In d k v : NoDup (keys d) -> In (k, v) d -> get d k = Some v.
Proof.
  unfold keys. induction d as [|[k0 v0] r IH]; simpl; intros Hnd Hin; [contradiction|].
  inversion Hnd as [|? ? Hn Hnd']; subst.
  destruct Hin as [[= -> ->]|Hin].
  - now rewrite String.eqb_refl.
  - destruct (String.eqb_spec k0 k) as [->|Hk]; [|now apply IH].
    exfalso. apply Hn. apply in_map_iff. now exists (k, v).
Qed.

Lemma get_None d k : ~ In k (keys d) -> get d k = None.
Proof.
  unfold keys. induction d as [|[k0 v0] r IH]; simpl; intros H; [reflexivity|].
  destruct (String.eqb_spec k0 k) as [->|Hk]; [tauto|]. apply IH. tauto.
Qed.

(** A comprehension over items with pairwise distinct keys lists them in
    order. *)
Lemma comprehension_NoDup (key : V -> string) (l : list V) :
  NoDup (map key l) -> comprehension key l = map (fun x => (key x, x)) l.
Proof.
  unfold comprehension.
  assert (H : forall d, NoDup (keys d ++ map key l) ->
            fold_left (fun d x => set d (key x) x) l d = d ++ map (fun x => (key x, x)) l).
  { induction l as [|x r IH]; intros d Hnd; simpl.
    - now rewrite app_nil_r.
    - simpl in Hnd. rewrite set_fresh.
      + rewrite IH.
        * now rewrite <- app_assoc.
        * unfold keys in *. rewrite map_app. simpl. rewrite <- app_assoc. exact Hnd.
      + apply NoDup_remove_2 in Hnd. intros Hin. apply Hnd. apply in_or_app. now left. }
  intros Hnd. now apply (H []).
Qed.
End Facts.
End PyDictFacts.

Module EnumeratorFacts.
Import Discovery Enumerator ListFacts.

Lemma flat_map_cons_length {A} (l : list A) (P : list (list A)) :
  List.length (flat_map (fun x => map (cons x) P) l) = (List.length l * List.length P)%nat.
Proof.
  induction l as [|x r IH]; simpl; [reflexivity|].
  rewrite length_app, length_map, IH. reflexivity.
Qed.

(** The number of tuples is the product of the sizes. *)
Lemma product_length {A} (lists : list (list A)) :
  List.length (product lists) = list_prod (map (@List.length A) lists).
Proof.
  induction lists as [|l rest IH]; simpl; [reflexivity|].
  now rewrite flat_map_cons_length, IH.
Qed.

Lemma values_with_meta_length o :
  List.length (values_with_meta o) = List.length (group_values o).
Proof. unfold values_with_meta. apply length_map. Qed.

Lemma non_empty_has_values o : non_empty (values_with_meta o) = has_values o.
Proof.
  unfold values_with_meta, has_values. now destruct (group_values o).
Qed.

(** The lists of the product are those of the axes with a value. *)
Lemma option_value_lists_filter options :
  option_value_lists options = map values_with_meta (filter has_values options).
Proof.
  unfold option_value_lists. induction options as [|o r IH]; simpl; [reflexivity|].
  rewrite non_empty_has_values. destruct (has_values o); simpl; now rewrite IH.
Qed.

Lemma axis_sizes_lists options :
  map (@List.length item) (option_value_lists options) = axis_sizes options.
Proof.
  unfold option_value_lists, axis_sizes.
  induction options as [|o r IH]; simpl; [reflexivity|].
  rewrite <- values_with_meta_length.
  destruct (values_with_meta o); simpl; now rewrite IH.
Qed.

Lemma axis_sizes_all options :
  Forall (fun o => group_values o <> []) options ->
  axis_sizes options = map (fun o => List.length (group_values o)) options.
Proof.
  unfold axis_sizes. induction 1 as [|o r Ho _ IH]; simpl; [reflexivity|].
  destruct (group_values o); [congruence|]. simpl. now rewrite IH.
Qed.

Lemma some_axis_has_values options :
  Exists (fun o => group_values o <> []) options -> option_value_lists options <> [].
Proof.
  rewrite option_value_lists_filter. intros H.
  apply Exists_exists in H as (o & Hin & Hne).
  assert (Hf : In o (filter has_values options)).
  { apply filter_In. split; [exact Hin|]. unfold has_values.
    destruct (group_values o); [congruence|reflexivity]. }
  destruct (filter has_values options); [contradiction|discriminate].
Qed.

Lemma no_axis_has_values options :
  Forall (fun o => group_values o = []) options -> option_value_lists options = [].
Proof.
  rewrite option_value_lists_filter. intros H.
  induction H as [|o r Ho _ IH]; simpl; [reflexivity|].
  unfold has_values at 1. now rewrite Ho.
Qed.

Lemma all_combinations_product options :
  option_value_lists options <> [] ->
  all_combinations options = product (option_value_lists options).
Proof.
  unfold all_combinations. destruct (option_value_lists options); [congruence|reflexivity].
Qed.

(** Position [i * n + j] of the product, [n] being the number of tuples of
    the remaining lists: the first list varies slowest. *)
Lemma product_order {A} (l : list A) (rest : list (list A)) (i j : nat) :
  (j < List.length (product rest))%nat ->
  nth_error (product (l :: rest)) (i * List.length (product rest) + j) =
    match nth_error l i, nth_error (product rest) j with
    | Some x, Some c => Some (x :: c)
    | _, _ => None
    end.
Proof.
  intros Hj. simpl product. set (P := product rest) in *. clearbody P.
  revert i. induction l as [|x r IH]; intros i; simpl.
  - destruct i; simpl; now rewrite ?nth_error_nil.
  - destruct i as [|i]; simpl.
    + rewrite nth_error_app1 by (now rewrite length_map).
      rewrite nth_error_map. now destruct (nth_error P j).
    + rewrite nth_error_app2 by (rewrite length_map; lia).
      rewrite length_map.
      replace (List.length P + i * List.length P + j - List.length P)%nat
        with (i * List.length P + j)%nat by lia.
      apply IH.
Qed.

(** A tuple of the product takes its components from the lists, in
    order. *)
Lemma product_In {A} (lists : list (list A)) (c : list A) :
  In c (product lists) <-> Forall2 (fun x l => In x l) c lists.
Proof.
  revert c. induction lists as [|l rest IH]; intros c; simpl.
  - split.
    + intros [<-|[]]. constructor.
    + intros H. inversion H. now left.
  - rewrite in_flat_map. split.
    + intros (x & Hx & Hc). apply in_map_iff in Hc as (c' & <- & Hc').
      constructor; [exact Hx|now apply IH].
    + intros H. inversion H as [|x l' c' rest' Hx Hc']; subst.
      exists x. split; [exact Hx|]. apply in_map. now apply IH.
Qed.

Lemma product_NoDup {A} (lists : list (list A)) :
  Forall (@NoDup A) lists -> NoDup (product lists).
Proof.
  induction 1 as [|l rest Hl _ IH]; simpl.
  - constructor; [simpl; tauto|constructor].
  - induction Hl as [|x l Hx Hl IHl]; simpl; [constructor|].
    apply NoDup_app; [|exact IHl|].
    + apply NoDup_map_injective_on; [|exact IH]. intros ? ? _ _ [=]. assumption.
    + intros c Hc Hc'. apply in_map_iff in Hc as (c0 & <- & _).
      apply in_flat_map in Hc' as (y & Hy & Hc'). apply in_map_iff in Hc' as (c1 & [= -> _] & _).
      contradiction.
Qed.

Lemma values_with_meta_NoDup o : NoDup (group_values o) -> NoDup (values_with_meta o).
Proof.
  intros H. unfold values_with_meta. apply NoDup_map_injective_on; [|exact H].
  intros [t1 i1] [t2 i2] _ _ [= -> ->]. reflexivity.
Qed.

Lemma values_with_meta_key o it : In it (values_with_meta o) -> item_key it = group_key o.
Proof.
  unfold values_with_meta. intros H. apply in_map_iff in H as (v & <- & _). reflexivity.
Qed.

(** The keys of a combination are the keys of the axes with a value. *)
Lemma combination_keys options combo :
  In combo (product (option_value_lists options)) ->
  map item_key combo = map group_key (filter has_values options).
Proof.
  rewrite option_value_lists_filter, product_In.
  generalize (filter has_values options). intros axes H.
  remember (map values_with_meta axes) as lists eqn:E. revert axes E.
  induction H as [|it l combo lists Hit _ IH]; intros [|o axes] E; try discriminate.
  - reflexivity.
  - simpl in E. injection E as -> ->. simpl.
    rewrite (values_with_meta_key _ _ Hit). f_equal. now apply IH.
Qed.

Lemma filter_keys_NoDup options :
  NoDup (map group_key options) -> NoDup (map group_key (filter has_values options)).
Proof. apply NoDup_map_filter. Qed.

(** With pairwise distinct axis keys the selection of a combination lists
    its items under their keys, in order. *)
Lemma selection_of_combination options combo :
  NoDup (map group_key options) ->
  In combo (product (option_value_lists options)) ->
  selection_of combo = map (fun it => (item_key it, it)) combo.
Proof.
  intros Hnd Hin. unfold selection_of. apply PyDictFacts.comprehension_NoDup.
  rewrite (combination_keys _ _ Hin). now apply filter_keys_NoDup.
Qed.
(** A selection assigns to every axis with values, in order, one of its
    values. *)
Lemma selections_assign options combo :
  NoDup (map group_key options) ->
  In combo (product (option_value_lists options)) ->
  Forall2 (fun kv o => fst kv = group_key o /\ In (snd kv) (values_with_meta o))
          (selection_of combo) (filter has_values options).
Proof.
  intros Hnd Hin. rewrite (selection_of_combination _ _ Hnd Hin).
  rewrite option_value_lists_filter, product_In in Hin.
  remember (map values_with_meta (filter has_values options)) as lists eqn:E.
  revert E. generalize (filter has_values options).
  induction Hin as [|it l combo lists Hit _ IH]; intros [|o axes] E; try discriminate.
  - constructor.
  - simpl in E. injection E as -> ->. simpl. constructor; [|now apply IH].
    simpl. split; [now apply values_with_meta_key|exact Hit].
Qed.

End EnumeratorFacts.

Section EnumeratorProperties.
Import Discovery Enumerator ListFacts EnumeratorFacts.

Lemma selections_NoDup options :
  NoDup (map group_key options) ->
  Forall (fun o => NoDup (group_values o)) options ->
  NoDup (selections options).
Proof.
  intros Hk Hv. unfold selections, all_combinations.
  destruct (option_value_lists options) as [|l rest] eqn:E; [constructor|].
  rewrite <- E. apply NoDup_map_injective_on.
  - intros c1 c2 H1 H2 Heq.
    rewrite (selection_of_combination _ _ Hk H1), (selection_of_combination _ _ Hk H2) in Heq.
    apply (f_equal (map snd)) in Heq. rewrite !map_map in Heq. simpl in Heq.
    now rewrite !map_id in Heq.
  - apply product_NoDup. rewrite option_value_lists_filter.
    apply List.Forall_forall. intros l0 Hl0. apply in_map_iff in Hl0 as (o & <- & Ho).
    apply values_with_meta_NoDup. apply filter_In in Ho as [Ho _].
    rewrite List.Forall_forall in Hv. now apply Hv.
Qed.

(** C4. For a list of axes of which at least one has a value, the
    enumerator produces as many selections as the product of the value
    counts of the axes that have values (12 for the sizes 2, 2, 3), an axis
    without values being left out of the product rather than emptying it;
    the combinations are those of [itertools.product], in which the first
    axis varies slowest.  When no axis has a value it produces no
    selection.  With pairwise distinct axis keys and duplicate-free value
    lists, the selections are pairwise distinct and each assigns, to every
    axis with values and in the order of the axes, one of its values.  The
    axes [scrape] enumerates, those of [_discover_options], are of this
    kind and each has a value: their selections are pairwise distinct
    assignments of one value to every axis, as many as the product of all
    the value counts. *)
Theorem C4_selection_count_order :
  (forall options : list option_group,
      Exists (fun o => group_values o <> []) options ->
      List.length (selections options) = list_prod (axis_sizes options)
      /\ all_combinations options = product (option_value_lists options))
  /\ (forall options : list option_group,
      Forall (fun o => group_values o = []) options -> selections options = [])
  /\ (forall (A : Type) (l : list A) (rest : list (list A)) (i j : nat),
      (j < List.length (product rest))%nat ->
      nth_error (product (l :: rest)) (i * List.length (product rest) + j) =
        match nth_error l i, nth_error (product rest) j with
        | Some x, Some c => Some (x :: c)
        | _, _ => None
        end)
  /\ (forall options : list option_group,
      NoDup (map group_key options) ->
      Forall (fun o => NoDup (group_values o)) options ->
      NoDup (selections options)
      /\ Forall (fun sel =>
                   Forall2 (fun kv o => fst kv = group_key o
                                        /\ In (snd kv) (values_with_meta o))
                           sel (filter has_values options))
                (selections options))
  /\ (forall pg : page,
      let options := _discover_options pg in
      NoDup (map group_key options)
      /\ Forall (fun o => NoDup (group_values o) /\ group_values o <> []) options
      /\ List.length (selections options)
         = list_prod (map (fun o => List.length (group_values o)) options)
      /\ all_combinations options = product (map values_with_meta options)
      /\ NoDup (selections options)
      /\ Forall (fun sel =>
                   Forall2 (fun kv o => fst kv = group_key o
                                        /\ In (snd kv) (values_with_meta o))
                           sel options)
                (selections options))
  /\ axis_sizes _get_predefined_options = [2; 2; 3]%nat
  /\ List.length (selections _get_predefined_options) = 12%nat.
Proof.
  assert (Hassign : forall options : list option_group,
      NoDup (map group_key options) ->
      Forall (fun o => NoDup (group_values o)) options ->
      NoDup (selections options)
      /\ Forall (fun sel =>
                   Forall2 (fun kv o => fst kv = group_key o
                                        /\ In (snd kv) (values_with_meta o))
                           sel (filter has_values options))
                (selections options)).
  { intros options Hk Hv. split; [now apply selections_NoDup|].
    apply List.Forall_forall. intros sel Hsel.
    unfold selections in Hsel. apply in_map_iff in Hsel as (combo & <- & Hc).
    apply selections_assign; [exact Hk|].
    unfold all_combinations in Hc.
    destruct (option_value_lists options); [contradiction|exact Hc]. }
  split; [|split; [|split; [|split; [exact Hassign|split; [|split; reflexivity]]]]].
  - intros options H. apply some_axis_has_values in H.
    split; [|now apply all_combinations_product].
    unfold selections. rewrite length_map, (all_combinations_product _ H).
    now rewrite product_length, axis_sizes_lists.
  - intros options H. unfold selections, all_combinations.
    now rewrite (no_axis_has_values _ H).
  - intros A l rest i j Hj. now apply product_order.
  - intros pg options.
    destruct (DiscoveryFacts.discover_options_sufficient pg) as [Hlen Hne].
    fold options in Hlen, Hne.
    destruct (DiscoveryFacts.discover_options_distinct pg) as [Hk _]. fold options in Hk.
    assert (Hv : Forall (fun o => NoDup (group_values o)) options).
    { eapply List.Forall_impl; [|apply DiscoveryFacts.discover_options_well_formed].
      intros o [_ H]. exact H. }
    assert (Hall : filter has_values options = options).
    { clear -Hne. induction options as [|o r IH]; [reflexivity|].
      inversion Hne as [|? ? Ho Hr]; subst. simpl.
      unfold has_values at 1. destruct (group_values o) eqn:E; [congruence|].
      simpl. now rewrite IH. }
    assert (Hex : option_value_lists options <> []).
    { apply some_axis_has_values.
      destruct options as [|o r]; [simpl in Hlen; lia|].
      inversion Hne; subst. now apply Exists_cons_hd. }
    destruct (Hassign options Hk Hv) as [Hnd Hsel]. rewrite Hall in Hsel.
    split; [exact Hk|]. split.
    { apply List.Forall_forall. intros o Ho. rewrite List.Forall_forall in Hv, Hne. auto. }
    split.
    { unfold selections. rewrite length_map, (all_combinations_product _ Hex).
      rewrite product_length, axis_sizes_lists. now rewrite axis_sizes_all. }
    split.
    { rewrite (all_combinations_product _ Hex), option_value_lists_filter.
      now rewrite Hall. }
    split; [exact Hnd|exact Hsel].
Qed.

Lemma C4_selection_count_order_witness :
  List.length (selections Examples.with_empty_axis) = 6%nat
  /\ selections [Examples.empty_axis] = []
  /\ nth_error (product [[1; 2]; [3; 4]; [5; 6; 7]]%nat) (1 * 6 + 4) = Some [2; 4; 6]%nat
  /\ NoDup (selections Examples.with_empty_axis).
Proof.
  split; [|split; [|split]].
  - apply (proj1 (proj1 C4_selection_count_order Examples.with_empty_axis
                        ltac:(apply Exists_cons_hd; discriminate))).
  - apply (proj1 (proj2 C4_selection_count_order) [Examples.empty_axis]).
    repeat constructor.
  - apply (proj1 (proj2 (proj2 C4_selection_count_order)) nat
                 [1; 2]%nat [[3; 4]; [5; 6; 7]]%nat 1%nat 4%nat).
    vm_compute. lia.
  - apply (proj1 (proj2 (proj2 (proj2 C4_selection_count_order)))
                 Examples.with_empty_axis).
    + vm_compute. repeat constructor; simpl; intuition discriminate.
    + vm_compute. repeat constructor; simpl; intuition discriminate.
Defined.
End EnumeratorProperties.

Module RequoteFacts.
Import Enumerator Scraper PyDictFacts.

Lemma requote_params_cons base kv sel :
  requote_params base (kv :: sel) =
    requote_params (PyDict.set base (item_spf_param (snd kv)) (item_id (snd kv))) sel.
Proof. reflexivity. Qed.

(** A parameter no axis controls keeps its value. *)
Lemma requote_get_other sel : forall base k,
  ~ In k (axis_params sel) ->
  PyDict.get (requote_params base sel) k = PyDict.get base k.
Proof.
  induction sel as [|kv sel IH]; intros base k Hk; [reflexivity|].
  rewrite requote_params_cons, IH.
  - apply get_set_other. intros E. apply Hk. now left.
  - intros Hin. apply Hk. now right.
Qed.

(** The parameter of each axis holds the identifier chosen for it. *)
Lemma requote_get_axis sel : forall base,
  NoDup (axis_params sel) ->
  Forall (fun kv => PyDict.get (requote_params base sel) (item_spf_param (snd kv))
                    = Some (item_id (snd kv))) sel.
Proof.
  induction sel as [|kv sel IH]; intros base Hnd; [constructor|].
  inversion Hnd as [|? ? Hn Hnd']; subst.
  constructor; [|rewrite requote_params_cons; now apply IH].
  rewrite requote_params_cons, requote_get_other by exact Hn.
  apply get_set_same.
Qed.

Lemma filter_set_axis (keep : string -> bool) (d : PyDict.dict string) k v :
  keep k = false ->
  filter (fun e => keep (fst e)) (PyDict.set d k v) = filter (fun e => keep (fst e)) d.
Proof.
  intros Hk. induction d as [|[k0 v0] r IH]; simpl.
  - now rewrite Hk.
  - destruct (String.eqb_spec k0 k) as [->|Hne]; simpl.
    + now rewrite Hk.
    + now rewrite IH.
Qed.

(** The entries of the parameters no axis controls are the same, in the
    same order. *)
Lemma requote_frame sel0 sel : forall base,
  incl (axis_params sel) (axis_params sel0) ->
  filter (fun e => negb (is_axis_param sel0 (fst e))) (requote_params base sel)
  = filter (fun e => negb (is_axis_param sel0 (fst e))) base.
Proof.
  induction sel as [|kv sel IH]; intros base Hincl; [reflexivity|].
  rewrite requote_params_cons, IH.
  - apply (filter_set_axis (fun k => negb (is_axis_param sel0 k))).
    apply negb_false_iff. unfold is_axis_param. apply existsb_exists.
    exists (item_spf_param (snd kv)). split; [|apply String.eqb_refl].
    apply Hincl. now left.
  - intros k Hk. apply Hincl. now right.
Qed.

(** Overlaying keeps the parameters a dictionary: no name twice. *)
Lemma requote_keys_NoDup sel : forall base,
  NoDup (PyDict.keys base) -> NoDup (PyDict.keys (requote_params base sel)).
Proof.
  induction sel as [|kv sel IH]; intros base Hnd; [exact Hnd|].
  rewrite requote_params_cons. apply IH. rewrite keys_set.
  destruct (existsb _ _) eqn:E; [exact Hnd|].
  apply NoDup_app; [exact Hnd|repeat constructor; simpl; tauto|].
  intros k Hk [<-|[]].
  assert (existsb (String.eqb (item_spf_param (snd kv))) (PyDict.keys base) = true);
    [|congruence].
  apply existsb_exists. exists (item_spf_param (snd kv)). split; [exact Hk|apply String.eqb_refl].
Qed.

(** The selections of the enumerator over axes with distinct parameters
    control distinct parameters. *)
Lemma selection_axis_params options combo :
  NoDup (map Discovery.group_key options) ->
  NoDup (map Discovery.spf_param options) ->
  In combo (all_combinations options) ->
  NoDup (axis_params (selection_of combo)).
Proof.
  intros Hk Hp Hin. unfold all_combinations in Hin.
  assert (Hin' : In combo (product (option_value_lists options))).
  { destruct (option_value_lists options); [contradiction|exact Hin]. }
  pose proof (EnumeratorFacts.selections_assign options combo Hk Hin') as Ha.
  unfold axis_params.
  assert (E : map (fun kv => item_spf_param (snd kv)) (selection_of combo)
              = map Discovery.spf_param (filter Discovery.has_values options)).
  { induction Ha as [|kv o sel axes [_ Hv] _ IH]; simpl; [reflexivity|].
    f_equal; [|exact IH]. unfold values_with_meta in Hv.
    apply in_map_iff in Hv as (v & <- & _). reflexivity. }
  rewrite E. now apply ListFacts.NoDup_map_filter.
Qed.

(** So does every selection of a run satisfy the premise of the overlay. *)
Lemma run_selection_axis_params pg combo :
  In combo (all_combinations (Discovery._discover_options pg)) ->
  NoDup (axis_params (selection_of combo)).
Proof.
  destruct (DiscoveryFacts.discover_options_distinct pg). now apply selection_axis_params.
Qed.
End RequoteFacts.

Module UrlFacts.
Import Url StringFacts.
Local Open Scope string_scope.

(** The reader undoes the escape of one character. *)
Lemma unquote_quote_char c s : unquote_plus (quote_char c ++ s) = String c (unquote_plus s).
Proof. destruct c as [[] [] [] [] [] [] [] []]; reflexivity. Qed.

Lemma unquote_quote_plus s : unquote_plus (quote_plus s) = s.
Proof.
  induction s as [|c r IH]; [reflexivity|].
  simpl quote_plus. now rewrite unquote_quote_char, IH.
Qed.

Lemma plain_app sep a b : plain sep a -> plain sep b -> plain sep (a ++ b).
Proof.
  unfold plain. induction a as [|x a IH]; intros Ha Hb; [exact Hb|].
  rewrite append_cons. simpl in *. apply andb_true_iff in Ha as [Hx Ha].
  rewrite Hx. simpl. now apply IH.
Qed.

(** An escape holds neither [&] nor [=]. *)
Lemma quote_char_plain c : plain "&" (quote_char c) /\ plain "=" (quote_char c).
Proof. destruct c as [[] [] [] [] [] [] [] []]; split; reflexivity. Qed.

Lemma quote_plus_plain s : plain "&" (quote_plus s) /\ plain "=" (quote_plus s).
Proof.
  induction s as [|c r [IH1 IH2]]; [split; reflexivity|].
  simpl quote_plus. destruct (quote_char_plain c). split; now apply plain_app.
Qed.

Lemma before_char_app sep a b : plain sep a -> before_char sep (a ++ String sep b) = a.
Proof.
  unfold plain. induction a as [|x a IH]; intros Ha.
  - rewrite append_nil_l. simpl. now rewrite Ascii.eqb_refl.
  - rewrite append_cons. simpl in *. apply andb_true_iff in Ha as [Hx Ha].
    apply negb_true_iff in Hx. rewrite Hx. now rewrite IH.
Qed.

Lemma after_char_app sep a b : plain sep a -> after_char sep (a ++ String sep b) = b.
Proof.
  unfold plain. induction a as [|x a IH]; intros Ha.
  - rewrite append_nil_l. simpl. now rewrite Ascii.eqb_refl.
  - rewrite append_cons. simpl in *. apply andb_true_iff in Ha as [Hx Ha].
    apply negb_true_iff in Hx. rewrite Hx. now apply IH.
Qed.

Lemma encode_pair_eq kv :
  encode_pair kv = quote_plus (fst kv) ++ String "=" (quote_plus (snd kv)).
Proof. reflexivity. Qed.

(** A field reads back as the pair it encodes. *)
Lemma read_field_encode kv : read_field (encode_pair kv) = kv.
Proof.
  unfold read_field. rewrite encode_pair_eq.
  destruct (quote_plus_plain (fst kv)) as [_ Hk].
  rewrite before_char_app, after_char_app by exact Hk.
  rewrite !unquote_quote_plus. now destruct kv.
Qed.

Lemma encode_pair_plain kv : plain "&" (encode_pair kv).
Proof.
  rewrite encode_pair_eq. apply plain_app; [apply quote_plus_plain|].
  unfold plain. simpl. apply quote_plus_plain.
Qed.

Lemma encode_pair_not_empty kv : JS.is_empty (encode_pair kv) = false.
Proof.
  rewrite encode_pair_eq. destruct (quote_plus (fst kv)); reflexivity.
Qed.

Lemma split_on_plain sep a : plain sep a -> split_on sep a = [a].
Proof.
  unfold plain. induction a as [|x a IH]; intros Ha; [reflexivity|].
  simpl in *. apply andb_true_iff in Ha as [Hx Ha].
  apply negb_true_iff in Hx. rewrite Hx. now rewrite IH.
Qed.

Lemma split_on_app sep a b :
  plain sep a -> split_on sep (a ++ String sep b) = a :: split_on sep b.
Proof.
  unfold plain. induction a as [|x a IH]; intros Ha.
  - rewrite append_nil_l. simpl. now rewrite Ascii.eqb_refl.
  - rewrite append_cons. simpl in *. apply andb_true_iff in Ha as [Hx Ha].
    apply negb_true_iff in Hx. rewrite Hx. now rewrite IH.
Qed.

Lemma join_amp_cons x y r : join_amp (x :: y :: r) = x ++ String "&" (join_amp (y :: r)).
Proof. reflexivity. Qed.

Lemma split_join fields :
  fields <> [] -> Forall (plain "&") fields ->
  split_on "&" (join_amp fields) = fields.
Proof.
  induction fields as [|x r IH]; intros Hne Hall; [congruence|].
  inversion Hall as [|? ? Hx Hr]; subst.
  destruct r as [|y r].
  - simpl. now apply split_on_plain.
  - rewrite join_amp_cons, split_on_app by exact Hx.
    f_equal. apply IH; [discriminate|exact Hr].
Qed.

(** Reading the query string [urlencode] builds gives back the
    parameters: the same names and values, in the same order. *)
Lemma read_query_urlencode ps : read_query (urlencode ps) = ps.
Proof.
  unfold read_query, urlencode. destruct ps as [|kv r]; [reflexivity|].
  assert (Hne : JS.is_empty (join_amp (map encode_pair (kv :: r))) = false).
  { simpl map. destruct (map encode_pair r).
    - apply encode_pair_not_empty.
    - rewrite join_amp_cons. pose proof (encode_pair_not_empty kv) as H.
      destruct (encode_pair kv); [discriminate|reflexivity]. }
  rewrite Hne, split_join.
  - rewrite map_map. rewrite <- (map_id (kv :: r)) at 2.
    apply map_ext. apply read_field_encode.
  - discriminate.
  - apply List.Forall_forall. intros f Hf. apply in_map_iff in Hf as (e & <- & _).
    apply encode_pair_plain.
Qed.

(** With a query and no fragment, the URL is the URL without query
    followed by [?] and the query. *)
Lemma urlunparse_query r :
  fragment r = "" -> JS.is_empty (query r) = false ->
  urlunparse r =
    urlunparse {| scheme := scheme r; netloc := netloc r; path := path r;
                  params := params r; query := ""; fragment := "" |}
    ++ "?" ++ query r.
Proof.
  intros Hf Hq. unfold urlunparse. simpl. rewrite Hf, Hq. reflexivity.
Qed.
End UrlFacts.

Module ScraperFacts.
Import Discovery Enumerator Pricing Scraper.

Section Run.
Variable urlparse : string -> Url.ParseResult.
Variable parse_qs : string -> PyDict.dict (list string).
Variable web : site.

(** [_scrape_variant] navigates once; its result depends on the browser
    only through the number of navigations made so far. *)
Lemma scrape_variant_spec base ps sel b :
  _scrape_variant urlparse web base ps sel b =
    (variant_at urlparse web (navigations b) base ps sel,
     {| log := log b ++ [Goto (variant_url urlparse base ps sel)];
        navigations := S (navigations b);
        current := nav_page (web (navigations b) (variant_url urlparse base ps sel)) |}).
Proof.
  unfold variant_at, _scrape_variant, goto. simpl.
  destruct (nav_ok (web (navigations b) (variant_url urlparse base ps sel))); reflexivity.
Qed.

(** A selection yields a variant exactly when its navigation returns. *)
Lemma variant_at_ok n base ps sel :
  is_none (variant_at urlparse web n base ps sel)
  = negb (nav_ok (web n (variant_url urlparse base ps sel))).
Proof.
  unfold variant_at, _scrape_variant, goto. simpl.
  destruct (nav_ok (web n (variant_url urlparse base ps sel))); reflexivity.
Qed.

Lemma variant_at_available n base ps sel v :
  variant_at urlparse web n base ps sel = Some v ->
  available v = negb (is_nil (pricing v)) /\ sku v = None.
Proof.
  unfold variant_at, _scrape_variant, goto. simpl.
  destruct (nav_ok (web n (variant_url urlparse base ps sel))); [|discriminate].
  simpl. intros [= <-]. auto.
Qed.

(** The loop appends the variants of the navigations that return, makes
    one navigation and one pause for each combination, and nothing else. *)
Lemma scrape_loop_spec base ps combos : forall acc b,
  fst (scrape_loop urlparse web base ps combos acc b)
  = acc ++ gathered urlparse web (navigations b) base ps combos
  /\ log (snd (scrape_loop urlparse web base ps combos acc b))
     = log b ++ visits urlparse base ps combos
  /\ navigations (snd (scrape_loop urlparse web base ps combos acc b))
     = (navigations b + List.length combos)%nat.
Proof.
  unfold gathered, visits.
  induction combos as [|combo rest IH]; intros acc b.
  - simpl. rewrite !app_nil_r. auto.
  - simpl scrape_loop. rewrite scrape_variant_spec.
    match goal with |- context [scrape_loop _ _ _ _ rest ?a ?b'] =>
      destruct (IH a b') as (H1 & H2 & H3) end.
    rewrite H1, H2, H3. simpl.
    split; [|split; [now rewrite <- !app_assoc|lia]].
    destruct (variant_at urlparse web (navigations b) base ps (selection_of combo));
      simpl; [now rewrite <- app_assoc|reflexivity].
Qed.

Lemma somes_nil {A} (l : list (option A)) : is_nil (somes l) = forallb is_none l.
Proof.
  induction l as [|[x|] r IH]; simpl; auto.
Qed.

Lemma gathered_nil n base ps combos :
  is_nil (gathered urlparse web n base ps combos) = all_fail urlparse web n base ps combos.
Proof. apply somes_nil. Qed.

(** The variant of a navigation that returns is gathered, whatever the other
    navigations do. *)
Lemma gathered_In combos : forall n i combo v base ps,
  nth_error combos i = Some combo ->
  variant_at urlparse web (n + i) base ps (selection_of combo) = Some v ->
  In v (gathered urlparse web n base ps combos).
Proof.
  unfold gathered.
  induction combos as [|c rest IH]; intros n i combo v base ps Hn Hv.
  - destruct i; discriminate.
  - destruct i as [|i]; simpl in Hn.
    + injection Hn as ->. rewrite Nat.add_0_r in Hv. simpl. rewrite Hv. now left.
    + simpl. replace (n + S i)%nat with (S n + i)%nat in Hv by lia.
      specialize (IH _ _ _ _ _ _ Hn Hv).
      destruct (variant_at urlparse web n base ps (selection_of c)); [now right|exact IH].
Qed.

(** The gathered variants are in the order of their combinations. *)
Lemma gathered_app n base ps c1 c2 :
  gathered urlparse web n base ps (c1 ++ c2)
  = gathered urlparse web n base ps c1
    ++ gathered urlparse web (n + List.length c1) base ps c2.
Proof.
  unfold gathered. revert n. induction c1 as [|c r IH]; intros n; simpl.
  - now rewrite Nat.add_0_r.
  - rewrite IH. replace (S n + List.length r)%nat with (n + S (List.length r))%nat by lia.
    now destruct (variant_at urlparse web n base ps (selection_of c)).
Qed.

Lemma gathered_available combos : forall n base ps,
  Forall (fun v => available v = negb (is_nil (pricing v)))
         (gathered urlparse web n base ps combos).
Proof.
  unfold gathered. induction combos as [|c rest IH]; intros n base ps; simpl; [constructor|].
  destruct (variant_at urlparse web n base ps (selection_of c)) as [v|] eqn:E; [|apply IH].
  constructor; [|apply IH]. now apply variant_at_available in E as [E _].
Qed.

(** [_scrape_variant] returns nothing for exactly the combinations whose
    navigation raises. *)
Lemma outcomes_none combos : forall n base ps,
  map is_none (outcomes urlparse web (S n) base ps combos)
  = map (fun ic => negb (nav_ok (web (S (fst ic))
                                     (variant_url urlparse base ps (selection_of (snd ic))))))
        (combine (seq n (List.length combos)) combos).
Proof.
  induction combos as [|c rest IH]; intros n base ps; simpl; [reflexivity|].
  rewrite variant_at_ok. f_equal. apply IH.
Qed.

Lemma base_fallback_spec vs b :
  base_fallback vs b =
    if is_nil vs
    then (if is_nil (_extract_pricing (current b)) then []
          else [base_variant (_extract_pricing (current b))])
    else vs.
Proof.
  unfold base_fallback. destruct vs; [|reflexivity]. simpl.
  now destruct (_extract_pricing (current b)).
Qed.

(** The run, when the product page loads. *)
Lemma scrape_returned product_url :
  let url := effective_url product_url in
  let base := Url.before_question url in
  let ps := Url._parse_url_params urlparse parse_qs url in
  let opts := _discover_options (nav_page (web 0%nat url)) in
  let combos := all_combinations opts in
  nav_ok (web 0%nat url) = true ->
  exists b,
    scrape urlparse parse_qs web product_url
    = (Returned {| source_url := url;
                   options := map format_option opts;
                   variants := base_fallback (gathered urlparse web 1%nat base ps combos) b |},
       b)
    /\ log b = Goto url :: visits urlparse base ps combos
    /\ navigations b = S (List.length combos).
Proof.
  intros url base ps opts combos Hok. unfold scrape. fold url.
  unfold goto. simpl navigations. rewrite Hok. simpl log. simpl current.
  fold base ps opts combos.
  match goal with |- context [scrape_loop _ _ _ _ _ _ ?b0] =>
    destruct (scrape_loop_spec base ps combos [] b0) as (H1 & H2 & H3);
    destruct (scrape_loop urlparse web base ps combos [] b0) as [vs b] end.
  simpl in H1, H2, H3. exists b. subst vs. auto.
Qed.

(** The run, when the load of the product page raises. *)
Lemma scrape_raised product_url :
  nav_ok (web 0%nat (effective_url product_url)) = false ->
  scrape urlparse parse_qs web product_url
  = (Raised, {| log := [Goto (effective_url product_url)];
                navigations := 1%nat;
                current := nav_page (web 0%nat (effective_url product_url)) |}).
Proof.
  intros Hf. unfold scrape, goto. simpl. now rewrite Hf.
Qed.

Lemma scrape_returned_inv product_url r b :
  scrape urlparse parse_qs web product_url = (Returned r, b) ->
  nav_ok (web 0%nat (effective_url product_url)) = true.
Proof.
  intros H. destruct (nav_ok (web 0%nat (effective_url product_url))) eqn:E; [reflexivity|].
  rewrite (scrape_raised _ E) in H. discriminate.
Qed.
End Run.
End ScraperFacts.

Section ScraperProperties.
Import Discovery Enumerator Pricing Scraper StringFacts ScraperFacts RequoteFacts UrlFacts.

(** C8. The axes of every selection of a run control pairwise distinct
    query parameters.  For a selection of this kind, whatever the base URL
    and the base parameters, the requoted URL carries the query string of
    the overlaid
    parameters; in these, the parameter of each selected axis holds the
    identifier of the chosen value, and every parameter no axis controls is
    there with its name and value, in the same order as in the base
    parameters; reading the query string back gives exactly these
    parameters. *)
Theorem C8_requote_overlay :
  (forall (pg : page) (combo : list item),
      In combo (all_combinations (_discover_options pg)) ->
      NoDup (axis_params (selection_of combo)))
  /\
  forall (urlparse : string -> Url.ParseResult) (base_url : string)
         (base_params : PyDict.dict string) (sel : PyDict.dict item),
    NoDup (axis_params sel) ->
    let ps := requote_params base_params sel in
    let loc := urlparse base_url in
    variant_url urlparse base_url base_params sel
    = (Url.urlunparse {| Url.scheme := Url.scheme loc; Url.netloc := Url.netloc loc;
                         Url.path := Url.path loc; Url.params := "";
                         Url.query := ""; Url.fragment := "" |}
       ++ match ps with
          | [] => ""
          | _ => "?" ++ Url.urlencode ps
          end)%string
    /\ Url.read_query (Url.urlencode ps) = ps
    /\ Forall (fun kv => PyDict.get ps (item_spf_param (snd kv)) = Some (item_id (snd kv)))
              sel
    /\ (forall k : string, ~ In k (axis_params sel) ->
                           PyDict.get ps k = PyDict.get base_params k)
    /\ filter (fun e => negb (is_axis_param sel (fst e))) ps
       = filter (fun e => negb (is_axis_param sel (fst e))) base_params.
Proof.
  split; [exact run_selection_axis_params|].
  intros urlparse base_url base_params sel Hnd ps loc.
  split; [|split; [apply read_query_urlencode|split; [now apply requote_get_axis|split]]].
  - unfold variant_url, Url._build_url_with_params. fold ps loc.
    destruct ps as [|kv r] eqn:E.
    + unfold Url.urlunparse. simpl.
      repeat match goal with |- context [if ?c then _ else _] => destruct c end;
        now rewrite ?append_nil_r.
    + rewrite urlunparse_query; [reflexivity|reflexivity|].
      simpl Url.query. unfold Url.urlencode. simpl map.
      destruct (map Url.encode_pair r).
      * apply encode_pair_not_empty.
      * rewrite join_amp_cons. pose proof (encode_pair_not_empty kv) as H.
        destruct (Url.encode_pair kv); [discriminate|reflexivity].
  - intros k Hk. now apply requote_get_other.
  - apply requote_frame. apply incl_refl.
Qed.

Lemma C8_requote_overlay_witness :
  variant_url Examples.bizay_urlparse "https://us.bizay.com/en-us/business-cards-2"
              Examples.default_params Examples.last_selection
  = "https://us.bizay.com/en-us/business-cards-2?id=443495438&spf0=1411&spf1=1399&spf2=1406&spf3=1421&productGroupId=1386&indexManagementId=3"
  /\ PyDict.get (requote_params Examples.default_params Examples.last_selection) "productGroupId"
     = Some "1386".
Proof.
  assert (Hnd : NoDup (axis_params Examples.last_selection)).
  { apply (proj1 C8_requote_overlay blank_page Examples.last_combination).
    vm_compute. do 11 right. left. reflexivity. }
  destruct (proj2 C8_requote_overlay Examples.bizay_urlparse
              "https://us.bizay.com/en-us/business-cards-2"
              Examples.default_params Examples.last_selection Hnd)
    as (Hurl & _ & _ & Hframe & _).
  split.
  - rewrite Hurl. vm_compute. reflexivity.
  - rewrite Hframe; [vm_compute; reflexivity|].
    vm_compute. intuition discriminate.
Defined.

(** C9.  [scrape] makes a single attempt to load the product page: when it
    raises, the run ends with that one navigation in its log, without
    pause or second attempt, whereas the load of the sibling scraper makes
    up to three attempts two seconds apart and succeeds on the same site.
    After the product page has loaded, each selection is navigated exactly
    once, a pause following each navigation, and the variant of every
    navigation that returns is in the record, whichever other navigations
    raise. *)
Theorem C9_single_attempt_loads :
  (forall (urlparse : string -> Url.ParseResult)
          (parse_qs : string -> PyDict.dict (list string))
          (web : site) (product_url : option string),
      nav_ok (web 0%nat (effective_url product_url)) = false ->
      fst (scrape urlparse parse_qs web product_url) = Raised
      /\ log (snd (scrape urlparse parse_qs web product_url))
         = [Goto (effective_url product_url)])
  /\ (fst (scrape Examples.bizay_urlparse Examples.bizay_parse_qs Examples.flaky_site None)
      = Raised
      /\ fst (goto_with_retries Examples.flaky_site DEFAULT_PRODUCT_URL max_retries new_page)
         = true
      /\ log (snd (goto_with_retries Examples.flaky_site DEFAULT_PRODUCT_URL
                                     max_retries new_page))
         = [Goto DEFAULT_PRODUCT_URL; Sleep 2000; Goto DEFAULT_PRODUCT_URL])
  /\ (forall (urlparse : string -> Url.ParseResult)
             (parse_qs : string -> PyDict.dict (list string))
             (web : site) (product_url : option string)
             (r : matrix_record) (b : browser),
      scrape urlparse parse_qs web product_url = (Returned r, b) ->
      let url := effective_url product_url in
      let base := Url.before_question url in
      let ps := Url._parse_url_params urlparse parse_qs url in
      let combos := all_combinations (_discover_options (nav_page (web 0%nat url))) in
      log b = Goto url :: visits urlparse base ps combos
      /\ forall (i : nat) (combo : list item) (v : variant),
          nth_error combos i = Some combo ->
          variant_at urlparse web (S i) base ps (selection_of combo) = Some v ->
          In v (variants r)).
Proof.
  split; [|split; [vm_compute; auto|]].
  - intros urlparse parse_qs web product_url Hf.
    rewrite (scrape_raised urlparse parse_qs web _ Hf). auto.
  - intros urlparse parse_qs web product_url r b Hs url base ps combos.
    subst url base ps combos.
    pose proof (scrape_returned_inv _ _ _ _ _ _ Hs) as Hok.
    destruct (scrape_returned urlparse parse_qs web product_url Hok) as (b' & Hs' & Hlog & _).
    rewrite Hs in Hs'. injection Hs' as -> <-.
    split; [exact Hlog|]. intros i combo v Hn Hv. simpl variants.
    pose proof (gathered_In urlparse web _ 1%nat _ _ _ _ _ Hn Hv) as Hin.
    rewrite base_fallback_spec.
    destruct (gathered _ _ _ _ _ _); [contradiction|exact Hin].
Qed.

Lemma C9_single_attempt_loads_witness :
  fst (scrape Examples.bizay_urlparse Examples.bizay_parse_qs Examples.flaky_site None)
  = Raised
  /\ (exists r b,
        scrape Examples.bizay_urlparse Examples.bizay_parse_qs
               Examples.one_variant_down_site None = (Returned r, b)
        /\ List.length (log b) = 25%nat
        /\ List.length (variants r) = 11%nat).
Proof.
  split.
  - apply (proj1 C9_single_attempt_loads Examples.bizay_urlparse Examples.bizay_parse_qs
                 Examples.flaky_site None). reflexivity.
  - destruct (scrape Examples.bizay_urlparse Examples.bizay_parse_qs
                     Examples.one_variant_down_site None) as [[r|] b] eqn:E.
    + exists r, b. split; [reflexivity|].
      destruct (proj2 (proj2 C9_single_attempt_loads) _ _ _ _ _ _ E) as [Hlog _].
      split; [rewrite Hlog; vm_compute; reflexivity|].
      vm_compute in E. injection E as <- _. reflexivity.
    + vm_compute in E. discriminate.
Defined.

(** C10, as the code has it.  The record holds the variants the loop
    gathered, one for every selection whose [_scrape_variant] returned,
    whether or not it found prices (its availability tells); only when it
    gathered none, that is when no selection existed or every
    [_scrape_variant] returned nothing because its navigation raised, does
    the assembler extract pricing from the currently loaded page, and then
    it adds, if any tiers result, exactly one variant with an empty
    selection and availability true. *)
Theorem C10_base_fallback :
  forall (urlparse : string -> Url.ParseResult)
         (parse_qs : string -> PyDict.dict (list string))
         (web : site) (product_url : option string)
         (r : matrix_record) (b : browser),
    scrape urlparse parse_qs web product_url = (Returned r, b) ->
    let url := effective_url product_url in
    let base := Url.before_question url in
    let ps := Url._parse_url_params urlparse parse_qs url in
    let combos := all_combinations (_discover_options (nav_page (web 0%nat url))) in
    let tiers := _extract_pricing (current b) in
    variants r
    = (if all_fail urlparse web 1%nat base ps combos
       then (if is_nil tiers then [] else [base_variant tiers])
       else gathered urlparse web 1%nat base ps combos)
    /\ Forall (fun v => available v = negb (is_nil (pricing v)))
              (gathered urlparse web 1%nat base ps combos)
    /\ map is_none (outcomes urlparse web 1%nat base ps combos)
       = map (fun ic => negb (nav_ok (web (S (fst ic))
                                          (variant_url urlparse base ps
                                                       (selection_of (snd ic))))))
             (combine (seq 0 (List.length combos)) combos).
Proof.
  intros urlparse parse_qs web product_url r b Hs url base ps combos tiers.
  subst url base ps combos tiers.
  pose proof (scrape_returned_inv _ _ _ _ _ _ Hs) as Hok.
  destruct (scrape_returned urlparse parse_qs web product_url Hok) as (b' & Hs' & _).
  rewrite Hs in Hs'. injection Hs' as -> <-.
  split; [|split].
  - simpl variants. rewrite base_fallback_spec, gathered_nil. reflexivity.
  - apply gathered_available.
  - apply outcomes_none.
Qed.

Lemma C10_base_fallback_witness :
  exists r b,
    scrape Examples.bizay_urlparse Examples.bizay_parse_qs
           Examples.variants_down_site None = (Returned r, b)
    /\ variants r = [base_variant (_extract_pricing Examples.priced_page)].
Proof.
  destruct (scrape Examples.bizay_urlparse Examples.bizay_parse_qs
                   Examples.variants_down_site None) as [[r|] b] eqn:E.
  - exists r, b. split; [reflexivity|].
    rewrite (proj1 (C10_base_fallback _ _ _ _ _ _ E)).
    vm_compute in E. injection E as _ <-.
    vm_compute. reflexivity.
  - vm_compute in E. discriminate.
Defined.

(** The claim as stated fails on a site where the first variant page loads
    without a price table and every later navigation raises on a page that
    shows prices: selections existed, every [_scrape_variant] returned
    nothing or a variant without pricing, the page loaded at the end yields
    tiers, and yet the record holds no variant with an empty selection. *)
Lemma C10_counterexample_unpriced_variant :
  exists r b,
    scrape Examples.bizay_urlparse Examples.bizay_parse_qs
           Examples.unpriced_variant_site None = (Returned r, b)
    /\ List.length (all_combinations (_discover_options blank_page)) = 12%nat
    /\ Forall (fun o => match o with
                        | Some v => pricing v = []
                        | None => True
                        end)
              (outcomes Examples.bizay_urlparse Examples.unpriced_variant_site 1%nat
                        (Url.before_question DEFAULT_PRODUCT_URL)
                        Examples.default_params
                        (all_combinations (_discover_options blank_page)))
    /\ _extract_pricing (current b) <> []
    /\ Forall (fun v => selection v <> [] /\ available v = false) (variants r).
Proof.
  eexists. eexists. split; [vm_compute; reflexivity|].
  split; [reflexivity|]. split; [|split].
  - vm_compute. repeat constructor.
  - vm_compute. discriminate.
  - vm_compute. repeat constructor; discriminate.
Qed.
End ScraperProperties.

Module RecordFacts.
Import Discovery Enumerator Pricing Scraper ListFacts PricingFacts DiscoveryFacts
       EnumeratorFacts ScraperFacts.

(** An entry the passes accepted carries a truthy quantity. *)
Lemma in_bounds_truthy p :
  in_bounds (raw_quantity p) (raw_total p) = true ->
  exists q, truthy (raw_quantity p) = Some q.
Proof.
  destruct (raw_quantity p) as [q|] eqn:E; [|discriminate].
  intros H. apply in_bounds_true in H as [H _]. exists q.
  destruct q; simpl; try reflexivity. lia.
Qed.

Lemma dedupe_length data : forall seen,
  (List.length (dedupe seen data []) <= List.length data)%nat.
Proof.
  induction data as [|p rest IH]; intros seen; [simpl; lia|].
  rewrite dedupe_cons.
  destruct (truthy (raw_quantity p)) as [q|]; [|specialize (IH seen); simpl; lia].
  destruct (decide (q ∈ seen)).
  - specialize (IH seen). simpl. lia.
  - specialize (IH ({[q]} ∪ seen)). simpl. lia.
Qed.

Lemma dedupe_skips seen data :
  Forall (fun p => truthy (raw_quantity p) = None) data -> dedupe seen data [] = [].
Proof.
  induction 1 as [|p rest Hp _ IH]; [reflexivity|].
  rewrite dedupe_cons, Hp. exact IH.
Qed.

Lemma dedupe_app_skips data extra : forall seen,
  Forall (fun p => truthy (raw_quantity p) = None) extra ->
  dedupe seen (data ++ extra) [] = dedupe seen data [].
Proof.
  induction data as [|p rest IH]; intros seen H; simpl app.
  - now apply dedupe_skips.
  - rewrite !dedupe_cons. destruct (truthy (raw_quantity p)) as [q|]; [|now apply IH].
    destruct (decide (q ∈ seen)); [now apply IH|]. f_equal. now apply IH.
Qed.

Lemma sort_length {A} (key : A -> Z) l : List.length (PySort.sort key l) = List.length l.
Proof. apply Permutation_length, PySortFacts.sort_perm. Qed.

Lemma scan_main_price_skipped mp :
  Forall (fun p => truthy (raw_quantity p) = None) (scan_main_price mp).
Proof.
  unfold scan_main_price. destruct mp as [text|]; [|constructor].
  destruct (JS.match_price text); repeat constructor.
Qed.

(** The tiers of a page are those of the pairs the two passes accepted. *)
Lemma extract_pricing_passes pg :
  evaluate_ok pg = true ->
  _extract_pricing pg
  = tiers_of (flat_map scan_row (rows pg) ++ flat_map scan_cells (tables pg)).
Proof.
  intros Hok. unfold _extract_pricing, evaluate_pricing. rewrite Hok.
  unfold tiers_of, pricing_script. rewrite app_assoc.
  now rewrite dedupe_app_skips by apply scan_main_price_skipped.
Qed.

Lemma tiers_of_nil data :
  Forall (fun p => in_bounds (raw_quantity p) (raw_total p) = true) data ->
  tiers_of data = [] -> data = [].
Proof.
  intros Hall Hnil. destruct data as [|p rest]; [reflexivity|]. exfalso.
  inversion Hall as [|? ? Hp _]; subst.
  destruct (in_bounds_truthy _ Hp) as [q Hq].
  apply (f_equal (@List.length _)) in Hnil. unfold tiers_of in Hnil.
  rewrite sort_length, dedupe_cons, Hq in Hnil.
  destruct (decide (q ∈ (∅ : gset Z))) as [Hin|_]; [|discriminate].
  now apply not_elem_of_empty in Hin.
Qed.
End RecordFacts.

Section RecordProperties.
Import Discovery Enumerator Pricing Scraper ListFacts PricingFacts DiscoveryFacts
       EnumeratorFacts ScraperFacts RecordFacts.

(** X1. The tier list of a page is empty exactly when [page.evaluate]
    raises or neither scanning pass accepts a pair: the "current price"
    element alone never yields a tier.  The tiers are those of the accepted
    pairs, and never more than these. *)
Theorem X1_tiers_come_from_the_passes : forall pg : page,
  let accepted := flat_map scan_row (rows pg) ++ flat_map scan_cells (tables pg) in
  (_extract_pricing pg = [] <-> evaluate_ok pg = false \/ accepted = [])
  /\ (List.length (_extract_pricing pg) <= List.length accepted)%nat
  /\ _extract_pricing pg = (if evaluate_ok pg then tiers_of accepted else []).
Proof.
  intros pg accepted. destruct (evaluate_ok pg) eqn:Hok.
  - rewrite (extract_pricing_passes pg Hok). fold accepted. split; [|split].
    + split.
      * intros H. right. apply tiers_of_nil; [apply passes_ok|exact H].
      * intros [H|H]; [discriminate|]. now rewrite H.
    + unfold tiers_of. rewrite sort_length. apply dedupe_length.
    + reflexivity.
  - unfold _extract_pricing, evaluate_pricing. rewrite Hok. split; [|split].
    + split; auto.
    + simpl. lia.
    + reflexivity.
Qed.
End RecordProperties.

Module RunFacts.
Import Discovery Enumerator Pricing Scraper ListFacts PricingFacts DiscoveryFacts
       EnumeratorFacts ScraperFacts.

(** What a variant publishes of its selection (lines 342-345). *)
Lemma variant_at_selection urlparse web n base ps sel v :
  variant_at urlparse web n base ps sel = Some v ->
  selection v = map (fun kv => (fst kv, {| value_text := item_value (snd kv);
                                           value_id := item_id (snd kv) |})) sel.
Proof.
  unfold variant_at, _scrape_variant, goto. simpl.
  destruct (nav_ok (web n (variant_url urlparse base ps sel))); [|discriminate].
  simpl. now intros [= <-].
Qed.

Lemma gathered_from urlparse web combos : forall n base ps v,
  In v (gathered urlparse web n base ps combos) ->
  exists i combo, nth_error combos i = Some combo
                  /\ variant_at urlparse web (n + i) base ps (selection_of combo) = Some v.
Proof.
  unfold gathered. induction combos as [|c rest IH]; intros n base ps v Hin; [contradiction|].
  simpl in Hin.
  destruct (variant_at urlparse web n base ps (selection_of c)) as [w|] eqn:E.
  - destruct Hin as [<-|Hin].
    + exists 0%nat, c. rewrite Nat.add_0_r. auto.
    + destruct (IH _ _ _ _ Hin) as (i & combo & Hn & Hv).
      exists (S i), combo. replace (n + S i)%nat with (S n + i)%nat by lia. auto.
  - destruct (IH _ _ _ _ Hin) as (i & combo & Hn & Hv).
    exists (S i), combo. replace (n + S i)%nat with (S n + i)%nat by lia. auto.
Qed.

Lemma gathered_length urlparse web combos : forall n base ps,
  (List.length (gathered urlparse web n base ps combos) <= List.length combos)%nat.
Proof.
  unfold gathered. induction combos as [|c rest IH]; intros n base ps; simpl; [lia|].
  specialize (IH (S n) base ps).
  destruct (variant_at urlparse web n base ps (selection_of c)); simpl; lia.
Qed.

(** The gathered variants follow the order of the combinations. *)
Lemma gathered_sublist urlparse web combos : forall n base ps,
  sublist (map selection (gathered urlparse web n base ps combos))
          (map (fun combo =>
                  map (fun kv => (fst kv, {| value_text := item_value (snd kv);
                                             value_id := item_id (snd kv) |}))
                      (selection_of combo)) combos).
Proof.
  unfold gathered. induction combos as [|c rest IH]; intros n base ps; simpl; [constructor|].
  destruct (variant_at urlparse web n base ps (selection_of c)) as [w|] eqn:E; simpl.
  - rewrite (variant_at_selection _ _ _ _ _ _ _ E). apply sublist_skip, IH.
  - apply sublist_cons, IH.
Qed.

Lemma list_prod_pos l : Forall (fun n => (1 <= n)%nat) l -> (1 <= list_prod l)%nat.
Proof.
  induction 1 as [|n l Hn _ IH]; simpl; [lia|]. nia.
Qed.

(** The combinations of a run: as many as the product of the value counts
    of the axes, and at least one. *)
Lemma run_combinations pg :
  all_combinations (_discover_options pg) = product (option_value_lists (_discover_options pg))
  /\ List.length (all_combinations (_discover_options pg))
     = list_prod (map (fun o => List.length (group_values o)) (_discover_options pg))
  /\ (1 <= List.length (all_combinations (_discover_options pg)))%nat
  /\ filter has_values (_discover_options pg) = _discover_options pg.
Proof.
  destruct (discover_options_sufficient pg) as [Hlen Hne].
  assert (Hex : option_value_lists (_discover_options pg) <> []).
  { apply some_axis_has_values.
    destruct (_discover_options pg) as [|o r]; [simpl in Hlen; lia|].
    inversion Hne; subst. now apply Exists_cons_hd. }
  assert (Hl : List.length (all_combinations (_discover_options pg))
               = list_prod (map (fun o => List.length (group_values o)) (_discover_options pg))).
  { rewrite (all_combinations_product _ Hex), product_length, axis_sizes_lists.
    now rewrite axis_sizes_all. }
  split; [now apply all_combinations_product|]. split; [exact Hl|]. split.
  - rewrite Hl. apply list_prod_pos. rewrite List.Forall_map.
    eapply List.Forall_impl; [|exact Hne]. simpl. intros o Ho.
    destruct (group_values o); [congruence|simpl; lia].
  - clear -Hne. induction Hne as [|o r Ho _ IH]; simpl; [reflexivity|].
    unfold has_values at 1. destruct (group_values o); [congruence|]. now rewrite IH.
Qed.

Lemma total_values_sufficient pg : (4 <= total_values (_discover_options pg))%nat.
Proof.
  destruct (discover_options_cases pg) as [[_ ->]|[E ->]].
  - vm_compute. lia.
  - unfold insufficient in E. apply orb_false_iff in E as [_ E].
    now apply Nat.ltb_ge in E.
Qed.
End RunFacts.

Section RunProperties.
Import Discovery Enumerator Pricing Scraper ListFacts PricingFacts DiscoveryFacts
       EnumeratorFacts ScraperFacts RecordFacts RunFacts.

(** X2. In every record [scrape] returns, a variant is flagged available
    exactly when it carries at least one price tier, and its SKU is unset:
    this holds of the variants of the selections and of the variant of the
    base configuration, whose flag is the constant [True]. *)
Theorem X2_available_iff_priced :
  forall (urlparse : string -> Url.ParseResult)
         (parse_qs : string -> PyDict.dict (list string))
         (web : site) (product_url : option string)
         (r : matrix_record) (b : browser),
    scrape urlparse parse_qs web product_url = (Returned r, b) ->
    Forall (fun v => available v = negb (is_nil (pricing v)) /\ sku v = None)
           (variants r).
Proof.
  intros urlparse parse_qs web product_url r b Hs.
  pose proof (scrape_returned_inv _ _ _ _ _ _ Hs) as Hok.
  destruct (scrape_returned urlparse parse_qs web product_url Hok) as (b' & Hs' & _).
  rewrite Hs in Hs'. injection Hs' as -> <-. simpl variants.
  rewrite base_fallback_spec.
  destruct (is_nil (gathered _ _ _ _ _ _)) eqn:E.
  - destruct (_extract_pricing (current b)) eqn:Et; simpl; repeat constructor.
  - apply List.Forall_forall. intros v Hv.
    apply gathered_from in Hv as (i & combo & _ & Hv).
    now apply variant_at_available in Hv.
Qed.

Lemma X2_available_iff_priced_witness :
  exists r b,
    scrape Examples.bizay_urlparse Examples.bizay_parse_qs
           Examples.one_variant_down_site None = (Returned r, b)
    /\ Forall (fun v => available v = negb (is_nil (pricing v)) /\ sku v = None)
              (variants r).
Proof.
  destruct (scrape Examples.bizay_urlparse Examples.bizay_parse_qs
                   Examples.one_variant_down_site None) as [[r|] b] eqn:E.
  - exists r, b. split; [reflexivity|].
    exact (X2_available_iff_priced _ _ _ _ _ _ E).
  - vm_compute in E. discriminate.
Defined.

(** X3. In every record [scrape] returns, a variant either has the empty
    selection of the base configuration or selects, for each option of the
    record and in the order of the options, one of the values listed under
    that option, under the key of that option; the selections of the
    variants follow the order of the enumeration. *)
Theorem X3_selections_refer_to_options :
  forall (urlparse : string -> Url.ParseResult)
         (parse_qs : string -> PyDict.dict (list string))
         (web : site) (product_url : option string)
         (r : matrix_record) (b : browser),
    scrape urlparse parse_qs web product_url = (Returned r, b) ->
    Forall (fun v =>
              selection v = []
              \/ Forall2 (fun kv o => fst kv = key o /\ In (snd kv) (values o))
                         (selection v) (options r))
           (variants r)
    /\ (variants r = [base_variant (_extract_pricing (current b))]
        \/ sublist (map selection (variants r))
                   (map (fun combo =>
                           map (fun kv => (fst kv, {| value_text := item_value (snd kv);
                                                      value_id := item_id (snd kv) |}))
                               (selection_of combo))
                        (all_combinations
                           (_discover_options
                              (nav_page (web 0%nat (effective_url product_url))))))).
Proof.
  intros urlparse parse_qs web product_url r b Hs.
  pose proof (scrape_returned_inv _ _ _ _ _ _ Hs) as Hok.
  destruct (scrape_returned urlparse parse_qs web product_url Hok) as (b' & Hs' & _).
  rewrite Hs in Hs'. injection Hs' as -> <-. simpl variants. simpl options.
  set (opts := _discover_options (nav_page (web 0%nat (effective_url product_url)))).
  rewrite base_fallback_spec.
  destruct (is_nil (gathered _ _ _ _ _ _)) eqn:E.
  - destruct (_extract_pricing (current b)) eqn:Et; simpl.
    + split; [constructor|]. right. constructor || apply sublist_nil_l.
    + split; [repeat constructor|]. now left.
  - split; [|right; apply gathered_sublist].
    apply List.Forall_forall. intros v Hv. right.
    apply gathered_from in Hv as (i & combo & Hn & Hv).
    rewrite (variant_at_selection _ _ _ _ _ _ _ Hv).
    apply nth_error_In in Hn.
    destruct (run_combinations (nav_page (web 0%nat (effective_url product_url))))
      as (Hprod & _ & _ & Hfilter).
    fold opts in Hprod, Hfilter, Hn. rewrite Hprod in Hn.
    pose proof (selections_assign opts combo
                  (proj1 (discover_options_distinct _)) Hn) as Ha.
    rewrite Hfilter in Ha. clear -Ha.
    induction Ha as [|kv o sel axes [Hk Hv] _ IH]; simpl; constructor; [|exact IH].
    simpl. split; [exact Hk|].
    unfold values_with_meta in Hv. apply in_map_iff in Hv as (val & <- & Hin).
    simpl. now destruct val.
Qed.

Lemma X3_selections_refer_to_options_witness :
  exists r b,
    scrape Examples.bizay_urlparse Examples.bizay_parse_qs
           Examples.one_variant_down_site None = (Returned r, b)
    /\ Forall (fun v =>
                 selection v = []
                 \/ Forall2 (fun kv o => fst kv = key o /\ In (snd kv) (values o))
                            (selection v) (options r))
              (variants r).
Proof.
  destruct (scrape Examples.bizay_urlparse Examples.bizay_parse_qs
                   Examples.one_variant_down_site None) as [[r|] b] eqn:E.
  - exists r, b. split; [reflexivity|].
    exact (proj1 (X3_selections_refer_to_options _ _ _ _ _ _ E)).
  - vm_compute in E. discriminate.
Defined.

(** X4. Every record [scrape] returns lists at least two options, each with
    at least one value, and at least four values in all; the run then makes
    one navigation for the product page and one for each combination of
    values, at least one, and the record holds at most as many variants as
    there are combinations. *)
Theorem X4_run_shape :
  forall (urlparse : string -> Url.ParseResult)
         (parse_qs : string -> PyDict.dict (list string))
         (web : site) (product_url : option string)
         (r : matrix_record) (b : browser),
    scrape urlparse parse_qs web product_url = (Returned r, b) ->
    let combinations := list_prod (map (fun o => List.length (values o)) (options r)) in
    (2 <= List.length (options r))%nat
    /\ Forall (fun o => values o <> []) (options r)
    /\ (4 <= list_sum (map (fun o => List.length (values o)) (options r)))%nat
    /\ (1 <= combinations)%nat
    /\ navigations b = S combinations
    /\ (List.length (variants r) <= combinations)%nat.
Proof.
  intros urlparse parse_qs web product_url r b Hs.
  pose proof (scrape_returned_inv _ _ _ _ _ _ Hs) as Hok.
  destruct (scrape_returned urlparse parse_qs web product_url Hok) as (b' & Hs' & _ & Hnav).
  rewrite Hs in Hs'. injection Hs' as -> <-. simpl variants. simpl options.
  set (opts := _discover_options (nav_page (web 0%nat (effective_url product_url)))) in *.
  destruct (discover_options_sufficient (nav_page (web 0%nat (effective_url product_url))))
    as [Hlen Hne].
  destruct (run_combinations (nav_page (web 0%nat (effective_url product_url))))
    as (_ & Hl & Hpos & _).
  pose proof (total_values_sufficient (nav_page (web 0%nat (effective_url product_url)))) as Ht.
  fold opts in Hlen, Hne, Hl, Hpos, Ht. unfold total_values in Ht.
  rewrite !map_map. simpl. rewrite length_map.
  repeat split; try assumption.
  - rewrite List.Forall_map. exact Hne.
  - now rewrite <- Hl.
  - now rewrite Hnav, Hl.
  - rewrite <- Hl, base_fallback_spec.
    destruct (is_nil (gathered _ _ _ _ _ _)) eqn:E; [|apply gathered_length].
    destruct (is_nil (_extract_pricing (current b))); simpl; lia.
Qed.

Lemma X4_run_shape_witness :
  exists r b,
    scrape Examples.bizay_urlparse Examples.bizay_parse_qs
           Examples.one_variant_down_site None = (Returned r, b)
    /\ navigations b = 13%nat.
Proof.
  destruct (scrape Examples.bizay_urlparse Examples.bizay_parse_qs
                   Examples.one_variant_down_site None) as [[r|] b] eqn:E.
  - exists r, b. split; [reflexivity|].
    destruct (X4_run_shape _ _ _ _ _ _ E) as (_ & _ & _ & _ & Hn & _).
    rewrite Hn. vm_compute in E. injection E as <- _. reflexivity.
  - vm_compute in E. discriminate.
Defined.
End RunProperties.

Module OccurrenceFacts.
Import Occurrence.

Lemma filter_filter {A : Type} (f g : A -> bool) (l : list A) :
  filter f (filter g l) = filter (fun x => g x && f x) l.
Proof.
  induction l as [|x r IH]; simpl; [reflexivity|].
  destruct (g x); simpl; [destruct (f x); now rewrite IH|exact IH].
Qed.

(** Keeping the names that satisfy [f] and taking first occurrences
    commute. *)
Lemma distinct_filter (f : string -> bool) (l : list string) :
  distinct (filter f l) = filter f (distinct l).
Proof.
  induction l as [|x r IH]; simpl; [reflexivity|].
  destruct (f x) eqn:E; simpl.
  - rewrite IH, !filter_filter. f_equal. apply filter_ext. intros y. apply andb_comm.
  - rewrite IH, filter_filter. apply filter_ext_in. intros y _.
    destruct (String.eqb_spec y x) as [->|]; simpl; [now rewrite E|reflexivity].
Qed.

Lemma distinct_In (l : list string) (x : string) : In x (distinct l) <-> In x l.
Proof.
  induction l as [|y r IH]; simpl; [tauto|].
  rewrite filter_In, IH. split.
  - intros [H|[H _]]; auto.
  - intros [H|H]; [auto|]. destruct (String.eqb_spec x y) as [->|Hne]; [auto|].
    right. split; [exact H|reflexivity].
Qed.

Lemma distinct_NoDup (l : list string) : NoDup (distinct l).
Proof.
  induction l as [|y r IH]; simpl; constructor.
  - rewrite filter_In. intros [_ H]. now rewrite String.eqb_refl in H.
  - now apply NoDup_filter.
Qed.

Lemma lacks_spec (present : list string) (k : string) :
  lacks present k = true <-> ~ In k present.
Proof.
  unfold lacks. rewrite negb_true_iff. split.
  - intros H Hin. assert (existsb (String.eqb k) present = true); [|congruence].
    apply existsb_exists. exists k. split; [exact Hin|apply String.eqb_refl].
  - intros H. destruct (existsb (String.eqb k) present) eqn:E; [|reflexivity].
    apply existsb_exists in E as (x & Hx & Hk). apply String.eqb_eq in Hk. now subst.
Qed.

(** The array of a set is the list of first occurrences. *)
Lemma set_order_distinct (l : list string) : forall seen : gset string,
  JSSet.set_order seen l = filter (fun y => negb (bool_decide (y ∈ seen))) (distinct l).
Proof.
  induction l as [|x r IH]; intros seen; simpl; [reflexivity|].
  destruct (decide (x ∈ seen)) as [Hx|Hx].
  - rewrite (bool_decide_eq_true_2 _ Hx). simpl. rewrite IH, filter_filter.
    apply filter_ext_in. intros y _.
    destruct (String.eqb_spec y x) as [->|]; simpl; [|reflexivity].
    now rewrite (bool_decide_eq_true_2 _ Hx).
  - rewrite (bool_decide_eq_false_2 _ Hx). simpl. f_equal.
    rewrite IH, filter_filter. apply filter_ext. intros y.
    destruct (String.eqb_spec y x) as [->|Hne]; simpl.
    + rewrite bool_decide_eq_true_2; [reflexivity|].
      apply elem_of_union. left. now apply elem_of_singleton.
    + apply f_equal. apply bool_decide_ext.
      rewrite elem_of_union, elem_of_singleton. tauto.
Qed.

Lemma set_order_empty_distinct (l : list string) : JSSet.set_order ∅ l = distinct l.
Proof.
  rewrite set_order_distinct. rewrite <- (filter_ext (fun _ => true)).
  - induction (distinct l) as [|x r IH]; simpl; [reflexivity|now rewrite IH].
  - intros y. rewrite bool_decide_eq_false_2; [reflexivity|apply not_elem_of_empty].
Qed.

End OccurrenceFacts.

Module OverlayFacts.
Import Enumerator Scraper PyDictFacts RequoteFacts Occurrence OccurrenceFacts.

Lemma keys_set_prefix (d : PyDict.dict string) k v :
  exists added, PyDict.keys (PyDict.set d k v) = PyDict.keys d ++ added
                /\ (added = [] /\ In k (PyDict.keys d)
                    \/ added = [k] /\ ~ In k (PyDict.keys d)).
Proof.
  rewrite keys_set. destruct (existsb (String.eqb k) (PyDict.keys d)) eqn:E.
  - exists []. rewrite app_nil_r. split; [reflexivity|]. left. split; [reflexivity|].
    apply existsb_exists in E as (x & Hx & Hk). apply String.eqb_eq in Hk. now subst.
  - exists [k]. split; [reflexivity|]. right. split; [reflexivity|].
    intros Hin. assert (existsb (String.eqb k) (PyDict.keys d) = true); [|congruence].
    apply existsb_exists. exists k. split; [exact Hin|apply String.eqb_refl].
Qed.

(** The names of the overlaid parameters: those of the base, in place,
    followed by the axis parameters the base lacks, each once. *)
Lemma requote_keys sel : forall base,
  exists added,
    PyDict.keys (requote_params base sel) = PyDict.keys base ++ added
    /\ NoDup added
    /\ Forall (fun k => In k (axis_params sel) /\ ~ In k (PyDict.keys base)) added.
Proof.
  induction sel as [|kv sel IH]; intros base.
  - exists []. rewrite app_nil_r. repeat constructor.
  - rewrite requote_params_cons.
    destruct (IH (PyDict.set base (item_spf_param (snd kv)) (item_id (snd kv))))
      as (added & Hk & Hnd & Hall).
    destruct (keys_set_prefix base (item_spf_param (snd kv)) (item_id (snd kv)))
      as (a0 & Hk0 & Hcase).
    rewrite Hk0 in Hk, Hall. exists (a0 ++ added).
    split; [now rewrite Hk, app_assoc|].
    destruct Hcase as [[-> Hin]|[-> Hnin]]; simpl.
    + rewrite app_nil_r in Hall. split; [exact Hnd|].
      eapply List.Forall_impl; [|exact Hall]. simpl. intros k [H1 H2]. auto.
    + split.
      * constructor; [|exact Hnd]. intros Hin.
        rewrite List.Forall_forall in Hall. destruct (Hall _ Hin) as [_ H].
        apply H. apply in_or_app. right. now left.
      * constructor; [split; [now left|exact Hnin]|].
        eapply List.Forall_impl; [|exact Hall]. simpl. intros k [H1 H2].
        split; [now right|]. intros Hin. apply H2. apply in_or_app. now left.
Qed.

(** The axis parameters the base lacks are appended in the order of their
    first occurrence in the selection. *)
Lemma requote_keys_exact sel : forall base,
  PyDict.keys (requote_params base sel)
  = PyDict.keys base ++ distinct (filter (lacks (PyDict.keys base)) (axis_params sel)).
Proof.
  induction sel as [|kv sel IH]; intros base.
  - simpl. now rewrite app_nil_r.
  - rewrite requote_params_cons, IH, keys_set.
    set (k := item_spf_param (snd kv)).
    change (axis_params (kv :: sel)) with (k :: axis_params sel).
    cbn [filter].
    assert (Hl : lacks (PyDict.keys base) k
                 = negb (existsb (String.eqb k) (PyDict.keys base))) by reflexivity.
    rewrite Hl.
    destruct (existsb (String.eqb k) (PyDict.keys base)) eqn:E; cbn [negb].
    + reflexivity.
    + rewrite <- app_assoc. f_equal. cbn [app distinct]. f_equal.
      rewrite <- distinct_filter, filter_filter. f_equal.
      apply filter_ext. intros y. unfold lacks.
      rewrite existsb_app. cbn [existsb]. rewrite orb_false_r, negb_orb.
      reflexivity.
Qed.

Lemma set_same (d : PyDict.dict string) k v : PyDict.get d k = Some v -> PyDict.set d k v = d.
Proof.
  induction d as [|[k0 v0] r IH]; simpl; [discriminate|].
  destruct (String.eqb_spec k0 k) as [->|Hne]; [now intros [= ->]|].
  intros H. now rewrite IH.
Qed.

Lemma requote_fixed sel : forall d,
  Forall (fun kv => PyDict.get d (item_spf_param (snd kv)) = Some (item_id (snd kv))) sel ->
  requote_params d sel = d.
Proof.
  induction sel as [|kv sel IH]; intros d H; [reflexivity|].
  inversion H as [|? ? Hkv Hrest]; subst.
  rewrite requote_params_cons, set_same by exact Hkv. now apply IH.
Qed.
End OverlayFacts.

Section OverlayProperties.
Import Enumerator Scraper PyDictFacts RequoteFacts Occurrence OccurrenceFacts OverlayFacts.

(** X5. The overlay of lines 324-327 never drops or moves a base
    parameter: the names of the requoted parameters are the names of the
    base parameters, in their order, followed by the axis parameters the
    base lacks, every one of them and each once, in the order in which the
    selection first names them; when the base has every axis parameter,
    the names are those of the base. *)
Theorem X5_requote_keeps_names :
  forall (base_params : PyDict.dict string) (sel : PyDict.dict item),
    PyDict.keys (requote_params base_params sel)
    = PyDict.keys base_params
      ++ distinct (filter (lacks (PyDict.keys base_params)) (axis_params sel))
    /\ (exists added,
        PyDict.keys (requote_params base_params sel) = PyDict.keys base_params ++ added
        /\ NoDup added
        /\ Forall (fun k => In k (axis_params sel) /\ ~ In k (PyDict.keys base_params))
                  added
        /\ forall k, In k (axis_params sel) -> ~ In k (PyDict.keys base_params) ->
                     In k added)
    /\ (List.length base_params <= List.length (requote_params base_params sel)
        <= List.length base_params + List.length sel)%nat
    /\ (incl (axis_params sel) (PyDict.keys base_params) ->
        PyDict.keys (requote_params base_params sel) = PyDict.keys base_params).
Proof.
  intros base sel. pose proof (requote_keys_exact sel base) as Hk.
  set (added := distinct (filter (lacks (PyDict.keys base)) (axis_params sel))) in *.
  assert (Hin : forall k, In k added
                          <-> In k (axis_params sel) /\ ~ In k (PyDict.keys base)).
  { intros k. subst added. rewrite distinct_In, filter_In, lacks_spec. tauto. }
  assert (Hnd : NoDup added) by apply distinct_NoDup.
  split; [exact Hk|]. split; [|split].
  - exists added. split; [exact Hk|]. split; [exact Hnd|]. split.
    + apply List.Forall_forall. intros k. apply Hin.
    + intros k H1 H2. apply Hin. auto.
  - apply (f_equal (@List.length _)) in Hk. unfold PyDict.keys in Hk.
    rewrite length_app, !length_map in Hk. split; [lia|]. rewrite Hk.
    apply Nat.add_le_mono_l.
    rewrite <- (length_map (fun kv => item_spf_param (snd kv)) sel).
    apply NoDup_incl_length; [exact Hnd|].
    intros k Hk'. now apply Hin.
  - intros Hincl. rewrite Hk. destruct added as [|k added']; [apply app_nil_r|].
    exfalso. destruct (proj1 (Hin k) (or_introl eq_refl)) as [H1 H2].
    apply H2, Hincl, H1.
Qed.

Lemma X5_requote_keeps_names_witness :
  PyDict.keys (requote_params Examples.default_params Examples.last_selection)
  = PyDict.keys Examples.default_params.
Proof.
  apply (proj2 (proj2 (proj2 (X5_requote_keeps_names Examples.default_params
                                                     Examples.last_selection)))).
  vm_compute. intros k H. repeat (destruct H as [<-|H]; [tauto|]). contradiction.
Defined.

(** X6. The overlay is idempotent: overlaying a selection whose axes
    control pairwise distinct parameters on parameters already overlaid
    with it changes nothing. *)
Theorem X6_requote_idempotent :
  forall (base_params : PyDict.dict string) (sel : PyDict.dict item),
    NoDup (axis_params sel) ->
    requote_params (requote_params base_params sel) sel = requote_params base_params sel.
Proof.
  intros base sel Hnd. apply requote_fixed. now apply requote_get_axis.
Qed.

Lemma X6_requote_idempotent_witness :
  requote_params (requote_params Examples.default_params Examples.last_selection)
                 Examples.last_selection
  = requote_params Examples.default_params Examples.last_selection.
Proof.
  apply X6_requote_idempotent.
  vm_compute. repeat constructor; simpl; intuition discriminate.
Defined.
End OverlayProperties.

Module ReadingFacts.
Import JS Pricing Shape StringFacts.
Local Open Scope string_scope.

Lemma take_while_app p d rest :
  all_chars p d = true -> stops p rest -> take_while p (d ++ rest) = d.
Proof.
  induction d as [|c d IH]; intros Hd Hr.
  - rewrite append_nil_l. destruct rest as [|c r]; [reflexivity|]. simpl in *. now rewrite Hr.
  - rewrite append_cons. simpl in *. apply andb_true_iff in Hd as [Hc Hd].
    rewrite Hc. now rewrite IH.
Qed.

Lemma drop_while_app p d rest :
  all_chars p d = true -> stops p rest -> drop_while p (d ++ rest) = rest.
Proof.
  induction d as [|c d IH]; intros Hd Hr.
  - rewrite append_nil_l. destruct rest as [|c r]; [reflexivity|]. simpl in *. now rewrite Hr.
  - rewrite append_cons. simpl in *. apply andb_true_iff in Hd as [Hc Hd].
    rewrite Hc. now apply IH.
Qed.

Lemma take_while_all p d : all_chars p d = true -> take_while p d = d.
Proof.
  intros H. rewrite <- (append_nil_r d) at 1. now apply take_while_app.
Qed.

Lemma remove_commas_digits d : digits d -> remove_commas d = d.
Proof.
  unfold digits. induction d as [|c d IH]; simpl; [reflexivity|].
  rewrite andb_true_iff. intros [Hc Hd].
  destruct (is_comma c) eqn:E.
  - unfold is_comma in E. apply Ascii.eqb_eq in E. subst. discriminate.
  - now rewrite IH.
Qed.

Lemma remove_commas_app a b : remove_commas (a ++ b) = remove_commas a ++ remove_commas b.
Proof.
  induction a as [|c a IH]; [reflexivity|].
  rewrite append_cons. simpl. destruct (is_comma c); [exact IH|].
  now rewrite append_cons, IH.
Qed.

(** The first alternative of the quantity pattern: a run of two digits or
    more is the match, whatever follows it. *)
Lemma match_quantity_run pre d rest :
  all_chars (fun c => negb (is_digit c)) pre = true ->
  digits d -> (2 <= String.length d)%nat -> stops is_digit rest ->
  match_quantity (pre ++ d ++ rest) = Some d.
Proof.
  intros Hpre Hd Hlen Hrest.
  induction pre as [|c pre IH].
  - rewrite append_nil_l.
    destruct d as [|c1 [|c2 d]]; simpl in Hlen; try lia.
    unfold digits in Hd. simpl in Hd.
    apply andb_true_iff in Hd as [H1 Hd]. apply andb_true_iff in Hd as [H2 Hd].
    rewrite !append_cons. simpl. rewrite H1, H2. simpl. rewrite ?H1, ?H2.
    repeat f_equal. now apply take_while_app.
  - simpl in Hpre. apply andb_true_iff in Hpre as [Hc Hpre].
    apply negb_true_iff in Hc. rewrite append_cons. simpl. rewrite Hc. now apply IH.
Qed.

(** The second alternative: a single digit, a comma and a run of digits. *)
Lemma match_quantity_grouped pre c e rest :
  all_chars (fun c => negb (is_digit c)) pre = true ->
  is_digit c = true -> digits e -> e <> "" -> stops is_digit rest ->
  match_quantity (pre ++ String c (String "," (e ++ rest)))
  = Some (String c (String "," e)).
Proof.
  intros Hpre Hc He Hne Hrest.
  induction pre as [|x pre IH].
  - rewrite append_nil_l. simpl. rewrite Hc.
    rewrite (take_while_app _ _ _ He Hrest).
    destruct e; [congruence|]. reflexivity.
  - simpl in Hpre. apply andb_true_iff in Hpre as [Hx Hpre].
    apply negb_true_iff in Hx. rewrite append_cons. simpl. rewrite Hx. now apply IH.
Qed.

Lemma match_digits_run pre d rest :
  all_chars (fun c => negb (is_digit c)) pre = true ->
  digits d -> d <> "" -> stops is_digit rest ->
  match_digits (pre ++ d ++ rest) = Some d.
Proof.
  intros Hpre Hd Hne Hrest.
  induction pre as [|x pre IH].
  - rewrite append_nil_l. destruct d as [|c d]; [congruence|].
    rewrite append_cons. unfold digits in Hd. simpl in Hd.
    apply andb_true_iff in Hd as [Hc Hd].
    simpl. rewrite Hc. simpl. rewrite ?Hc.
    repeat f_equal. now apply take_while_app.
  - simpl in Hpre. apply andb_true_iff in Hpre as [Hx Hpre].
    apply negb_true_iff in Hx. rewrite append_cons. simpl. rewrite Hx. now apply IH.
Qed.

Lemma parseInt_digits d : digits d -> d <> "" -> parseInt d = Some (digits_value 0 d).
Proof.
  intros Hd Hne. unfold parseInt. rewrite (take_while_all _ _ Hd).
  destruct d; [congruence|reflexivity].
Qed.

Lemma push_quantity qty price :
  Forall (fun p => raw_quantity p = qty) (push_if_in_bounds qty price).
Proof.
  unfold push_if_in_bounds. destruct (in_bounds qty price); repeat constructor.
Qed.
End ReadingFacts.

Section ReadingProperties.
Import JS Pricing Shape StringFacts ReadingFacts.
Local Open Scope string_scope.

(** X7. How the scanning passes read a quantity.  In a row, the first run
    of two digits or more is the quantity, even when a comma and more
    digits follow it: thousands separators are understood only after a
    single leading digit, so that "1,000" is read as 1000 but "10,000" as
    10 and "250,000" as 250.  In a table cell the first run of digits is
    the quantity, commas never being understood. *)
Theorem X7_quantity_reading :
  forall (pre d rest price : string),
    all_chars (fun c => negb (is_digit c)) pre = true ->
    all_chars is_digit d = true -> stops is_digit rest ->
    ((2 <= String.length d)%nat ->
     match_quantity (pre ++ d ++ rest) = Some d
     /\ Forall (fun p => raw_quantity p = Some (digits_value 0 d))
               (scan_row (pre ++ d ++ rest)))
    /\ (forall c : ascii,
           is_digit c = true -> d <> "" ->
           match_quantity (pre ++ String c (String "," (d ++ rest)))
           = Some (String c (String "," d))
           /\ Forall (fun p => raw_quantity p
                               = Some (digits_value 0 (String c d)))
                     (scan_row (pre ++ String c (String "," (d ++ rest)))))
    /\ (d <> "" ->
        match_digits (pre ++ d ++ rest) = Some d
        /\ Forall (fun p => raw_quantity p = Some (digits_value 0 d))
                  (scan_cell_pair (pre ++ d ++ rest) price)).
Proof.
  intros pre d rest price Hpre Hd Hrest. split; [|split].
  - intros Hlen. pose proof (match_quantity_run pre d rest Hpre Hd Hlen Hrest) as Hm.
    split; [exact Hm|]. unfold scan_row. rewrite Hm.
    destruct (match_price _); [|constructor].
    rewrite (remove_commas_digits _ Hd), parseInt_digits.
    + apply push_quantity.
    + exact Hd.
    + intros ->. simpl in Hlen. lia.
  - intros c Hc Hne.
    pose proof (match_quantity_grouped pre c d rest Hpre Hc Hd Hne Hrest) as Hm.
    split; [exact Hm|]. unfold scan_row. rewrite Hm.
    destruct (match_price _); [|constructor].
    assert (Hr : remove_commas (String c (String "," d)) = String c d).
    { simpl. destruct (is_comma c) eqn:E.
      - unfold is_comma in E. apply Ascii.eqb_eq in E. subst. discriminate.
      - now rewrite (remove_commas_digits _ Hd). }
    rewrite Hr, parseInt_digits.
    + apply push_quantity.
    + unfold digits. simpl. now rewrite Hc.
    + discriminate.
  - intros Hne. pose proof (match_digits_run pre d rest Hpre Hd Hne Hrest) as Hm.
    split; [exact Hm|]. unfold scan_cell_pair.
    destruct (is_empty _ || is_empty price); [constructor|]. rewrite Hm.
    destruct (match_price price); [|constructor].
    rewrite parseInt_digits by assumption. apply push_quantity.
Qed.

Lemma X7_quantity_reading_witness :
  match_quantity "10,000 cards $500.00" = Some "10"
  /\ Forall (fun p => raw_quantity p = Some 250)
            (scan_row "250,000 cards $9,000.00")
  /\ match_quantity "Qty 1,000 cards $75.00" = Some "1,000"
  /\ match_digits "1,000" = Some "1".
Proof.
  split; [|split; [|split]].
  - apply (proj1 (X7_quantity_reading "" "10" ",000 cards $500.00" ""
                    eq_refl eq_refl eq_refl)). simpl. lia.
  - apply (proj1 (X7_quantity_reading "" "250" ",000 cards $9,000.00" ""
                    eq_refl eq_refl eq_refl)). simpl. lia.
  - apply (proj1 (proj2 (X7_quantity_reading "Qty " "000" " cards $75.00" ""
                           eq_refl eq_refl eq_refl)) "1"%char eq_refl).
    discriminate.
  - apply (proj2 (proj2 (X7_quantity_reading "" "1" ",000" ""
                           eq_refl eq_refl eq_refl))). discriminate.
Defined.
End ReadingProperties.

Module PriceFacts.
Import JS Pricing StringFacts Shape ReadingFacts.
Local Open Scope string_scope.

Lemma match_price_found pre body rest :
  all_chars (fun c => negb (Ascii.eqb c "$")) pre = true ->
  all_chars is_price_char body = true -> body <> "" -> stops is_price_char rest ->
  match_price (pre ++ String "$" (body ++ rest)) = Some body.
Proof.
  intros Hpre Hb Hne Hrest. induction pre as [|c pre IH].
  - rewrite append_nil_l. simpl. rewrite (take_while_app _ _ _ Hb Hrest).
    destruct body; [congruence|reflexivity].
  - simpl in Hpre. apply andb_true_iff in Hpre as [Hc Hpre].
    apply negb_true_iff in Hc. rewrite append_cons. simpl. rewrite Hc. simpl.
    now apply IH.
Qed.

Lemma all_chars_app p a b :
  all_chars p (a ++ b) = all_chars p a && all_chars p b.
Proof.
  induction a as [|c a IH]; [reflexivity|].
  rewrite append_cons. simpl. now rewrite IH, andb_assoc.
Qed.

Lemma all_chars_impl (p q : ascii -> bool) s :
  (forall c, p c = true -> q c = true) -> all_chars p s = true -> all_chars q s = true.
Proof.
  intros H. induction s as [|c s IH]; simpl; [reflexivity|].
  rewrite !andb_true_iff. intros [Hc Hs]. auto.
Qed.

Lemma remove_commas_grouped g :
  all_chars (fun c => is_digit c || is_comma c) g = true -> digits (remove_commas g).
Proof.
  unfold digits. induction g as [|c g IH]; simpl; [reflexivity|].
  rewrite andb_true_iff. intros [Hc Hg].
  destruct (is_comma c) eqn:E; [now apply IH|].
  simpl. rewrite orb_false_r in Hc. rewrite Hc. now apply IH.
Qed.

Lemma length_append (a b : string) :
  String.length (a ++ b) = (String.length a + String.length b)%nat.
Proof.
  induction a as [|c a IH]; [reflexivity|]. rewrite append_cons. simpl. now rewrite IH.
Qed.

Lemma drop_while_all p d : all_chars p d = true -> drop_while p d = "".
Proof.
  intros H. rewrite <- (append_nil_r d). now apply drop_while_app.
Qed.

(** [parseFloat] of an integer part and a fraction. *)
Lemma parseFloat_decimal ip fp :
  digits ip -> digits fp -> ip <> "" ->
  parseFloat (ip ++ String "." fp)
  = Float64.of_decimal false (Z.to_N (digits_value 0 (ip ++ fp))) (String.length fp).
Proof.
  intros Hi Hf Hne. unfold parseFloat.
  rewrite (take_while_app is_digit ip (String "." fp) Hi eq_refl).
  rewrite (drop_while_app is_digit ip (String "." fp) Hi eq_refl).
  rewrite (take_while_all _ _ Hf).
  destruct ip; [congruence|reflexivity].
Qed.

Lemma parseFloat_integer ip :
  digits ip -> ip <> "" ->
  parseFloat ip = Float64.of_decimal false (Z.to_N (digits_value 0 ip)) 0.
Proof.
  intros Hi Hne. unfold parseFloat.
  rewrite (take_while_all _ _ Hi), (drop_while_all _ _ Hi), append_nil_r.
  destruct ip; [congruence|reflexivity].
Qed.
End PriceFacts.

Section PriceProperties.
Import JS Pricing StringFacts Shape ReadingFacts PriceFacts.
Local Open Scope string_scope.

(** X8. How the scanning passes read a price.  The price of a text is what
    follows its first dollar sign that a digit, comma or point follows; in
    a price made of comma-grouped digits, with or without a fraction, the
    commas are ignored and the amount is the decimal number so written:
    "$1,234.50" is 1234.50. *)
Theorem X8_price_reading :
  forall (pre g fp rest : string),
    all_chars (fun c => negb (Ascii.eqb c "$")) pre = true ->
    all_chars (fun c => is_digit c || is_comma c) g = true ->
    remove_commas g <> "" ->
    all_chars is_digit fp = true ->
    stops is_price_char rest ->
    (match_price (pre ++ String "$" ((g ++ String "." fp) ++ rest))
     = Some (g ++ String "." fp)
     /\ parseFloat (remove_commas (g ++ String "." fp))
        = Float64.of_decimal false (Z.to_N (digits_value 0 (remove_commas g ++ fp)))
                             (String.length fp))
    /\ (match_price (pre ++ String "$" (g ++ rest)) = Some g
        /\ parseFloat (remove_commas g)
           = Float64.of_decimal false (Z.to_N (digits_value 0 (remove_commas g))) 0).
Proof.
  intros pre g fp rest Hpre Hg Hne Hfp Hrest.
  assert (Hgp : all_chars is_price_char g = true).
  { eapply all_chars_impl; [|exact Hg]. unfold is_price_char. intros c ->. reflexivity. }
  assert (Hfpp : all_chars is_price_char fp = true).
  { eapply all_chars_impl; [|exact Hfp]. unfold is_price_char. intros c ->. reflexivity. }
  assert (Hgne : g <> "") by (intros ->; now apply Hne).
  split; split.
  - apply match_price_found; try assumption.
    + rewrite all_chars_app. simpl. now rewrite Hgp, Hfpp.
    + destruct g; [congruence|discriminate].
  - rewrite remove_commas_app. simpl remove_commas at 2.
    rewrite (remove_commas_digits fp Hfp).
    apply parseFloat_decimal; [now apply remove_commas_grouped|exact Hfp|exact Hne].
  - now apply match_price_found.
  - apply parseFloat_integer; [now apply remove_commas_grouped|exact Hne].
Qed.

Lemma X8_price_reading_witness :
  match_price "250 cards $1,234.50 each" = Some "1,234.50"
  /\ parseFloat (remove_commas "1,234.50") = Float64.of_decimal false 123450 2.
Proof.
  destruct (X8_price_reading "250 cards " "1,234" "50" " each"
              eq_refl eq_refl ltac:(discriminate) eq_refl eq_refl) as [[H1 H2] _].
  split; [exact H1|exact H2].
Defined.
End PriceProperties.

Module TrimFacts.
Import JS Discovery StringFacts Shape ReadingFacts.
Local Open Scope string_scope.

Lemma list_of_append (a b : string) :
  list_ascii_of_string (a ++ b) = (list_ascii_of_string a ++ list_ascii_of_string b)%list.
Proof.
  induction a as [|c a IH]; [reflexivity|]. rewrite append_cons. simpl. now rewrite IH.
Qed.

Lemma string_of_app (l1 l2 : list ascii) :
  string_of_list_ascii (l1 ++ l2) = string_of_list_ascii l1 ++ string_of_list_ascii l2.
Proof.
  induction l1 as [|c l1 IH]; [reflexivity|]. simpl. rewrite append_cons. now rewrite IH.
Qed.

Lemma rev_string_app (a b : string) : rev_string (a ++ b) = rev_string b ++ rev_string a.
Proof.
  unfold rev_string. now rewrite list_of_append, rev_app_distr, string_of_app.
Qed.

Lemma rev_string_involutive (s : string) : rev_string (rev_string s) = s.
Proof.
  unfold rev_string.
  now rewrite list_ascii_of_string_of_list_ascii, rev_involutive,
    string_of_list_ascii_of_string.
Qed.

Lemma length_string_of_list (l : list ascii) :
  String.length (string_of_list_ascii l) = List.length l.
Proof. induction l as [|c l IH]; simpl; [reflexivity|now rewrite IH]. Qed.

Lemma length_list_of_string (s : string) :
  List.length (list_ascii_of_string s) = String.length s.
Proof. induction s as [|c s IH]; simpl; [reflexivity|now rewrite IH]. Qed.

Lemma rev_string_length (s : string) : String.length (rev_string s) = String.length s.
Proof.
  unfold rev_string. now rewrite length_string_of_list, length_rev, length_list_of_string.
Qed.

Lemma take_drop_while p (s : string) : take_while p s ++ drop_while p s = s.
Proof.
  induction s as [|c s IH]; [reflexivity|]. simpl.
  destruct (p c); [|reflexivity]. rewrite append_cons. now rewrite IH.
Qed.

Lemma drop_while_stops p (s : string) : stops p (drop_while p s).
Proof.
  induction s as [|c s IH]; simpl; [exact I|].
  destruct (p c) eqn:E; [exact IH|]. simpl. exact E.
Qed.

Lemma drop_while_stopped p (s : string) : stops p s -> drop_while p s = s.
Proof.
  destruct s as [|c s]; simpl; [reflexivity|]. now intros ->.
Qed.

(** Dropping the trailing characters of a class from a string that does not
    begin with one leaves a string that does not begin with one. *)
Lemma drop_trailing_stops p (t : string) :
  stops p t -> stops p (rev_string (drop_while p (rev_string t))).
Proof.
  intros Ht.
  pose proof (take_drop_while p (rev_string t)) as E.
  apply (f_equal rev_string) in E. rewrite rev_string_app, rev_string_involutive in E.
  destruct (rev_string (drop_while p (rev_string t))) as [|c r]; [exact I|].
  rewrite append_cons in E. rewrite <- E in Ht. exact Ht.
Qed.

Lemma trim_stops (s : string) :
  stops is_space (trim s) /\ stops is_space (rev_string (trim s)).
Proof.
  unfold trim. split.
  - apply drop_trailing_stops, drop_while_stops.
  - rewrite rev_string_involutive. apply drop_while_stops.
Qed.

(** [trim] removes all leading and trailing white space: trimming again
    changes nothing. *)
Lemma trim_idempotent (s : string) : trim (trim s) = trim s.
Proof.
  destruct (trim_stops s) as [H1 H2].
  unfold trim at 1. rewrite (drop_while_stopped _ _ H1), (drop_while_stopped _ _ H2).
  apply rev_string_involutive.
Qed.

Lemma trim_length (s : string) : (String.length (trim s) <= String.length s)%nat.
Proof.
  assert (Hd : forall p (t : string), (String.length (drop_while p t) <= String.length t)%nat).
  { intros p t. induction t as [|c t IH]; simpl; [lia|]. destruct (p c); simpl; lia. }
  unfold trim. rewrite rev_string_length.
  etransitivity; [apply Hd|]. rewrite rev_string_length. apply Hd.
Qed.

(** What the script pushes for an element: a trimmed text of 3 to 99
    characters holding a keyword of the parameter. *)
Lemma scan_element_text param el :
  Forall (fun v => (2 < String.length (value_text v) < 100)%nat
                   /\ hasKeyword param (value_text v) = true
                   /\ trim (value_text v) = value_text v
                   /\ children_length el = 0%nat)
         (scan_element param el).
Proof.
  unfold scan_element.
  destruct (Nat.eqb_spec (children_length el) 0) as [Hc|]; [|constructor].
  destruct (negb (is_empty (innerText el))); [|constructor]. simpl andb.
  destruct (_ && _) eqn:E; [|constructor].
  destruct (walk 3 _); [|constructor].
  constructor; [|constructor]. cbn [value_text].
  apply andb_true_iff in E as [E Hk]. apply andb_true_iff in E as [E1 E2].
  apply Nat.ltb_lt in E1, E2.
  repeat split; try assumption. apply trim_idempotent.
Qed.
End TrimFacts.

Section TextProperties.
Import JS Discovery StringFacts ListFacts DiscoveryFacts Shape ReadingFacts TrimFacts.
Local Open Scope string_scope.

(** X9. Every value that discovery finds on the page for an axis has a
    display text of 3 to 99 characters, without white space at either end,
    that holds, in any letter case, one of the keywords of the parameter of
    its axis; the texts are at most as long as the inner texts they come
    from. *)
Theorem X9_discovered_texts :
  (forall pg : page,
      Forall (fun g =>
                Forall (fun v => (2 < String.length (value_text v) < 100)%nat
                                 /\ hasKeyword (spf_param g) (value_text v) = true
                                 /\ trim (value_text v) = value_text v)
                       (group_values g))
             (discovered pg))
  /\ (forall s : string,
         trim (trim s) = trim s
         /\ (String.length (trim s) <= String.length s)%nat
         /\ stops is_space (trim s) /\ stops is_space (rev_string (trim s))).
Proof.
  split.
  - intros pg. unfold discovered. apply List.Forall_forall. intros g Hg.
    apply filter_In in Hg as [Hg _]. apply in_map_iff in Hg as (entry & <- & _).
    rewrite discover_group_values.
    assert (Hp : spf_param (discover_group pg entry) = fst entry)
      by (destruct entry as [param [name key]]; reflexivity).
    rewrite Hp. unfold evaluate_options. destruct (evaluate_ok pg); [|constructor].
    destruct (dedupe_values_sound (discover_script (fst entry) pg) ∅) as [Hall _].
    apply List.Forall_forall. intros v Hv.
    rewrite List.Forall_forall in Hall. destruct (Hall v Hv) as [Hin _].
    unfold discover_script in Hin. apply in_flat_map in Hin as (el & _ & Hin).
    pose proof (scan_element_text (fst entry) el) as Hs.
    rewrite List.Forall_forall in Hs. destruct (Hs v Hin) as (H1 & H2 & H3 & _). auto.
  - intros s. split; [apply trim_idempotent|]. split; [apply trim_length|apply trim_stops].
Qed.
End TextProperties.

Module TextFacts.
Import JS Discovery StringFacts.
Local Open Scope string_scope.

Lemma toLowerCase_app (a b : string) :
  toLowerCase (a ++ b) = toLowerCase a ++ toLowerCase b.
Proof.
  induction a as [|c a IH]; [now rewrite !append_nil_l|].
  rewrite append_cons. simpl. now rewrite append_cons, IH.
Qed.

Lemma prefix_app (w x : string) : String.prefix w (w ++ x) = true.
Proof.
  induction w as [|c w IH]; [rewrite append_nil_l; now destruct x|].
  rewrite append_cons. simpl. destruct (Ascii.ascii_dec c c); [exact IH|contradiction].
Qed.

Lemma prefix_split (p : string) : forall s : string,
  String.prefix p s = true -> exists x, s = p ++ x.
Proof.
  induction p as [|a p IH]; intros s H.
  - exists s. now rewrite append_nil_l.
  - destruct s as [|b s]; [discriminate|]. simpl in H.
    destruct (Ascii.ascii_dec a b) as [->|]; [|discriminate].
    destruct (IH s H) as [x ->]. exists x. now rewrite append_cons.
Qed.

Lemma includes_prefix (s sub : string) :
  String.prefix sub s = true -> Discovery.includes s sub = true.
Proof. intros H. destruct s; simpl in *; now rewrite H. Qed.

Lemma includes_app (a s sub : string) :
  Discovery.includes s sub = true -> Discovery.includes (a ++ s) sub = true.
Proof.
  intros H. induction a as [|c a IH]; [now rewrite append_nil_l|].
  rewrite append_cons. cbn [Discovery.includes]. rewrite IH. apply orb_true_r.
Qed.

End TextFacts.

Module SetOrderFacts.
Import JSSet.

Lemma set_order_In (l : list string) : forall (seen : gset string) (x : string),
  In x (set_order seen l) <-> In x l /\ x ∉ seen.
Proof.
  induction l as [|y r IH]; intros seen x; simpl; [tauto|].
  destruct (decide (y ∈ seen)) as [Hy|Hy].
  - rewrite IH. split.
    + intros [H1 H2]. auto.
    + intros [[->|H1] H2]; [contradiction|auto].
  - simpl. rewrite IH. split.
    + intros [->|[H1 H2]]; [auto|]. split; [auto|]. intros H. apply H2. seen_solver.
    + intros [[->|H1] H2]; [auto|].
      destruct (String.eqb_spec y x) as [->|Hne]; [auto|].
      right. split; [exact H1|]. intros H. seen_solver.
Qed.

Lemma set_order_NoDup (l : list string) : forall seen : gset string,
  NoDup (set_order seen l).
Proof.
  induction l as [|y r IH]; intros seen; simpl; [constructor|].
  destruct (decide (y ∈ seen)); [apply IH|].
  constructor; [|apply IH].
  rewrite set_order_In. intros [_ H]. apply H. seen_solver.
Qed.

Lemma set_order_sublist (l : list string) : forall seen : gset string,
  sublist (set_order seen l) l.
Proof.
  induction l as [|y r IH]; intros seen; simpl; [constructor|].
  destruct (decide (y ∈ seen)).
  - apply sublist_cons, IH.
  - apply sublist_skip, IH.
Qed.

(** The array of a set keeps every element of the list. *)
Lemma set_order_all (l : list string) (x : string) :
  In x (set_order ∅ l) <-> In x l.
Proof.
  rewrite set_order_In. split; [tauto|]. intros H. split; [exact H|].
  apply not_elem_of_empty.
Qed.

Lemma sublist_map_filter {A B : Type} (f : A -> B) (p : A -> bool) (l : list A) :
  sublist (map f (List.filter p l)) (map f l).
Proof.
  induction l as [|x r IH]; simpl; [constructor|].
  destruct (p x); simpl; [apply sublist_skip|apply sublist_cons]; exact IH.
Qed.

Lemma firstn_incl {A : Type} (n : nat) (l : list A) (x : A) :
  In x (firstn n l) -> In x l.
Proof.
  intros H. rewrite <- (firstn_skipn n l). apply in_or_app. now left.
Qed.

Lemma firstn_In_or_full {A : Type} (n : nat) (l : list A) (x : A) :
  In x l -> In x (firstn n l) \/ List.length (firstn n l) = n.
Proof.
  intros H. destruct (Nat.le_gt_cases (List.length l) n) as [Hl|Hl].
  - left. now rewrite firstn_all2.
  - right. apply firstn_length_le. lia.
Qed.

Lemma firstn_NoDup {A : Type} (n : nat) (l : list A) : NoDup l -> NoDup (firstn n l).
Proof.
  revert l. induction n as [|n IH]; intros l H; simpl; [constructor|].
  destruct l as [|x r]; [constructor|]. inversion H; subst.
  constructor; [|now apply IH]. intros Hin. apply firstn_incl in Hin. contradiction.
Qed.

End SetOrderFacts.

Module MetadataFacts.
Import JS Discovery Metadata StringFacts Shape ReadingFacts TrimFacts TextFacts
       SetOrderFacts.
Local Open Scope string_scope.

Lemma strip_stops (s : string) :
  stops PyStr.isspace (PyStr.strip s)
  /\ stops PyStr.isspace (rev_string (PyStr.strip s)).
Proof.
  unfold PyStr.strip. split.
  - apply drop_trailing_stops, drop_while_stops.
  - rewrite rev_string_involutive. apply drop_while_stops.
Qed.

Lemma strip_idempotent (s : string) : PyStr.strip (PyStr.strip s) = PyStr.strip s.
Proof.
  destruct (strip_stops s) as [H1 H2].
  unfold PyStr.strip at 1.
  rewrite (drop_while_stopped _ _ H1), (drop_while_stopped _ _ H2).
  apply rev_string_involutive.
Qed.

(** What the images script returns. *)
Lemma images_script_spec (imgs : list img) :
  (List.length (images_script imgs) <= 5)%nat
  /\ NoDup (images_script imgs)
  /\ sublist (images_script imgs) (map src imgs)
  /\ Forall (fun u => exists i, In i imgs /\ src i = u /\ keep_img i = true)
            (images_script imgs)
  /\ (forall i, In i imgs -> keep_img i = true ->
                In (src i) (images_script imgs) \/ List.length (images_script imgs) = 5%nat).
Proof.
  unfold images_script. split; [apply firstn_le_length|]. split; [|split; [|split]].
  - apply firstn_NoDup, set_order_NoDup.
  - etransitivity; [apply sublist_take|].
    etransitivity; [apply set_order_sublist|].
    apply sublist_map_filter.
  - apply List.Forall_forall. intros u Hu. apply firstn_incl in Hu.
    apply (proj1 (set_order_all _ _)) in Hu. apply in_map_iff in Hu as (i & Hi & Hin).
    apply filter_In in Hin as [Hin Hk]. eauto.
  - intros i Hin Hk. apply firstn_In_or_full. apply (proj2 (set_order_all _ _)).
    apply in_map. apply filter_In. auto.
Qed.

Lemma keep_img_spec (i : img) :
  keep_img i = true ->
  src i <> "" /\ includes (src i) "data:" = false /\ (50 < naturalWidth i)%Z.
Proof.
  unfold keep_img. intros H.
  apply andb_true_iff in H as [H H3]. apply andb_true_iff in H as [H1 H2].
  apply negb_true_iff in H1, H2. apply Z.ltb_lt in H3.
  split; [|split; assumption]. intros E. rewrite E in H1. discriminate.
Qed.

(** A prefix that matches without regard to case is the word, once
    lowered. *)
Lemma prefix_lower (w : string) : forall s : string,
  String.prefix w (toLowerCase s) = true ->
  toLowerCase (String.substring 0 (String.length w) s) = w.
Proof.
  induction w as [|a w IH]; intros s H.
  - destruct s; reflexivity.
  - destruct s as [|c s]; [discriminate|]. simpl in H.
    destruct (Ascii.ascii_dec a (lower_char c)) as [->|]; [|discriminate].
    simpl. now rewrite IH.
Qed.

Lemma prefix_lower_next (w : string) : forall (s : string) (c : ascii),
  String.prefix w (toLowerCase s) = true ->
  String.get (String.length w) s = Some c ->
  toLowerCase (String.substring 0 (S (String.length w)) s)
  = w ++ String (lower_char c) EmptyString.
Proof.
  induction w as [|a w IH]; intros s c H Hg.
  - destruct s as [|b s]; [discriminate|]. simpl in Hg. injection Hg as ->.
    simpl. destruct s; reflexivity.
  - destruct s as [|b s]; [discriminate|]. simpl in H.
    destruct (Ascii.ascii_dec a (lower_char b)) as [->|]; [|discriminate].
    simpl in Hg. rewrite append_cons.
    change (String.substring 0 (S (String.length (String (lower_char b) w))) (String b s))
      with (String b (String.substring 0 (S (String.length w)) s)).
    simpl toLowerCase. now rewrite (IH s c H Hg).
Qed.

Lemma try_word_unit (w s m : string) :
  In w unit_words ->
  try_word w s = Some m -> strip_final_s (toLowerCase m) = w.
Proof.
  intros Hw. unfold try_word.
  destruct (String.prefix w (toLowerCase s)) eqn:Hp; [|discriminate].
  assert (H0 : strip_final_s w = w /\ strip_final_s (w ++ "s") = w).
  { simpl in Hw. destruct Hw as [<-|[<-|[<-|[]]]]; split; reflexivity. }
  destruct H0 as [H0 H1].
  destruct (String.get (String.length w) s) as [c|] eqn:Hg.
  - destruct (Ascii.eqb (lower_char c) "s") eqn:Hc.
    + intros [= <-]. rewrite (prefix_lower_next w s c Hp Hg).
      apply Ascii.eqb_eq in Hc. rewrite Hc. exact H1.
    + intros [= <-]. rewrite (prefix_lower w s Hp). exact H0.
  - intros [= <-]. rewrite (prefix_lower w s Hp). exact H0.
Qed.

Lemma word_at_unit (s m : string) :
  word_at s = Some m -> In (strip_final_s (toLowerCase m)) unit_words.
Proof.
  unfold word_at.
  destruct (try_word "card" s) as [m1|] eqn:E1.
  - intros [= <-]. rewrite (try_word_unit "card" s m1); simpl; auto.
  - destruct (try_word "unit" s) as [m2|] eqn:E2.
    + intros [= <-]. rewrite (try_word_unit "unit" s m2); simpl; auto.
    + intros E3. rewrite (try_word_unit "piece" s m); simpl; auto.
Qed.

Lemma match_uom_unit (s m : string) :
  match_uom s = Some m -> In (strip_final_s (toLowerCase m)) unit_words.
Proof.
  induction s as [|c s IH]; [discriminate|].
  cbn [match_uom]. destruct (is_digit c); [|exact IH].
  destruct (word_at _) as [m'|] eqn:E; [|exact IH].
  intros [= <-]. now apply word_at_unit in E.
Qed.

Lemma uom_script_unit (body u : string) :
  uom_script body = Some u -> In u unit_words.
Proof.
  unfold uom_script. destruct (match_uom body) as [m|] eqn:E; [|discriminate].
  intros [= <-]. now apply match_uom_unit in E.
Qed.

(** [uom_match or 'unit'] is one of the three units. *)
Lemma base_uom_unit (body : string) :
  In (or_else (uom_script body) "unit") unit_words.
Proof.
  unfold or_else. destruct (uom_script body) as [u|] eqn:E; [|simpl; auto].
  apply uom_script_unit in E. destruct (is_empty u); [simpl; auto|exact E].
Qed.

(** A quantity followed by a unit word gives that unit. *)
Lemma match_uom_found (pre d sp w rest : string) :
  all_chars (fun c => negb (is_digit c)) pre = true ->
  all_chars is_digit d = true -> d <> "" ->
  all_chars is_space sp = true ->
  stops is_space (w ++ rest) -> stops is_digit (sp ++ w ++ rest) ->
  match_uom (pre ++ d ++ sp ++ w ++ rest)
  = match word_at (w ++ rest) with
    | Some m => Some m
    | None => match_uom (match d with
                         | String _ d' => d' ++ sp ++ w ++ rest
                         | EmptyString => EmptyString
                         end)
    end.
Proof.
  intros Hpre Hd Hne Hsp Hw Hstop.
  induction pre as [|c pre IH].
  - rewrite append_nil_l. destruct d as [|c d]; [contradiction|].
    rewrite append_cons. cbn [match_uom].
    simpl in Hd. apply andb_true_iff in Hd as [Hc Hd]. rewrite Hc.
    rewrite <- append_cons.
    rewrite (drop_while_app is_digit (String c d) (sp ++ w ++ rest));
      [|simpl; now rewrite Hc|exact Hstop].
    now rewrite (drop_while_app is_space sp (w ++ rest) Hsp Hw).
  - rewrite append_cons. cbn [match_uom]. simpl in Hpre.
    apply andb_true_iff in Hpre as [Hc Hpre]. apply negb_true_iff in Hc.
    rewrite Hc. now apply IH.
Qed.

(** At a unit word, singular or plural and in any letter case, the pattern
    finds that word. *)
Lemma word_at_found (w t rest : string) :
  In w unit_words ->
  toLowerCase t = w \/ toLowerCase t = w ++ "s" ->
  exists m, word_at (t ++ rest) = Some m /\ strip_final_s (toLowerCase m) = w.
Proof.
  intros Hw Ht.
  assert (Hl : exists x, toLowerCase (t ++ rest) = w ++ x).
  { rewrite toLowerCase_app. destruct Ht as [->| ->]; [eauto|].
    rewrite append_assoc. eauto. }
  destruct Hl as [x Hl].
  assert (Hp : String.prefix w (toLowerCase (t ++ rest)) = true)
    by (rewrite Hl; apply prefix_app).
  assert (Hsome : exists m, try_word w (t ++ rest) = Some m).
  { unfold try_word. rewrite Hp. destruct (String.get _ _) as [c|]; [|eauto].
    destruct (Ascii.eqb _ _); eauto. }
  destruct Hsome as [m Hm]. exists m. split; [|now apply (try_word_unit w (t ++ rest))].
  assert (Hother : forall w', In w' unit_words -> w' <> w -> try_word w' (t ++ rest) = None).
  { intros w' Hw' Hne. unfold try_word. rewrite Hl.
    simpl in Hw, Hw'.
    destruct Hw as [<-|[<-|[<-|[]]]]; destruct Hw' as [<-|[<-|[<-|[]]]];
      try contradiction; rewrite append_cons; reflexivity. }
  unfold word_at. simpl in Hw. destruct Hw as [<-|[<-|[<-|[]]]].
  - now rewrite Hm.
  - rewrite (Hother "card"); [now rewrite Hm|simpl; auto|discriminate].
  - rewrite (Hother "card"); [|simpl; auto|discriminate].
    rewrite (Hother "unit"); [exact Hm|simpl; auto|discriminate].
Qed.

Lemma lower_stops (t rest w : string) :
  In w unit_words ->
  toLowerCase t = w \/ toLowerCase t = w ++ "s" ->
  stops is_space (t ++ rest) /\ stops is_digit (t ++ rest).
Proof.
  intros Hw Ht. destruct t as [|c t].
  - simpl in Hw. destruct Ht as [Ht|Ht]; simpl in Ht;
      destruct Hw as [<-|[<-|[<-|[]]]]; discriminate.
  - rewrite append_cons. simpl.
    assert (Hc : lower_char c = "c"%char \/ lower_char c = "u"%char
                 \/ lower_char c = "p"%char).
    { simpl in Hw. destruct Ht as [Ht|Ht]; simpl in Ht;
        destruct Hw as [<-|[<-|[<-|[]]]]; injection Ht as Ht _; auto. }
    assert (Hn : forall a : ascii, lower_char a = "c"%char \/ lower_char a = "u"%char
                 \/ lower_char a = "p"%char -> is_space a = false /\ is_digit a = false).
    { intros a Ha.
      destruct a as [[|] [|] [|] [|] [|] [|] [|] [|]];
        first [ split; reflexivity
              | exfalso; vm_compute in Ha; destruct Ha as [H|[H|H]]; discriminate H ]. }
    destruct (Hn c Hc). auto.
Qed.

(** A number followed by a unit word gives that unit. *)
Lemma uom_script_found (pre d sp t rest w : string) :
  In w unit_words ->
  toLowerCase t = w \/ toLowerCase t = w ++ "s" ->
  all_chars (fun c => negb (is_digit c)) pre = true ->
  all_chars is_digit d = true -> d <> "" ->
  all_chars is_space sp = true ->
  uom_script (pre ++ d ++ sp ++ t ++ rest) = Some w.
Proof.
  intros Hw Ht Hpre Hd Hne Hsp.
  destruct (lower_stops t rest w Hw Ht) as [Hs1 Hs2].
  assert (Hs3 : stops is_digit (sp ++ t ++ rest)).
  { destruct sp as [|c sp]; [now rewrite append_nil_l|].
    rewrite append_cons. simpl. simpl in Hsp. apply andb_true_iff in Hsp as [Hc _].
    destruct c as [[|] [|] [|] [|] [|] [|] [|] [|]];
      first [ reflexivity | discriminate Hc ]. }
  unfold uom_script.
  rewrite (match_uom_found pre d sp t rest Hpre Hd Hne Hsp Hs1 Hs3).
  destruct (word_at_found w t rest Hw Ht) as (m & Hm & Hu).
  now rewrite Hm, Hu.
Qed.

End MetadataFacts.

Section MetadataProperties.
Import JS Discovery Metadata StringFacts Shape ReadingFacts TrimFacts TextFacts
       Occurrence OccurrenceFacts SetOrderFacts MetadataFacts.
Local Open Scope string_scope.

(** X10. The image list of the product metadata holds at most five
    addresses, without repetition; each is the non-empty source, free of
    ["data:"], of a gallery image more than 50 pixels wide.  When the
    images script is reached, the list is made of the first five distinct
    sources of such images, in the order in which they first occur in the
    gallery: every such image is listed unless five are listed already. *)
Theorem X10_image_urls :
  forall (v : view) (url_params : PyDict.dict string),
    let urls := image_urls (_extract_product_metadata v url_params) in
    (List.length urls <= 5)%nat
    /\ NoDup urls
    /\ Forall (fun u => u <> "" /\ includes u "data:" = false
                        /\ exists imgs i, gallery v = Some imgs /\ In i imgs
                                          /\ src i = u /\ (50 < naturalWidth i)%Z)
              urls
    /\ (forall imgs, gallery v = Some imgs ->
                     read_title v (initial url_params) <> None ->
                     urls = firstn 5 (distinct (map src (filter keep_img imgs)))
                     /\ sublist urls (map src imgs)
                     /\ forall i, In i imgs -> keep_img i = true ->
                                  In (src i) urls \/ List.length urls = 5%nat).
Proof.
  intros v ps urls. subst urls. unfold _extract_product_metadata.
  assert (Ht : forall m, read_title v (initial ps) = Some m -> image_urls m = [] ).
  { unfold read_title. intros m.
    destruct (title_visible v) as [[|]|]; [|intros [= <-]; reflexivity|discriminate].
    destruct (title_inner_text v); [|discriminate]. intros [= <-]. reflexivity. }
  assert (Hnil : (List.length (@nil string) <= 5)%nat /\ NoDup (@nil string)
                 /\ Forall (fun u => u <> "" /\ includes u "data:" = false
                        /\ exists imgs i, gallery v = Some imgs /\ In i imgs
                                          /\ src i = u /\ (50 < naturalWidth i)%Z) [])
    by (split; [simpl; lia|split; constructor]).
  destruct (read_title v (initial ps)) as [m1|] eqn:E1.
  - pose proof (Ht m1 eq_refl) as Hm1.
    destruct (gallery v) as [imgs|] eqn:Eg.
    + assert (Hi : image_urls (match body_inner_text v with
                               | Some body => with_uom (with_images m1 (images_script imgs))
                                                (or_else (uom_script body) "unit")
                               | None => with_images m1 (images_script imgs)
                               end) = images_script imgs)
        by (destruct (body_inner_text v); reflexivity).
      rewrite Hi.
      destruct (images_script_spec imgs) as (H1 & H2 & H3 & H4 & H5).
      split; [exact H1|]. split; [exact H2|]. split.
      * apply List.Forall_forall. intros u Hu. rewrite List.Forall_forall in H4.
        destruct (H4 u Hu) as (i & Hin & <- & Hk).
        destruct (keep_img_spec i Hk) as (K1 & K2 & K3).
        split; [exact K1|]. split; [exact K2|]. exists imgs, i. auto.
      * intros imgs' [= <-] _. split; [|split; [exact H3|exact H5]].
        unfold images_script. now rewrite set_order_empty_distinct.
    + rewrite Hm1. destruct Hnil as (N1 & N2 & N3).
      split; [exact N1|]. split; [exact N2|]. split; [exact N3|]. discriminate.
  - simpl image_urls. destruct Hnil as (N1 & N2 & N3).
    split; [exact N1|]. split; [exact N2|]. split; [exact N3|].
    intros imgs _ H. contradiction.
Qed.

(** X11. Whatever fails while the metadata is read, the record keeps the
    identifiers of the URL, the currency ["USD"] and no subtitle or
    description.  Its unit of measure is unset exactly when a call of the
    [try] block raised, and is otherwise ["card"], ["unit"] or ["piece"];
    its title, when present, is the text of a visible title element
    without white space at either end. *)
Theorem X11_metadata_defaults :
  forall (v : view) (url_params : PyDict.dict string),
    let m := _extract_product_metadata v url_params in
    (product_id m = PyDict.get url_params "id"
     /\ product_group_id m = PyDict.get url_params "productGroupId"
     /\ currency m = "USD" /\ subtitle m = None /\ description m = None)
    /\ (base_uom m = None
        <-> read_title v (initial url_params) = None \/ gallery v = None
            \/ body_inner_text v = None)
    /\ (forall u, base_uom m = Some u -> u = "card" \/ u = "unit" \/ u = "piece")
    /\ (forall t, title m = Some t ->
                  title_visible v = Some true
                  /\ (exists raw, title_inner_text v = Some raw /\ t = PyStr.strip raw)
                  /\ PyStr.strip t = t).
Proof.
  intros v ps m. subst m. unfold _extract_product_metadata.
  assert (Ht : forall m, read_title v (initial ps) = Some m ->
             product_id m = PyDict.get ps "id"
             /\ product_group_id m = PyDict.get ps "productGroupId"
             /\ currency m = "USD" /\ subtitle m = None /\ description m = None
             /\ base_uom m = None
             /\ (forall t, title m = Some t ->
                  title_visible v = Some true
                  /\ (exists raw, title_inner_text v = Some raw /\ t = PyStr.strip raw)
                  /\ PyStr.strip t = t)).
  { unfold read_title. intros m.
    destruct (title_visible v) as [[|]|]; [| |discriminate].
    - destruct (title_inner_text v) as [raw|]; [|discriminate]. intros [= <-].
      cbn. do 6 (split; [reflexivity|]). intros t [= <-].
      split; [reflexivity|]. split; [eauto|apply strip_idempotent].
    - intros [= <-]. cbn. do 6 (split; [reflexivity|]). discriminate. }
  destruct (read_title v (initial ps)) as [m1|] eqn:E1.
  - destruct (Ht m1 eq_refl) as (A1 & A2 & A3 & A4 & A5 & A6 & A7).
    destruct (gallery v) as [imgs|] eqn:Eg.
    + destruct (body_inner_text v) as [body|] eqn:Eb.
      * cbn. split; [auto|]. split.
        -- split; [discriminate|]. intros [H|[H|H]]; discriminate.
        -- split; [|exact A7]. intros u [= <-].
           pose proof (base_uom_unit body) as H. simpl in H.
           destruct H as [H|[H|[H|[]]]]; auto.
      * cbn. split; [auto|]. split; [split; auto|]. split; [|exact A7].
        rewrite A6. discriminate.
    + split; [auto|]. split; [split; auto|]. split; [|exact A7].
      rewrite A6. discriminate.
  - cbn. split; [auto|]. split; [split; auto|]. split; discriminate.
Qed.
(** X12. When the title and the gallery are read, the unit of measure of
    the metadata is decided by the first number of the body text that a
    unit word follows: a text whose first number is followed, after any
    white space, by "card", "unit" or "piece", singular or plural and in
    any letter case, gives that unit in the singular and in lower case. *)
Theorem X12_unit_of_first_quantity :
  forall (v : view) (url_params : PyDict.dict string) (pre d sp t rest w : string),
    read_title v (initial url_params) <> None ->
    gallery v <> None ->
    body_inner_text v = Some (pre ++ d ++ sp ++ t ++ rest) ->
    In w unit_words ->
    toLowerCase t = w \/ toLowerCase t = w ++ "s" ->
    all_chars (fun c => negb (is_digit c)) pre = true ->
    all_chars is_digit d = true -> d <> "" ->
    all_chars is_space sp = true ->
    base_uom (_extract_product_metadata v url_params) = Some w.
Proof.
  intros v ps pre d sp t rest w Ht Hg Hb Hw Hl Hpre Hd Hne Hsp.
  unfold _extract_product_metadata.
  destruct (read_title v (initial ps)) as [m1|]; [|contradiction].
  destruct (gallery v) as [imgs|]; [|contradiction].
  rewrite Hb. cbn [base_uom with_uom].
  rewrite (uom_script_found pre d sp t rest w Hw Hl Hpre Hd Hne Hsp).
  unfold or_else. simpl in Hw. destruct Hw as [<-|[<-|[<-|[]]]]; reflexivity.
Qed.

Lemma X12_unit_of_first_quantity_witness :
  base_uom (_extract_product_metadata
              {| title_visible := Some false; title_inner_text := None;
                 gallery := Some []; body_inner_text := Some "Pack of 250 Cards" |}
              [])
  = Some "card".
Proof.
  apply (X12_unit_of_first_quantity _ _ "Pack of " "250" " " "Cards" "" "card").
  - discriminate.
  - discriminate.
  - reflexivity.
  - simpl. auto.
  - right. reflexivity.
  - reflexivity.
  - reflexivity.
  - discriminate.
  - reflexivity.
Defined.
End MetadataProperties.

Module AshleyLoadFacts.
Import Ashley.

Lemma goto_log web url b :
  log (snd (goto web url b)) = log b ++ [Scraper.Goto url]
  /\ navigations (snd (goto web url b)) = S (navigations b)
  /\ current (snd (goto web url b)) = nav_page (web (navigations b) url)
  /\ fst (goto web url b) = nav_ok (web (navigations b) url).
Proof. repeat split. Qed.

(** What the page load does, from any session. *)
Lemma goto_with_retries_spec :
  forall (web : site) (url : string) (b : session),
    let r := goto_with_retries web url max_retries b in
    let n := navigations b in
    let answer := fun k => nav_ok (web (n + k)%nat url) in
    fst r = (answer 0%nat || answer 1%nat || answer 2%nat)
    /\ exists k : nat,
         (k < 3)%nat
         /\ navigations (snd r) = (n + S k)%nat
         /\ log (snd r)
            = log b ++ Scraper.Goto url
                       :: List.concat (repeat [Scraper.Sleep 2000; Scraper.Goto url] k)
         /\ current (snd r) = nav_page (web (n + k)%nat url)
         /\ fst r = answer k
         /\ (forall j : nat, (j < k)%nat -> answer j = false)
         /\ (fst r = false -> k = 2%nat).
Proof.
  intros web url b r n answer. subst r answer n.
  unfold max_retries, goto_with_retries, goto, sleep.
  cbn [navigations Ashley.log current nav_ok fst snd].
  rewrite Nat.add_0_r, Nat.add_1_r.
  replace (navigations b + 2)%nat with (S (S (navigations b))) by lia.
  assert (H1 : forall j : nat, (j < 1)%nat ->
                 nav_ok (web (navigations b) url) = false ->
                 nav_ok (web (navigations b + j)%nat url) = false).
  { intros j Hj H. assert (j = 0)%nat as -> by lia. now rewrite Nat.add_0_r. }
  assert (H2 : forall j : nat, (j < 2)%nat ->
                 nav_ok (web (navigations b) url) = false ->
                 nav_ok (web (S (navigations b)) url) = false ->
                 nav_ok (web (navigations b + j)%nat url) = false).
  { intros j Hj Ha Hb.
    destruct j as [|[|j]]; [now rewrite Nat.add_0_r|now rewrite Nat.add_1_r|lia]. }
  destruct (nav_ok (web (navigations b) url)) eqn:E0;
    [|destruct (nav_ok (web (S (navigations b)) url)) eqn:E1;
      [|destruct (nav_ok (web (S (S (navigations b))) url)) eqn:E2]];
    cbn [fst snd navigations Ashley.log current orb];
    (split; [reflexivity|]).
  - exists 0%nat. cbn [repeat List.concat]. rewrite Nat.add_0_r, Nat.add_1_r.
    split; [lia|]. split; [reflexivity|]. split; [reflexivity|].
    split; [reflexivity|]. split; [auto|]. split; [intros j Hj; lia|]. discriminate.
  - exists 1%nat. cbn [repeat List.concat app]. rewrite Nat.add_1_r, <- !app_assoc.
    split; [lia|]. split; [lia|]. split; [reflexivity|]. split; [reflexivity|].
    split; [auto|]. split; [intros j Hj; now apply H1|]. discriminate.
  - exists 2%nat. cbn [repeat List.concat app].
    replace (navigations b + 2)%nat with (S (S (navigations b))) by lia.
    rewrite <- !app_assoc.
    split; [lia|]. split; [lia|]. split; [reflexivity|]. split; [reflexivity|].
    split; [auto|]. split; [intros j Hj; now apply H2|]. discriminate.
  - exists 2%nat. cbn [repeat List.concat app].
    replace (navigations b + 2)%nat with (S (S (navigations b))) by lia.
    rewrite <- !app_assoc.
    split; [lia|]. split; [lia|]. split; [reflexivity|]. split; [reflexivity|].
    split; [auto|]. split; [intros j Hj; now apply H2|]. reflexivity.
Qed.

End AshleyLoadFacts.

Section AshleyLoadProperties.
Import Ashley AshleyLoadFacts.

(** X13. The page load of the category scraper makes one to three
    navigations to the same address and pauses two seconds after each
    failed attempt but the last.  It succeeds exactly when one of the
    first three answers of the site is a success; it then stops at the
    first such answer and shows its page, and it fails only after three
    attempts. *)
Theorem X13_load_retries :
  forall (web : site) (url : string) (b : session),
    let r := goto_with_retries web url max_retries b in
    let n := navigations b in
    let answer := fun k => nav_ok (web (n + k)%nat url) in
    fst r = (answer 0%nat || answer 1%nat || answer 2%nat)
    /\ exists k : nat,
         (k < 3)%nat
         /\ navigations (snd r) = (n + S k)%nat
         /\ log (snd r)
            = log b ++ Scraper.Goto url
                       :: List.concat (repeat [Scraper.Sleep 2000; Scraper.Goto url] k)
         /\ current (snd r) = nav_page (web (n + k)%nat url)
         /\ fst r = answer k
         /\ (forall j : nat, (j < k)%nat -> answer j = false)
         /\ (fst r = false -> k = 2%nat).
Proof. exact goto_with_retries_spec. Qed.
End AshleyLoadProperties.

Module AshleyCountFacts.
Import JS Ashley StringFacts Shape ReadingFacts.
Local Open Scope string_scope.

Lemma digit_value_range (c : ascii) : is_digit c = true -> (0 <= digit_value c <= 9)%Z.
Proof.
  unfold is_digit, digit_value. intros H. apply andb_true_iff in H as [H1 H2].
  apply Nat.leb_le in H1, H2. lia.
Qed.

Lemma digits_value_nonneg (d : string) : forall acc : Z,
  all_chars is_digit d = true -> (0 <= acc)%Z -> (0 <= digits_value acc d)%Z.
Proof.
  induction d as [|c d IH]; intros acc Hd Hacc; simpl; [exact Hacc|].
  simpl in Hd. apply andb_true_iff in Hd as [Hc Hd].
  apply IH; [exact Hd|]. pose proof (digit_value_range c Hc). lia.
Qed.

Lemma take_while_all_chars p (s : string) : all_chars p (take_while p s) = true.
Proof.
  induction s as [|c s IH]; simpl; [reflexivity|].
  destruct (p c) eqn:E; simpl; [now rewrite E|reflexivity].
Qed.

(** The leftmost match is not in a prefix in which the pattern matches
    nowhere. *)
Lemma search_unmatched (here : string -> option string) (pre rest : string) :
  PyStr.unmatched here pre rest = true ->
  PyStr.search here (pre ++ rest) = PyStr.search here rest.
Proof.
  induction pre as [|c pre IH]; [now rewrite append_nil_l|].
  cbn [PyStr.unmatched]. rewrite append_cons.
  destruct (here (String c (pre ++ rest))) eqn:E; [discriminate|].
  intros H. cbn [PyStr.search]. rewrite E. now apply IH.
Qed.

(** A match of [search] is a match of the pattern at some position. *)
Lemma search_here (here : string -> option string) (s m : string) :
  PyStr.search here s = Some m -> exists s', here s' = Some m.
Proof.
  induction s as [|c s IH]; simpl.
  - destruct (here "") eqn:E; [intros [= <-]; eauto|discriminate].
  - destruct (here (String c s)) eqn:E; [intros [= <-]; eauto|exact IH].
Qed.

Lemma of_here_digits (s d : string) : of_here s = Some d -> all_chars is_digit d = true.
Proof.
  unfold of_here. destruct (PyStr.after_prefix "of" s); [|discriminate].
  destruct (_ && _); [|discriminate]. intros [= <-]. apply take_while_all_chars.
Qed.

Lemma total_results_here_digits (s d : string) :
  total_results_here s = Some d -> all_chars is_digit d = true.
Proof.
  unfold total_results_here. destruct (PyStr.after_prefix _ s); [|discriminate].
  destruct (PyStr.after_prefix ":" _); [|discriminate].
  destruct (is_empty _); [discriminate|]. intros [= <-]. apply take_while_all_chars.
Qed.

Lemma results_here_digits (s d : string) :
  results_here s = Some d -> all_chars is_digit d = true.
Proof.
  unfold results_here. destruct (_ && _); [|discriminate].
  intros [= <-]. apply take_while_all_chars.
Qed.

Lemma int_or_zero_eq (d : string) :
  int_or_zero d = (if (String.length d <=? 4300)%nat then digits_value 0 d else 0)%Z.
Proof.
  unfold int_or_zero, PyStr.int, PyStr.max_str_digits.
  now destruct (String.length d <=? 4300)%nat.
Qed.

Lemma int_nonneg (d : string) : all_chars is_digit d = true -> (0 <= int_or_zero d)%Z.
Proof.
  intros H. unfold int_or_zero, PyStr.int.
  destruct (_ <=? _)%nat; [|lia]. apply digits_value_nonneg; [exact H|lia].
Qed.

Lemma count_nonneg (pg : listing) : (0 <= _extract_product_count pg)%Z.
Proof.
  unfold _extract_product_count. destruct (count_ok pg); [|lia].
  destruct (pagination_count pg) as [d|] eqn:E1.
  - unfold pagination_count in E1. destruct (is_empty _); [discriminate|].
    apply search_here in E1 as [s' E1]. apply int_nonneg. now apply of_here_digits in E1.
  - destruct (content pg) as [c|]; [|lia].
    destruct (PyStr.search total_results_here c) as [d|] eqn:E2.
    + apply search_here in E2 as [s' E2]. apply int_nonneg.
      now apply total_results_here_digits in E2.
    + destruct (PyStr.search results_here c) as [d|] eqn:E3; [|lia].
      apply search_here in E3 as [s' E3]. apply int_nonneg.
      now apply results_here_digits in E3.
Qed.

(** The page plan for a number of products. *)
Lemma total_pages_spec (found : Z) :
  (0 <= found)%Z ->
  (1 <= total_pages found)%Z
  /\ (PAGE_SIZE * (total_pages found - 1) < planned_products found
      <= PAGE_SIZE * total_pages found)%Z.
Proof.
  intros H. unfold total_pages, planned_products, PAGE_SIZE.
  destruct (Z.eqb_spec found 0) as [->|Hne].
  - vm_compute. repeat split; discriminate.
  - pose proof (Z.div_mod (found + 30 - 1) 30 ltac:(lia)) as Hd.
    pose proof (Z.mod_pos_bound (found + 30 - 1) 30 ltac:(lia)) as Hm.
    split; lia.
Qed.

Lemma page_numbers_spec (pages : Z) :
  (1 <= pages)%Z ->
  List.length (page_numbers pages) = Z.to_nat (pages - 1)
  /\ forall k : Z, In k (page_numbers pages) <-> (1 <= k < pages)%Z.
Proof.
  intros H. unfold page_numbers. split.
  - rewrite length_map, length_seq. lia.
  - intros k. rewrite in_map_iff. split.
    + intros (i & <- & Hi). apply in_seq in Hi. lia.
    + intros Hk. exists (Z.to_nat k). split; [lia|]. apply in_seq. lia.
Qed.

End AshleyCountFacts.

Section AshleyPlanProperties.
Import JS Ashley AshleyCountFacts.

(** X14. The product count of a page is never negative and is 0 when the
    pagination script raises.  The plan made from it has at least one
    page, has 17 pages when no count was found, is the least number of
    pages of 30 that holds the planned products, and asks for the pages 1
    to [pages - 1] after the first, each once and in ascending order; the
    offset of every page asked for is below the planned number of
    products. *)
Theorem X14_page_plan :
  forall pg : listing,
    let found := _extract_product_count pg in
    let pages := total_pages found in
    (0 <= found)%Z
    /\ (count_ok pg = false -> found = 0%Z)
    /\ (found = 0%Z -> pages = 17%Z)
    /\ (1 <= pages)%Z
    /\ (PAGE_SIZE * (pages - 1) < planned_products found <= PAGE_SIZE * pages)%Z
    /\ page_numbers pages = map Z.of_nat (seq 1 (Z.to_nat (pages - 1)))
    /\ Forall (fun k => (1 <= k < pages)%Z
                        /\ (k * PAGE_SIZE < planned_products found)%Z)
              (page_numbers pages).
Proof.
  intros pg found pages. subst pages.
  pose proof (count_nonneg pg) as H0. fold found in H0.
  destruct (total_pages_spec found H0) as [H1 H2].
  split; [exact H0|]. split.
  { subst found. unfold _extract_product_count. now intros ->. }
  split; [now intros ->|]. split; [exact H1|]. split; [exact H2|]. split.
  - unfold page_numbers. do 2 f_equal. lia.
  - apply List.Forall_forall. intros k Hk.
    apply (proj2 (page_numbers_spec _ H1)) in Hk. split; [exact Hk|].
    unfold PAGE_SIZE in *. lia.
Qed.
End AshleyPlanProperties.

Module AshleyUrlFacts.
Import JS Ashley Url UrlFacts StringFacts TextFacts.
Local Open Scope string_scope.

Lemma requested_app (l1 l2 : list Scraper.event) :
  requested (l1 ++ l2)%list = (requested l1 ++ requested l2)%list.
Proof. unfold requested. apply flat_map_app. Qed.

Lemma extends_refl (s : scraper) : extends s s.
Proof. unfold extends. repeat split; auto. Qed.

Lemma extends_trans (s1 s2 s3 : scraper) :
  extends s1 s2 -> extends s2 s3 -> extends s1 s3.
Proof.
  intros (A1 & A2 & A3 & A4) (B1 & B2 & B3 & B4). unfold extends.
  split; [etransitivity; eassumption|]. split; [etransitivity; eassumption|]. split.
  - intros u Hu. destruct (B3 u Hu) as [H|H]; [auto|now right].
  - intros u Hu. destruct (B4 u Hu) as [H|H]; [auto|now right].
Qed.

Lemma add_product_extends (u : string) (s : scraper) :
  String.prefix BASE_URL u = true -> PyStr.contains "dwvar_" u = false ->
  extends s (add_product u s).
Proof.
  intros H1 H2. unfold extends, add_product. cbn [product_urls variant_urls].
  split; [apply union_subseteq_r|]. split; [reflexivity|]. split.
  - intros x Hx. apply elem_of_union in Hx as [Hx|Hx]; [|auto].
    apply elem_of_singleton in Hx. subst. auto.
  - auto.
Qed.

Lemma add_variant_extends (u : string) (s : scraper) :
  String.prefix BASE_URL u = true -> extends s (add_variant u s).
Proof.
  intros H1. unfold extends, add_variant. cbn [product_urls variant_urls].
  split; [reflexivity|]. split; [apply union_subseteq_r|]. split.
  - auto.
  - intros x Hx. apply elem_of_union in Hx as [Hx|Hx]; [|auto].
    apply elem_of_singleton in Hx. subst. auto.
Qed.

Lemma pairs_encode (ps : PyDict.dict (list string)) :
  urlencode_doseq ps = urlencode (pairs ps).
Proof.
  unfold urlencode_doseq, urlencode, pairs. f_equal.
  induction ps as [|kv r IH]; [reflexivity|].
  simpl. rewrite map_app, map_map. now rewrite IH.
Qed.

Lemma pairs_keys (ps : PyDict.dict (list string)) (p : string -> bool) :
  Forall (fun kv => p (fst kv) = true) ps ->
  Forall (fun kv => p (fst kv) = true) (pairs ps).
Proof.
  intros H. apply List.Forall_forall. intros kv Hin. unfold pairs in Hin.
  apply in_flat_map in Hin as (e & He & Hin). apply in_map_iff in Hin as (v & <- & _).
  rewrite List.Forall_forall in H. now apply H.
Qed.

Lemma quote_plus_dwvar (k : string) :
  String.prefix "dwvar_" k = true ->
  String.prefix "dwvar_" (quote_plus k) = true.
Proof.
  intros H. apply prefix_split in H as [x ->].
  rewrite !append_cons, append_nil_l.
  change (quote_plus (String "d" (String "w" (String "v" (String "a" (String "r" (String "_" x)))))))
    with ("dwvar_" ++ quote_plus x).
  apply prefix_app.
Qed.

Section Facts.
Variable urlparse : string -> option ParseResult.
Variable parse_qs : string -> PyDict.dict (list string).

Lemma variant_params_keys (q : string) :
  Forall (fun kv => String.prefix "dwvar_" (fst kv) = true) (variant_params parse_qs q).
Proof.
  unfold variant_params. apply List.Forall_forall. intros kv H.
  now apply filter_In in H as [_ H].
Qed.

(** What [_normalize_url] returns. *)
Lemma normalize_cases (url n : string) :
  _normalize_url urlparse parse_qs url = Some n ->
  exists parsed,
    urlparse url = Some parsed
    /\ ((n = BASE_URL ++ path parsed
         /\ (PyStr.contains "dwvar_" url = false
             \/ variant_params parse_qs (query parsed) = []))
        \/ (PyStr.contains "dwvar_" url = true
            /\ variant_params parse_qs (query parsed) <> []
            /\ n = BASE_URL ++ path parsed ++ "?"
                   ++ urlencode_doseq (variant_params parse_qs (query parsed)))).
Proof.
  unfold _normalize_url. destruct (urlparse url) as [parsed|]; [|discriminate].
  intros H. exists parsed. split; [reflexivity|].
  destruct (PyStr.contains "dwvar_" url) eqn:Ec.
  - destruct (variant_params parse_qs (query parsed)) as [|kv r] eqn:Ev; simpl in H.
    + injection H as <-. left. auto.
    + injection H as <-. right. split; [reflexivity|]. split; [discriminate|reflexivity].
  - injection H as <-. left. auto.
Qed.

Lemma normalize_prefix (url n : string) :
  _normalize_url urlparse parse_qs url = Some n -> String.prefix BASE_URL n = true.
Proof.
  intros H. apply normalize_cases in H as (parsed & _ & [[-> _]|(_ & _ & ->)]);
    apply prefix_app.
Qed.

Lemma file_product_links_extends (links : list string) : forall s : scraper,
  extends s (snd (file_product_links urlparse parse_qs links s)).
Proof.
  induction links as [|url r IH]; intros s; simpl; [apply extends_refl|].
  destruct (_normalize_url urlparse parse_qs url) as [n|] eqn:E; [|apply extends_refl].
  pose proof (normalize_prefix url n E) as Hp.
  eapply extends_trans; [|apply IH].
  destruct (PyStr.contains "dwvar_" n) eqn:Ec.
  - now apply add_variant_extends.
  - now apply add_product_extends.
Qed.

Lemma file_swatch_links_extends (links : list string) : forall s : scraper,
  extends s (snd (file_swatch_links urlparse parse_qs links s)).
Proof.
  induction links as [|url r IH]; intros s; simpl; [apply extends_refl|].
  destruct (_normalize_url urlparse parse_qs _) as [n|] eqn:E; [|apply extends_refl].
  eapply extends_trans; [|apply IH].
  apply add_variant_extends. now apply normalize_prefix in E.
Qed.

Lemma extract_urls_extends (pg : listing) (s : scraper) :
  extends s (_extract_urls_from_page urlparse parse_qs pg s).
Proof.
  unfold _extract_urls_from_page. destruct (links_ok pg); [|apply extends_refl].
  pose proof (file_product_links_extends (product_links pg) s) as H1.
  destruct (file_product_links urlparse parse_qs (product_links pg) s) as [ok s1].
  simpl in H1. destruct (ok && swatches_ok pg); [|exact H1].
  eapply extends_trans; [exact H1|apply file_swatch_links_extends].
Qed.

Variable web : site.

(** What the loop over the pages does: one navigation for each page
    number, in order, whatever the answers. *)
Lemma fold_pages (url : string) (ks : list Z) : forall (s : scraper) (b : session),
  let r := fold_left (scrape_page urlparse parse_qs web url) ks (s, b) in
  extends s (fst r)
  /\ requested (log (snd r)) = (requested (log b) ++ map (paginated_url url) ks)%list
  /\ navigations (snd r) = (navigations b + List.length ks)%nat.
Proof.
  induction ks as [|k ks IH]; intros s b.
  - simpl. split; [apply extends_refl|]. split; [now rewrite app_nil_r|lia].
  - cbn [fold_left].
    set (st := scrape_page urlparse parse_qs web url (s, b) k).
    assert (Hst : extends s (fst st)
                  /\ requested (log (snd st)) = (requested (log b) ++ [paginated_url url k])%list
                  /\ navigations (snd st) = S (navigations b)).
    { subst st. unfold scrape_page, goto. cbn [fst snd].
      destruct (nav_ok (web (navigations b) (paginated_url url k)));
        cbn [fst snd sleep Ashley.log navigations current];
        rewrite !requested_app; cbn; rewrite !app_nil_r;
        (split; [|split; reflexivity]).
      - apply extract_urls_extends.
      - apply extends_refl. }
    destruct Hst as (H1 & H2 & H3).
    destruct st as [s1 b1]. cbn [fst snd] in *.
    destruct (IH s1 b1) as (I1 & I2 & I3).
    split; [eapply extends_trans; eassumption|]. split.
    + rewrite I2, H2. rewrite <- app_assoc. reflexivity.
    + rewrite I3, H3. simpl. lia.
Qed.

End Facts.
End AshleyUrlFacts.

Module PySortedFacts.

Lemma insert_str_perm (x : string) (l : list string) :
  Permutation (PyStr.insert x l) (x :: l).
Proof.
  induction l as [|y r IH]; simpl; [reflexivity|].
  destruct (String.leb x y); [reflexivity|]. rewrite IH. apply perm_swap.
Qed.

Lemma sorted_perm (l : list string) : Permutation (PyStr.sorted l) l.
Proof.
  induction l as [|x r IH]; simpl; [constructor|].
  rewrite insert_str_perm. now constructor.
Qed.

Lemma insert_str_sorted (x : string) (l : list string) :
  Sorted (fun a b => String.leb a b = true) l ->
  Sorted (fun a b => String.leb a b = true) (PyStr.insert x l).
Proof.
  induction l as [|y r IH]; intros H; simpl.
  - repeat constructor.
  - destruct (String.leb x y) eqn:E.
    + constructor; [exact H|]. now constructor.
    + inversion H as [|? ? Hs Hh]; subst. constructor; [now apply IH|].
      assert (Hyx : String.leb y x = true).
      { destruct (String.leb_total x y) as [H0|H0]; [congruence|exact H0]. }
      destruct r as [|z r]; simpl.
      * now constructor.
      * destruct (String.leb x z); constructor; [exact Hyx|].
        now inversion Hh.
Qed.

Lemma sorted_Sorted (l : list string) :
  Sorted (fun a b => String.leb a b = true) (PyStr.sorted l).
Proof.
  induction l as [|x r IH]; simpl; [constructor|]. now apply insert_str_sorted.
Qed.

End PySortedFacts.

Module AshleyRunFacts.
Import JS Ashley Url UrlFacts StringFacts Shape ReadingFacts PriceFacts TextFacts
       AshleyCountFacts AshleyUrlFacts PySortedFacts.
Local Open Scope string_scope.

(** The URLs of the result are those of the two sets, in order. *)
Lemma all_urls_spec (url : string) (s : scraper) :
  let all := Result.product_urls (result_of url s) in
  Sorted (fun a b => String.leb a b = true) all
  /\ NoDup all
  /\ (forall u, In u all <-> u ∈ product_urls s \/ u ∈ variant_urls s)
  /\ List.length all = size (product_urls s ∪ variant_urls s).
Proof.
  cbn. split; [apply sorted_Sorted|]. split; [|split].
  - apply (Permutation_NoDup (l := base.elements (product_urls s ∪ variant_urls s))).
    + symmetry. apply sorted_perm.
    + apply NoDup_ListNoDup, NoDup_elements.
  - intros u. rewrite <- elem_of_union, <- elem_of_elements, list_elem_of_In.
    split; apply Permutation_in; [|symmetry]; apply sorted_perm.
  - apply Permutation_length, sorted_perm.
Qed.

Lemma size_union_bounds (X Y : gset string) :
  (size X <= size (X ∪ Y))%nat /\ (size Y <= size (X ∪ Y))%nat
  /\ (size (X ∪ Y) <= size X + size Y)%nat
  /\ (size (X ∪ Y) = size X + size Y <-> X ## Y)%nat.
Proof.
  split; [apply subseteq_size, union_subseteq_l|].
  split; [apply subseteq_size, union_subseteq_r|].
  pose proof (size_union_alt X Y) as Hu.
  pose proof (size_difference_alt Y X) as Hd.
  pose proof (subseteq_size (Y ∩ X) Y (intersection_subseteq_l Y X)) as Hi.
  split; [lia|]. split.
  - intros H. assert (H0 : size (Y ∩ X) = 0%nat) by lia.
    apply size_empty_inv in H0. set_solver.
  - apply size_union.
Qed.

Lemma after_prefix_app (p x : string) : PyStr.after_prefix p (p ++ x) = Some x.
Proof.
  induction p as [|a p IH]; [rewrite append_nil_l; now destruct x|].
  rewrite append_cons. simpl. now rewrite Ascii.eqb_refl.
Qed.

Lemma remove_commas_spaces (sp : string) :
  all_chars PyStr.isspace sp = true -> remove_commas sp = sp.
Proof.
  induction sp as [|c sp IH]; simpl; [reflexivity|].
  intros H. apply andb_true_iff in H as [Hc Hs].
  assert (Hn : is_comma c = false).
  { unfold is_comma. destruct (Ascii.eqb_spec c ","); [subst; discriminate|reflexivity]. }
  rewrite Hn. now rewrite IH.
Qed.

Lemma of_here_found (sp d rest : string) :
  all_chars PyStr.isspace sp = true -> sp <> EmptyString ->
  all_chars is_digit d = true -> d <> EmptyString ->
  stops is_digit rest ->
  of_here ("of" ++ sp ++ d ++ rest) = Some d.
Proof.
  intros Hsp Hspne Hd Hdne Hrest. unfold of_here.
  rewrite after_prefix_app.
  assert (Hs : stops PyStr.isspace (d ++ rest)).
  { destruct d as [|c d]; [congruence|]. rewrite append_cons. simpl.
    simpl in Hd. apply andb_true_iff in Hd as [Hc _].
    destruct c as [[|] [|] [|] [|] [|] [|] [|] [|]];
      first [ reflexivity | discriminate Hc ]. }
  rewrite (take_while_app _ sp (d ++ rest) Hsp Hs).
  rewrite (drop_while_app _ sp (d ++ rest) Hsp Hs).
  rewrite (take_while_app _ d rest Hd Hrest).
  destruct sp; [congruence|]. destruct d; [congruence|]. reflexivity.
Qed.

Lemma pagination_count_found (pg : listing) (pre sp g rest : string) :
  pagination pg = Some (pre ++ "of" ++ sp ++ g ++ rest)%string ->
  PyStr.unmatched of_here (remove_commas pre)
                  ("of" ++ sp ++ remove_commas g ++ remove_commas rest) = true ->
  all_chars PyStr.isspace sp = true -> sp <> EmptyString ->
  all_chars (fun c => is_digit c || is_comma c) g = true ->
  remove_commas g <> EmptyString ->
  stops is_digit (remove_commas rest) ->
  pagination_count pg = Some (remove_commas g).
Proof.
  intros Hpag Hpre Hsp Hspne Hg Hgne Hrest.
  unfold pagination_count, pagination_text. rewrite Hpag.
  assert (Hne : is_empty (pre ++ "of" ++ sp ++ g ++ rest) = false).
  { destruct pre; [|reflexivity]. rewrite append_nil_l. reflexivity. }
  rewrite Hne. rewrite !remove_commas_app.
  rewrite (remove_commas_spaces sp Hsp).
  change (remove_commas "of") with "of"%string.
  rewrite (search_unmatched _ _ _ Hpre).
  assert (Hd : all_chars is_digit (remove_commas g) = true)
    by (now apply remove_commas_grouped).
  pose proof (of_here_found sp (remove_commas g) (remove_commas rest)
                Hsp Hspne Hd Hgne Hrest) as Hh.
  destruct ("of" ++ sp ++ remove_commas g ++ remove_commas rest)%string eqn:E;
    cbn [PyStr.search]; now rewrite Hh.
Qed.

End AshleyRunFacts.

Section AshleyRunProperties.
Import JS Ashley Url UrlFacts StringFacts Shape ReadingFacts PriceFacts TextFacts
       AshleyLoadFacts AshleyCountFacts AshleyUrlFacts PySortedFacts AshleyRunFacts.

(** X15. A run of the category scraper that loads the category page
    returns a result, whatever happens on the later pages: it asks for the
    category page (once for each attempt of the load) and then for every
    page of the plan exactly once, in ascending order, a page that fails
    being skipped, not retried.  A run whose load fails three times raises
    after these three navigations and leaves the sets of the scraper as
    they were. *)
Theorem X15_run_requests :
  forall (urlparse : string -> option ParseResult)
         (parse_qs : string -> PyDict.dict (list string))
         (web : site) (s : scraper) (category_url : option string),
    let url := effective_url category_url in
    let load := goto_with_retries web url max_retries new_page in
    let plan := page_numbers (total_pages (_extract_product_count (current (snd load)))) in
    let run := scrape urlparse parse_qs web s category_url in
    if fst load
    then fst (fst run) = Scraper.Returned (result_of url (snd (fst run)))
         /\ requested (log (snd run))
            = repeat url (navigations (snd load)) ++ map (paginated_url url) plan
         /\ navigations (snd run) = (navigations (snd load) + List.length plan)%nat
         /\ (1 <= navigations (snd load) <= 3)%nat
    else fst (fst run) = Scraper.Raised
         /\ snd (fst run) = s
         /\ requested (log (snd run)) = [url; url; url]
         /\ navigations (snd run) = 3%nat.
Proof.
  intros urlparse parse_qs web s category_url url load plan run.
  destruct (goto_with_retries_spec web url new_page) as (Hok & k & Hk & Hn & Hl & _ & Hf & _ & Hlast).
  fold load in Hok, Hn, Hl, Hf, Hlast. cbn [navigations new_page Ashley.log] in Hn, Hl.
  assert (Hreq : requested (log (snd load)) = repeat url (S k)).
  { rewrite Hl. clear. cbn [app requested flat_map]. f_equal.
    induction k as [|k IH]; [reflexivity|]. cbn. now f_equal. }
  subst run. unfold scrape. fold url. fold load.
  destruct load as [ok b0] eqn:El. cbn [fst snd] in *.
  destruct ok.
  - fold plan.
    pose proof (fold_pages urlparse parse_qs web url plan
                  (_extract_urls_from_page urlparse parse_qs (current b0) s) b0)
      as (_ & H2 & H3).
    destruct (fold_left _ plan _) as [s2 b1]. cbn [fst snd] in *.
    split; [reflexivity|]. split; [|split; [exact H3|lia]].
    rewrite H2, Hreq, Hn. reflexivity.
  - cbn [fst snd]. split; [reflexivity|]. split; [reflexivity|].
    assert (k = 2)%nat as -> by (apply Hlast; reflexivity).
    split; [exact Hreq|exact Hn].
Qed.
(** X16. The URL list of a result holds exactly the product and variant
    URLs of the scraper, in ascending order and each once, and the
    statistics agree with it: the total is the length of the list, is at
    least each of the two counts and at most their sum, which it reaches
    exactly when no URL is both a product and a variant URL. *)
Theorem X16_result_statistics :
  forall (url : string) (s : scraper),
    let r := result_of url s in
    let st := Result.statistics r in
    Sorted (fun a b => String.leb a b = true) (Result.product_urls r)
    /\ NoDup (Result.product_urls r)
    /\ (forall u, In u (Result.product_urls r)
                  <-> u ∈ product_urls s \/ u ∈ variant_urls s)
    /\ Result.total_urls st = List.length (Result.product_urls r)
    /\ (Result.base_products st <= Result.total_urls st)%nat
    /\ (Result.variant_urls st <= Result.total_urls st)%nat
    /\ (Result.total_urls st <= Result.base_products st + Result.variant_urls st)%nat
    /\ (Result.total_urls st = (Result.base_products st + Result.variant_urls st)%nat
        <-> product_urls s ## variant_urls s).
Proof.
  intros url s r st.
  destruct (all_urls_spec url s) as (H1 & H2 & H3 & H4).
  destruct (size_union_bounds (product_urls s) (variant_urls s)) as (B1 & B2 & B3 & B4).
  fold r in H1, H2, H3, H4.
  assert (Ht : Result.total_urls st = size (product_urls s ∪ variant_urls s))
    by (rewrite <- H4; reflexivity).
  split; [exact H1|]. split; [exact H2|]. split; [exact H3|].
  split; [reflexivity|]. rewrite Ht.
  change (Result.base_products st) with (size (product_urls s)).
  change (Result.variant_urls st) with (size (variant_urls s)).
  split; [exact B1|]. split; [exact B2|]. split; [exact B3|exact B4].
Qed.

(** X17. A run never removes a URL from the sets of the scraper object,
    which are not cleared between runs: after a run they hold what they
    held before, and what the run added begins with the base address of
    the shop; the product URLs it added hold no ["dwvar_"].  Every URL in
    the result of a run on a new scraper object begins with the base
    address. *)
Theorem X17_urls_accumulate :
  forall (urlparse : string -> option ParseResult)
         (parse_qs : string -> PyDict.dict (list string))
         (web : site) (s : scraper) (category_url : option string),
    let run := scrape urlparse parse_qs web s category_url in
    let s' := snd (fst run) in
    extends s s'
    /\ forall r, fst (fst run) = Scraper.Returned r ->
                 (forall u, u ∈ product_urls s -> In u (Result.product_urls r))
                 /\ (forall u, u ∈ variant_urls s -> In u (Result.product_urls r))
                 /\ (s = __init__ ->
                     Forall (fun u => String.prefix BASE_URL u = true)
                            (Result.product_urls r)).
Proof.
  intros urlparse parse_qs web s category_url run s'.
  assert (He : extends s s'
               /\ forall r, fst (fst run) = Scraper.Returned r ->
                            r = result_of (effective_url category_url) s').
  { subst s' run. unfold scrape.
    destruct (goto_with_retries web _ max_retries new_page) as [[|] b0].
    - set (s1 := _extract_urls_from_page urlparse parse_qs (current b0) s).
      pose proof (fold_pages urlparse parse_qs web (effective_url category_url)
                    (page_numbers (total_pages (_extract_product_count (current b0))))
                    s1 b0) as (H & _).
      destruct (fold_left _ _ _) as [s2 b1]. cbn [fst snd] in *. split.
      + eapply extends_trans; [apply extract_urls_extends|exact H].
      + now intros r [= <-].
    - cbn [fst snd]. split; [apply extends_refl|discriminate]. }
  destruct He as [He Hr]. split; [exact He|].
  intros r Hret. rewrite (Hr r Hret).
  destruct (all_urls_spec (effective_url category_url) s') as (_ & _ & Hin & _).
  destruct He as (E1 & E2 & E3 & E4).
  split; [|split].
  - intros u Hu. apply Hin. left. now apply E1.
  - intros u Hu. apply Hin. right. now apply E2.
  - intros ->. apply List.Forall_forall. intros u Hu. apply Hin in Hu as [Hu|Hu].
    + destruct (E3 u Hu) as [H|[H _]]; [|exact H].
      cbn in H. now apply not_elem_of_empty in H.
    + destruct (E4 u Hu) as [H|H]; [|exact H].
      cbn in H. now apply not_elem_of_empty in H.
Qed.

(** X18. Normalising a link gives the base address of the shop followed by
    the path of the link and, when the link holds ["dwvar_"] and its query
    has parameters whose name begins with ["dwvar_"], by a question mark
    and these parameters, all of them and no other, with all their values
    and in their order; the scheme, the host, the other parameters and the
    fragment are dropped.  A link without ["dwvar_"], or without such a
    parameter, is reduced to its path; a link that has such a parameter
    with a value keeps ["dwvar_"] in its normal form and is so filed as a
    variant. *)
Theorem X18_normalized_links :
  forall (urlparse : string -> option ParseResult)
         (parse_qs : string -> PyDict.dict (list string))
         (url n : string),
    _normalize_url urlparse parse_qs url = Some n ->
    exists parsed,
      urlparse url = Some parsed
      /\ let kept := filter (fun kv => String.prefix "dwvar_" (fst kv))
                            (parse_qs (query parsed)) in
         let keeps := PyStr.contains "dwvar_" url && negb (Scraper.is_nil kept) in
         n = (BASE_URL ++ path parsed
              ++ (if keeps then "?" ++ urlencode_doseq kept else EmptyString))%string
         /\ String.prefix BASE_URL n = true
         /\ urlencode_doseq kept = urlencode (pairs kept)
         /\ read_query (urlencode_doseq kept) = pairs kept
         /\ (keeps = true -> pairs kept <> [] -> PyStr.contains "dwvar_" n = true).
Proof.
  intros urlparse parse_qs url n H.
  pose proof (normalize_prefix urlparse parse_qs url n H) as Hp.
  apply normalize_cases in H as (parsed & Hu & Hcase).
  exists parsed. split; [exact Hu|]. cbv zeta.
  fold (variant_params parse_qs (query parsed)).
  set (vp := variant_params parse_qs (query parsed)) in *.
  assert (Hr : read_query (urlencode_doseq vp) = pairs vp)
    by (rewrite pairs_encode; apply read_query_urlencode).
  destruct Hcase as [[-> Hc]|(Hc & Hv & ->)].
  - assert (Hk : PyStr.contains "dwvar_" url && negb (Scraper.is_nil vp) = false).
    { destruct Hc as [->| ->]; [reflexivity|apply andb_false_r]. }
    rewrite Hk. split; [now rewrite append_nil_r|]. split; [exact Hp|].
    split; [apply pairs_encode|]. split; [exact Hr|]. discriminate.
  - assert (Hk : PyStr.contains "dwvar_" url && negb (Scraper.is_nil vp) = true).
    { rewrite Hc. destruct vp; [congruence|reflexivity]. }
    rewrite Hk. split; [reflexivity|]. split; [exact Hp|].
    split; [apply pairs_encode|]. split; [exact Hr|].
    intros _ Hne. unfold PyStr.contains.
    apply includes_app, includes_app. rewrite append_cons, append_nil_l.
    cbn [Discovery.includes]. apply orb_true_iff. right.
    apply includes_prefix. rewrite pairs_encode. unfold urlencode.
    pose proof (pairs_keys vp _ (variant_params_keys parse_qs (query parsed))) as Hkeys.
    fold vp in Hkeys. destruct (pairs vp) as [|kv r]; [congruence|].
    inversion Hkeys as [|? ? Hkv _]; subst.
    apply quote_plus_dwvar in Hkv. apply prefix_split in Hkv as [x Hx].
    assert (He : exists y, join_amp (map encode_pair (kv :: r))
                           = ("dwvar_" ++ y)%string).
    { simpl map. destruct (map encode_pair r) as [|e es].
      - cbn [join_amp]. rewrite encode_pair_eq, Hx, append_assoc. eauto.
      - rewrite join_amp_cons, encode_pair_eq, Hx, !append_assoc. eauto. }
    destruct He as [y ->]. apply prefix_app.
Qed.

Lemma X18_normalized_links_witness :
  _normalize_url AshleyExamples.link_urlparse AshleyExamples.link_parse_qs
                 AshleyExamples.variant_link
  = Some "https://www.ashleyfurniture.com/p/bed/B100.html?dwvar_B100_color=Brown"
  /\ PyStr.contains "dwvar_"
       "https://www.ashleyfurniture.com/p/bed/B100.html?dwvar_B100_color=Brown" = true.
Proof.
  assert (E : _normalize_url AshleyExamples.link_urlparse AshleyExamples.link_parse_qs
                AshleyExamples.variant_link
              = Some "https://www.ashleyfurniture.com/p/bed/B100.html?dwvar_B100_color=Brown")
    by (vm_compute; reflexivity).
  split; [exact E|].
  destruct (X18_normalized_links _ _ _ _ E) as (parsed & Hp & H).
  injection Hp as <-. cbv zeta in H. destruct H as (_ & _ & _ & _ & H).
  apply H; [reflexivity|discriminate].
Defined.

(** X19. The product count is read from the pagination text with its
    commas removed: when the script returns and the leftmost place of the
    text so reduced where "of", white space and digits follow one another
    holds a number written with or without thousands separators, the count
    is that number, whatever the page content says; a number of more than
    4300 digits, which [int] refuses, counts as 0. *)
Theorem X19_pagination_count :
  forall (pg : listing) (pre sp g rest : string),
    count_ok pg = true ->
    pagination pg = Some (pre ++ "of" ++ sp ++ g ++ rest)%string ->
    PyStr.unmatched of_here (remove_commas pre)
                    ("of" ++ sp ++ remove_commas g ++ remove_commas rest) = true ->
    all_chars PyStr.isspace sp = true -> sp <> EmptyString ->
    all_chars (fun c => is_digit c || is_comma c) g = true ->
    remove_commas g <> EmptyString ->
    stops is_digit (remove_commas rest) ->
    _extract_product_count pg
    = (if (String.length (remove_commas g) <=? 4300)%nat
       then digits_value 0 (remove_commas g) else 0)%Z.
Proof.
  intros pg pre sp g rest Hok Hpag Hpre Hsp Hspne Hg Hgne Hrest.
  unfold _extract_product_count. rewrite Hok.
  rewrite (pagination_count_found pg pre sp g rest Hpag Hpre Hsp Hspne Hg Hgne Hrest).
  apply int_or_zero_eq.
Qed.

Lemma X19_pagination_count_witness :
  _extract_product_count AshleyExamples.counted_listing = 1234%Z.
Proof.
  apply (X19_pagination_count AshleyExamples.counted_listing
           "Showing 1 - 30 " " " "1,234" " Results").
  - reflexivity.
  - reflexivity.
  - reflexivity.
  - reflexivity.
  - discriminate.
  - reflexivity.
  - discriminate.
  - reflexivity.
Defined.
End AshleyRunProperties.

Module AshleyLinkFacts.
Import JS Ashley Url StringFacts TextFacts SetOrderFacts AshleyUrlFacts.

Lemma product_links_In (pg : listing) (h : string) :
  In h (product_links pg) <-> is_product_link pg h.
Proof.
  unfold product_links, is_product_link. rewrite set_order_all, filter_In.
  split.
  - intros (Hin & Hc). apply andb_true_iff in Hc as [H1 H2].
    apply negb_true_iff in H1, H2. split; [exact Hin|]. split; [|exact H2].
    intros ->. discriminate.
  - intros (Hin & Hne & Hj). split; [exact Hin|]. rewrite Hj.
    destruct h; [congruence|reflexivity].
Qed.

Lemma swatch_links_In (pg : listing) (l : string) :
  In l (swatch_links pg) <-> is_swatch_link pg l.
Proof.
  unfold swatch_links, is_swatch_link. rewrite in_flat_map. split.
  - intros (w & Hw & Hin). exists w. split; [exact Hw|].
    destruct (swatch_url w) as [u|]; [|contradiction].
    destruct (negb (is_empty u) && Discovery.includes u "/p/") eqn:E; [|contradiction].
    destruct Hin as [<-|[]]. apply andb_true_iff in E as [E1 E2].
    split; [reflexivity|]. split; [|exact E2]. intros ->. discriminate.
  - intros (w & Hw & Hu & Hne & Hp). exists w. split; [exact Hw|].
    rewrite Hu, Hp. destruct l; [congruence|]. simpl. auto.
Qed.

Section Facts.
Variable urlparse : string -> option ParseResult.
Variable parse_qs : string -> PyDict.dict (list string).

(** Where the URLs come from that the first loop files. *)
Lemma file_product_links_sound (links : list string) : forall s : scraper,
  let r := file_product_links urlparse parse_qs links s in
  (forall u, u ∈ product_urls (snd r) ->
             u ∈ product_urls s
             \/ exists h, In h links /\ _normalize_url urlparse parse_qs h = Some u
                          /\ PyStr.contains "dwvar_" u = false)
  /\ (forall u, u ∈ variant_urls (snd r) ->
                u ∈ variant_urls s
                \/ exists h, In h links /\ _normalize_url urlparse parse_qs h = Some u
                             /\ PyStr.contains "dwvar_" u = true).
Proof.
  induction links as [|h r IH]; intros s; cbn [file_product_links fst snd]; [split; auto|].
  destruct (_normalize_url urlparse parse_qs h) as [n|] eqn:E; [|split; auto].
  destruct (PyStr.contains "dwvar_" n) eqn:Ec.
  - destruct (IH (add_variant n s)) as [H1 H2]. split.
    + intros u Hu. destruct (H1 u Hu) as [H|(h' & Hin & Hn & Hc)]; [left; exact H|].
      right. exists h'. split; [now right|auto].
    + intros u Hu. destruct (H2 u Hu) as [H|(h' & Hin & Hn & Hc)].
      * unfold add_variant, add_product in H; cbn [variant_urls product_urls] in H.
        apply elem_of_union in H as [H|H]; [|now left].
        apply elem_of_singleton in H. subst. right. exists h. split; [now left|auto].
      * right. exists h'. split; [now right|auto].
  - destruct (IH (add_product n s)) as [H1 H2]. split.
    + intros u Hu. destruct (H1 u Hu) as [H|(h' & Hin & Hn & Hc)].
      * unfold add_variant, add_product in H; cbn [variant_urls product_urls] in H.
        apply elem_of_union in H as [H|H]; [|now left].
        apply elem_of_singleton in H. subst. right. exists h. split; [now left|auto].
      * right. exists h'. split; [now right|auto].
    + intros u Hu. destruct (H2 u Hu) as [H|(h' & Hin & Hn & Hc)]; [left; exact H|].
      right. exists h'. split; [now right|auto].
Qed.

(** When every link parses, the first loop runs to its end and files
    every link. *)
Lemma file_product_links_complete (links : list string) : forall s : scraper,
  (forall h, In h links -> _normalize_url urlparse parse_qs h <> None) ->
  let r := file_product_links urlparse parse_qs links s in
  fst r = true
  /\ forall h, In h links ->
               exists u, _normalize_url urlparse parse_qs h = Some u
                         /\ (u ∈ product_urls (snd r) \/ u ∈ variant_urls (snd r)).
Proof.
  induction links as [|h r IH]; intros s Hall; cbn [file_product_links fst snd];
    [split; [reflexivity|intros h []]|].
  destruct (_normalize_url urlparse parse_qs h) as [n|] eqn:E;
    [|exfalso; apply (Hall h); [now left|exact E]].
  set (s1 := if PyStr.contains "dwvar_" n then add_variant n s else add_product n s).
  destruct (IH s1 (fun h' Hh => Hall h' (or_intror Hh))) as [Hok Hin].
  split; [exact Hok|]. intros h' [<-|Hh]; [|now apply Hin].
  exists n. split; [exact E|].
  destruct (file_product_links_extends urlparse parse_qs r s1) as (Hsub1 & Hsub2 & _).
  subst s1. destruct (PyStr.contains "dwvar_" n).
  - right. apply Hsub2. unfold add_variant; cbn [variant_urls].
    apply elem_of_union. left. now apply elem_of_singleton.
  - left. apply Hsub1. unfold add_product; cbn [product_urls].
    apply elem_of_union. left. now apply elem_of_singleton.
Qed.

Lemma file_swatch_links_sound (links : list string) : forall s : scraper,
  let r := file_swatch_links urlparse parse_qs links s in
  product_urls (snd r) = product_urls s
  /\ (forall u, u ∈ variant_urls (snd r) ->
                u ∈ variant_urls s
                \/ exists l, In l links /\ _normalize_url urlparse parse_qs (absolute l) = Some u).
Proof.
  induction links as [|l r IH]; intros s; cbn [file_swatch_links fst snd]; [split; auto|].
  destruct (_normalize_url urlparse parse_qs (absolute l)) as [n|] eqn:E; [|split; auto].
  destruct (IH (add_variant n s)) as [H1 H2]. split; [exact H1|].
  intros u Hu. destruct (H2 u Hu) as [H|(l' & Hin & Hn)].
  - unfold add_variant in H; cbn [variant_urls product_urls] in H.
    apply elem_of_union in H as [H|H]; [|now left].
    apply elem_of_singleton in H. subst. right. exists l. split; [now left|auto].
  - right. exists l'. split; [now right|auto].
Qed.

Lemma file_swatch_links_complete (links : list string) : forall s : scraper,
  (forall l, In l links -> _normalize_url urlparse parse_qs (absolute l) <> None) ->
  let r := file_swatch_links urlparse parse_qs links s in
  forall l, In l links ->
            exists u, _normalize_url urlparse parse_qs (absolute l) = Some u /\ u ∈ variant_urls (snd r).
Proof.
  induction links as [|l r IH]; intros s Hall; cbn [file_swatch_links fst snd];
    [intros l []|].
  destruct (_normalize_url urlparse parse_qs (absolute l)) as [n|] eqn:E;
    [|exfalso; apply (Hall l); [now left|exact E]].
  intros l' [<-|Hl]; [|now apply (IH (add_variant n s) (fun x Hx => Hall x (or_intror Hx)))].
  exists n. split; [exact E|].
  destruct (file_swatch_links_extends urlparse parse_qs r (add_variant n s)) as (_ & Hsub2 & _).
  apply Hsub2. unfold add_variant; cbn [variant_urls].
  apply elem_of_union. left. now apply elem_of_singleton.
Qed.

(** Every URL parses once [urlparse] never raises. *)
Lemma normalize_total (url : string) :
  (forall x, urlparse x <> None) -> _normalize_url urlparse parse_qs url <> None.
Proof.
  intros H. unfold _normalize_url. specialize (H url).
  destruct (urlparse url) as [parsed|]; [|congruence].
  destruct (PyStr.contains "dwvar_" url); [|discriminate].
  destruct (Scraper.is_nil _); discriminate.
Qed.

End Facts.
End AshleyLinkFacts.

Section AshleyLinkProperties.
Import JS Ashley Url StringFacts TextFacts SetOrderFacts AshleyUrlFacts AshleyLinkFacts.

(** X20. What one page adds to the sets of the scraper.  A URL it adds to
    the product URLs is the normal form, without ["dwvar_"], of a product
    link of the page; a URL it adds to the variant URLs is the normal form
    with ["dwvar_"] of a product link or the normal form of a swatch link,
    made absolute.  Nothing is added when the link script raises.  When no
    call raises, every product link and every swatch link of the page is
    filed in its normal form, the swatch links among the variant URLs. *)
Theorem X20_collected_links :
  forall (urlparse : string -> option ParseResult)
         (parse_qs : string -> PyDict.dict (list string))
         (pg : listing) (s : scraper),
    let normalize := _normalize_url urlparse parse_qs in
    let s' := _extract_urls_from_page urlparse parse_qs pg s in
    (links_ok pg = false -> s' = s)
    /\ (forall u, u ∈ product_urls s' ->
                  u ∈ product_urls s
                  \/ exists h, is_product_link pg h /\ normalize h = Some u
                               /\ PyStr.contains "dwvar_" u = false)
    /\ (forall u, u ∈ variant_urls s' ->
                  u ∈ variant_urls s
                  \/ (exists h, is_product_link pg h /\ normalize h = Some u
                                /\ PyStr.contains "dwvar_" u = true)
                  \/ (exists l, is_swatch_link pg l /\ normalize (absolute l) = Some u))
    /\ ((forall url, urlparse url <> None) -> links_ok pg = true ->
        (forall h, is_product_link pg h ->
                   exists u, normalize h = Some u
                             /\ (u ∈ product_urls s' \/ u ∈ variant_urls s'))
        /\ (swatches_ok pg = true ->
            forall l, is_swatch_link pg l ->
                      exists u, normalize (absolute l) = Some u /\ u ∈ variant_urls s')).
Proof.
  intros urlparse parse_qs pg s normalize s'. subst normalize s'.
  unfold _extract_urls_from_page.
  destruct (links_ok pg) eqn:El.
  2:{ split; [reflexivity|]. split; [auto|]. split; [auto|]. intros _ H. discriminate. }
  split; [discriminate|].
  pose proof (file_product_links_sound urlparse parse_qs (product_links pg) s) as [P1 P2].
  pose proof (file_product_links_complete urlparse parse_qs (product_links pg) s) as PC.
  pose proof (file_product_links_extends urlparse parse_qs (product_links pg) s) as PE.
  destruct (file_product_links urlparse parse_qs (product_links pg) s) as [ok s1].
  cbn [fst snd] in *.
  pose proof (file_swatch_links_sound urlparse parse_qs (swatch_links pg) s1) as [S1 S2].
  pose proof (file_swatch_links_complete urlparse parse_qs (swatch_links pg) s1) as SC.
  pose proof (file_swatch_links_extends urlparse parse_qs (swatch_links pg) s1) as SE.
  set (s2 := snd (file_swatch_links urlparse parse_qs (swatch_links pg) s1)) in *.
  assert (Hp : forall u, u ∈ product_urls s1 ->
                 u ∈ product_urls s
                 \/ exists h, is_product_link pg h
                              /\ _normalize_url urlparse parse_qs h = Some u
                              /\ PyStr.contains "dwvar_" u = false).
  { intros u Hu. destruct (P1 u Hu) as [H|(h & Hin & Hn & Hc)]; [now left|].
    right. exists h. split; [now apply product_links_In|auto]. }
  assert (Hv : forall u, u ∈ variant_urls s1 ->
                 u ∈ variant_urls s
                 \/ exists h, is_product_link pg h
                              /\ _normalize_url urlparse parse_qs h = Some u
                              /\ PyStr.contains "dwvar_" u = true).
  { intros u Hu. destruct (P2 u Hu) as [H|(h & Hin & Hn & Hc)]; [now left|].
    right. exists h. split; [now apply product_links_In|auto]. }
  destruct (ok && swatches_ok pg) eqn:Eo.
  - apply andb_true_iff in Eo as [-> Esw]. split; [|split].
    + intros u Hu. rewrite S1 in Hu. now apply Hp.
    + intros u Hu. destruct (S2 u Hu) as [H|(l & Hin & Hn)].
      * destruct (Hv u H) as [H'|H']; auto.
      * right. right. exists l. split; [now apply swatch_links_In|exact Hn].
    + intros Htot _. split.
      * intros h Hh. apply product_links_In in Hh.
        destruct PC as [_ PC];
          [intros x _; now apply normalize_total|].
        destruct (PC h Hh) as (u & Hn & Hu). exists u. split; [exact Hn|].
        destruct SE as (Hsub1 & Hsub2 & _). destruct Hu as [Hu|Hu]; [left|right]; auto.
      * intros _ l Hl. apply swatch_links_In in Hl.
        apply SC; [intros x _; now apply normalize_total|exact Hl].
  - split; [exact Hp|]. split.
    + intros u Hu. destruct (Hv u Hu) as [H|H]; auto.
    + intros Htot _.
      destruct PC as [Hok PC]; [intros x _; now apply normalize_total|]. subst ok.
      cbn [andb] in Eo. split.
      * intros h Hh. apply product_links_In in Hh. exact (PC h Hh).
      * intros Hsw. congruence.
Qed.

Lemma X20_collected_links_witness :
  exists u,
    _normalize_url AshleyExamples.link_urlparse AshleyExamples.link_parse_qs
                   (absolute "/p/bed/B100.html") = Some u
    /\ u ∈ variant_urls
             (_extract_urls_from_page AshleyExamples.link_urlparse
                AshleyExamples.link_parse_qs AshleyExamples.linked_listing __init__).
Proof.
  pose proof (X20_collected_links AshleyExamples.link_urlparse AshleyExamples.link_parse_qs
                AshleyExamples.linked_listing __init__) as H.
  cbv zeta in H. destruct H as (_ & _ & _ & H).
  destruct H as [_ H]; [discriminate|reflexivity|].
  apply (H eq_refl "/p/bed/B100.html").
  exists {| data_url := Some EmptyString; data_href := Some "/p/bed/B100.html";
            data_swatch_url := None |}.
  split; [left; reflexivity|]. split; [reflexivity|]. split; [discriminate|reflexivity].
Defined.
End AshleyLinkProperties.

Module AshleyContentFacts.
Import JS Ashley StringFacts Shape ReadingFacts TextFacts AshleyCountFacts.
Local Open Scope string_scope.

(** What begins with a label begins neither with a digit nor with white
    space. *)
Lemma label_here_stops (s : string) :
  label_here s = true -> stops is_digit s /\ stops PyStr.isspace s.
Proof.
  destruct s as [|c s]; [discriminate|]. unfold label_here. cbn [Discovery.toLowerCase].
  intros H.
  assert (Hc : Discovery.lower_char c = "r"%char \/ Discovery.lower_char c = "p"%char
               \/ Discovery.lower_char c = "i"%char).
  { apply orb_true_iff in H as [H|H]; [apply orb_true_iff in H as [H|H]|];
      apply prefix_split in H as [x Hx]; rewrite append_cons in Hx;
      injection Hx as Hx _; auto. }
  clear H. simpl.
  destruct c as [[|] [|] [|] [|] [|] [|] [|] [|]];
    first [ split; reflexivity
          | exfalso; vm_compute in Hc; destruct Hc as [H|[H|H]]; discriminate H ].
Qed.

(** A run of digits that a comma follows is not a count. *)
Lemma search_results_comma (g s : string) :
  all_chars is_digit g = true ->
  PyStr.search results_here (g ++ String "," s) = PyStr.search results_here s.
Proof.
  induction g as [|c g IH]; intros Hg.
  - rewrite append_nil_l. cbn [PyStr.search]. unfold results_here at 1.
    cbn [take_while is_digit]. reflexivity.
  - assert (Hh : results_here (String c g ++ String "," s) = None).
    { unfold results_here.
      rewrite (take_while_app is_digit (String c g) (String "," s) Hg eq_refl).
      rewrite (drop_while_app is_digit (String c g) (String "," s) Hg eq_refl).
      cbn [is_empty negb andb drop_while PyStr.isspace].
      reflexivity. }
    simpl in Hg. apply andb_true_iff in Hg as [_ Hg].
    rewrite append_cons in *. cbn [PyStr.search]. rewrite Hh. now apply IH.
Qed.

Lemma results_here_found (d sp tail : string) :
  all_chars is_digit d = true -> d <> EmptyString ->
  all_chars PyStr.isspace sp = true ->
  label_here tail = true ->
  PyStr.search results_here (d ++ sp ++ tail) = Some d.
Proof.
  intros Hd Hne Hsp Hl. destruct (label_here_stops tail Hl) as [S1 S2].
  assert (S3 : stops is_digit (sp ++ tail)).
  { destruct sp as [|c sp]; [now rewrite append_nil_l|].
    rewrite append_cons. simpl. simpl in Hsp. apply andb_true_iff in Hsp as [Hc _].
    destruct c as [[|] [|] [|] [|] [|] [|] [|] [|]];
      first [ reflexivity | discriminate Hc ]. }
  assert (Hh : results_here (d ++ sp ++ tail) = Some d).
  { unfold results_here.
    rewrite (take_while_app is_digit d (sp ++ tail) Hd S3).
    rewrite (drop_while_app is_digit d (sp ++ tail) Hd S3).
    rewrite (drop_while_app PyStr.isspace sp tail Hsp S2).
    rewrite Hl. destruct d; [congruence|reflexivity]. }
  destruct (d ++ sp ++ tail) eqn:E; cbn [PyStr.search]; now rewrite Hh.
Qed.

End AshleyContentFacts.

Section AshleyContentProperties.
Import JS Ashley StringFacts Shape ReadingFacts TextFacts AshleyCountFacts
       AshleyContentFacts.
Local Open Scope string_scope.

(** X21. When neither the pagination text nor a "totalResults" entry
    gives a count, the count is the number of the leftmost place of the
    page content where digits are followed, after any white space, by
    "Results", "Products" or "Items" in any letter case.  Thousands
    separators are not understood there: of a number written with a comma
    only the digits after the comma count, so that "1,234 Results" is read
    as 234.  A number of more than 4300 digits counts as 0. *)
Theorem X21_content_count :
  forall (pg : listing) (pre g d sp tail : string),
    count_ok pg = true ->
    pagination_count pg = None ->
    all_chars is_digit g = true ->
    all_chars is_digit d = true -> d <> EmptyString ->
    all_chars PyStr.isspace sp = true ->
    label_here tail = true ->
    let count := (if (String.length d <=? 4300)%nat then digits_value 0 d else 0)%Z in
    (content pg = Some (pre ++ d ++ sp ++ tail) ->
     PyStr.search total_results_here (pre ++ d ++ sp ++ tail) = None ->
     PyStr.unmatched results_here pre (d ++ sp ++ tail) = true ->
     _extract_product_count pg = count)
    /\ (content pg = Some (pre ++ g ++ String "," (d ++ sp ++ tail)) ->
        PyStr.search total_results_here (pre ++ g ++ String "," (d ++ sp ++ tail)) = None ->
        PyStr.unmatched results_here pre (g ++ String "," (d ++ sp ++ tail)) = true ->
        _extract_product_count pg = count).
Proof.
  intros pg pre g d sp tail Hok Hpag Hg Hd Hne Hsp Hl count.
  unfold _extract_product_count. rewrite Hok, Hpag. split.
  - intros -> -> Hpre. rewrite (search_unmatched _ _ _ Hpre).
    rewrite (results_here_found d sp tail Hd Hne Hsp Hl). apply int_or_zero_eq.
  - intros -> -> Hpre. rewrite (search_unmatched _ _ _ Hpre).
    rewrite (search_results_comma g _ Hg).
    rewrite (results_here_found d sp tail Hd Hne Hsp Hl). apply int_or_zero_eq.
Qed.

Lemma X21_content_count_witness :
  _extract_product_count AshleyExamples.uncounted_listing = 234%Z.
Proof.
  apply (proj2 (X21_content_count AshleyExamples.uncounted_listing
                  "<h1>Beds 2024</h1><p>Showing " "1" "234" " " "Results</p>"
                  eq_refl eq_refl eq_refl eq_refl
                  ltac:(discriminate) eq_refl eq_refl)).
  - reflexivity.
  - vm_compute. reflexivity.
  - reflexivity.
Defined.
End AshleyContentProperties.
